(** * Cast Kit: the bridge protocol and the state-synchronisation core

    A shallow embedding of the TypeScript sources

      - [client/core/state.ts]      (StateManager, isEqual, initialState)
      - [client/bridge/protocol.ts] (zod schemas, validateMessage, createMessage)
      - [client/bridge/webview-bridge.ts] (WebViewBridge)
      - [client/core/client.ts]     (CastKitClient)
      - [react/context.tsx]         (deepEqual)

    together with the part of the JavaScript runtime they run on: values
    with reference identity, promises, timers and the message listeners
    of [window].  Definitions come first, the verified properties last. *)

From Stdlib Require Import ZArith.
From stdpp Require Import base option list strings pretty gmap.

Local Open Scope string_scope.
Local Open Scope list_scope.

(* ===================================================================== *)
(** ** JavaScript values *)
(* ===================================================================== *)

Module JS.

(** Object identity.  Every allocation site of the embedded code draws
    from a counter of its own component, so two allocations never share
    a reference; [RExt] are the objects handed in from outside (callers
    and the host application). *)
Inductive Ref : Type :=
  | RExt (n : nat)
  | RState (n : nat)
  | RClient (n : nat)
  | RBridge (n : nat).

Global Instance Ref_eq_dec : EqDecision Ref.
Proof. solve_decision. Defined.

(** Values.  Numbers are the integers plus [NaN]; an object is its
    reference and its own enumerable properties in property order; an
    [Error] instance has its message but no enumerable property; an
    array has its items, and its [length] is no enumerable property. *)
#[warnings="-register-all"]
Inductive Value : Type :=
  | VUndefined
  | VNull
  | VBool (b : bool)
  | VNum (n : Z)
  | VNaN
  | VStr (s : string)
  | VFun (r : Ref)
  | VError (r : Ref) (msg : string)
  | VArr (r : Ref) (items : list Value)
  | VObj (r : Ref) (fields : list (string * Value)).

(** [typeof v] *)
Definition typeof (v : Value) : string :=
  match v with
  | VUndefined => "undefined"
  | VNull => "object"
  | VBool _ => "boolean"
  | VNum _ | VNaN => "number"
  | VStr _ => "string"
  | VFun _ => "function"
  | VError _ _ | VArr _ _ | VObj _ _ => "object"
  end.

(** [a === b]: primitives by value ([NaN] equals nothing), objects by
    reference. *)
Definition strict_eq (a b : Value) : bool :=
  match a, b with
  | VUndefined, VUndefined => true
  | VNull, VNull => true
  | VBool x, VBool y => bool_decide (x = y)
  | VNum x, VNum y => bool_decide (x = y)
  | VStr x, VStr y => bool_decide (x = y)
  | VFun r1, VFun r2 => bool_decide (r1 = r2)
  | VError r1 _, VError r2 _ => bool_decide (r1 = r2)
  | VArr r1 _, VArr r2 _ => bool_decide (r1 = r2)
  | VObj r1 _, VObj r2 _ => bool_decide (r1 = r2)
  | _, _ => false
  end.

(** Truthiness: [undefined], [null], [false], [0], [NaN] and the empty
    string are falsy. *)
Definition truthy (v : Value) : bool :=
  match v with
  | VUndefined | VNull | VNaN => false
  | VBool b => b
  | VNum n => negb (bool_decide (n = 0%Z))
  | VStr s => negb (bool_decide (s = ""))
  | VFun _ | VError _ _ | VArr _ _ | VObj _ _ => true
  end.

(** [a || b] and [a ?? b] on values. *)
Definition or_else (a b : Value) : Value := if truthy a then a else b.

Definition nullish (v : Value) : bool :=
  match v with VUndefined | VNull => true | _ => false end.

Definition coalesce (a b : Value) : Value := if nullish a then b else a.

(** Property lists. *)
Fixpoint obj_get (k : string) (fs : list (string * Value)) : option Value :=
  match fs with
  | [] => None
  | (k', v) :: fs' => if decide (k = k') then Some v else obj_get k fs'
  end.

(** [o[k] = v] on a property list: an existing property keeps its place,
    a new one goes last. *)
Fixpoint obj_set (k : string) (v : Value) (fs : list (string * Value))
  : list (string * Value) :=
  match fs with
  | [] => [(k, v)]
  | (k', v') :: fs' =>
      if decide (k = k') then (k, v) :: fs' else (k', v') :: obj_set k v fs'
  end.

(** Copying the properties [src] onto [target], in order: the effect of
    one [...src] in an object literal. *)
Definition assign (target src : list (string * Value)) : list (string * Value) :=
  foldl (λ acc kv, obj_set kv.1 kv.2 acc) target src.

(** The index keys ["0"], ["1"], ... of an array. *)
Definition indexed (items : list Value) : list (string * Value) :=
  imap (λ i v, (pretty i, v)) items.

(** Own enumerable string-keyed properties, as [Object.keys] lists them
    and as object spread copies them. *)
Definition own_entries (v : Value) : list (string * Value) :=
  match v with
  | VObj _ fs => fs
  | VArr _ items => indexed items
  | VStr s => indexed ((λ c, VStr (String c "")) <$> String.list_ascii_of_string s)
  | _ => []
  end.

Definition keys (v : Value) : list string := (own_entries v).*1.

Definition own (v : Value) (k : string) : option Value :=
  obj_get k (own_entries v).

(** The own properties that [Object.keys] does not list: [length] of an
    array and of a string, [message] of an [Error] made with one.  (The
    [stack] that some engines give an [Error] is left out; the
    comparisons embedded below ask an [Error] for no property, see
    [isEqual_Error].) *)
Definition hidden_entries (v : Value) : list (string * Value) :=
  match v with
  | VArr _ items => [("length", VNum (Z.of_nat (length items)))]
  | VStr s => [("length", VNum (Z.of_nat (String.length s)))]
  | VError _ msg => [("message", VStr msg)]
  | _ => []
  end.

(** An own property, enumerable or not. *)
Definition own_property (v : Value) (k : string) : option Value :=
  match own v k with
  | Some x => Some x
  | None => obj_get k (hidden_entries v)
  end.

(** [Object.prototype.hasOwnProperty.call(v, k)]: it sees the own
    properties that are not enumerable as well. *)
Definition hasOwnProperty (v : Value) (k : string) : bool :=
  bool_decide (is_Some (own_property v k)).

(** [v[k]] and [v.k], for the property names the client and the
    protocol read.  Reading a property of [undefined] or [null] throws a
    [TypeError] ([None]); a missing property reads as [undefined].  Of
    the properties that are not enumerable [message] of an [Error] is
    read here; [length], which only the comparisons read, is read
    through [own_property]. *)
Definition get (v : Value) (k : string) : option Value :=
  match v with
  | VUndefined | VNull => None
  | VError _ msg => Some (if decide (k = "message") then VStr msg else VUndefined)
  | _ => Some (default VUndefined (own v k))
  end.

(** [v?.k] *)
Definition get_opt (v : Value) (k : string) : Value :=
  if nullish v then VUndefined else default VUndefined (get v k).

(** Every object of a value has pairwise distinct property names, as
    every JavaScript object has. *)
Fixpoint wf (v : Value) : Prop :=
  match v with
  | VObj _ fs =>
      NoDup fs.*1 ∧
      (fix all (l : list (string * Value)) : Prop :=
         match l with [] => True | (_, x) :: l' => wf x ∧ all l' end) fs
  | VArr _ items =>
      (fix all (l : list Value) : Prop :=
         match l with [] => True | x :: l' => wf x ∧ all l' end) items
  | _ => True
  end.

(** [P] holds of a value and of every value inside it. *)
Fixpoint every (P : Value → Prop) (v : Value) : Prop :=
  P v ∧
  match v with
  | VObj _ fs =>
      (fix all (l : list (string * Value)) : Prop :=
         match l with [] => True | (_, x) :: l' => every P x ∧ all l' end) fs
  | VArr _ items =>
      (fix all (l : list Value) : Prop :=
         match l with [] => True | x :: l' => every P x ∧ all l' end) items
  | _ => True
  end.

(** No object of the value has a property named [length]. *)
Definition no_length_key : Value → Prop :=
  every (λ v, match v with VObj _ fs => "length" ∉ fs.*1 | _ => True end).

(** No [Error] instance is in the value. *)
Definition no_Error : Value → Prop :=
  every (λ v, match v with VError _ _ => False | _ => True end).

(** Induction on values, with the hypothesis for every component. *)
Section Value_induction.
Variable P : Value → Prop.
Hypothesis Hundef : P VUndefined.
Hypothesis Hnull : P VNull.
Hypothesis Hbool : ∀ b, P (VBool b).
Hypothesis Hnum : ∀ n, P (VNum n).
Hypothesis Hnan : P VNaN.
Hypothesis Hstr : ∀ s, P (VStr s).
Hypothesis Hfun : ∀ r, P (VFun r).
Hypothesis Herr : ∀ r msg, P (VError r msg).
Hypothesis Harr : ∀ r items, Forall P items → P (VArr r items).
Hypothesis Hobj : ∀ r fs, Forall (λ kv, P kv.2) fs → P (VObj r fs).

Fixpoint Value_components_ind (v : Value) : P v :=
  match v with
  | VUndefined => Hundef
  | VNull => Hnull
  | VBool b => Hbool b
  | VNum n => Hnum n
  | VNaN => Hnan
  | VStr s => Hstr s
  | VFun r => Hfun r
  | VError r msg => Herr r msg
  | VArr r items =>
      Harr r items
        ((fix go (l : list Value) : Forall P l :=
            match l with
            | [] => Forall_nil_2 P
            | x :: l' => Forall_cons_2 P x l' (Value_components_ind x) (go l')
            end) items)
  | VObj r fs =>
      Hobj r fs
        ((fix go (l : list (string * Value)) : Forall (λ kv, P kv.2) l :=
            match l with
            | [] => Forall_nil_2 _
            | kv :: l' =>
                Forall_cons_2 (λ kv, P kv.2) kv l' (Value_components_ind kv.2) (go l')
            end) fs)
  end.
End Value_induction.

End JS.

(* ===================================================================== *)
(** ** client/core/state.ts *)
(* ===================================================================== *)

Module State.
Import JS.

(** [initialState] *)
Definition initialState : Value :=
  VObj (RState 0)
    [ ("isAvailable", VBool false);
      ("isCasting", VBool false);
      ("isConnecting", VBool false);
      ("isScanning", VBool false);
      ("deviceName", VNull);
      ("deviceId", VNull);
      ("sessionId", VNull);
      ("devices", VArr (RState 1) []);
      ("error", VNull) ].

(** A selector function, with the identity the [selectors] map keys it
    by. *)
Record StateSelector : Type := {
  selector_id : nat;
  selector_fn : Value → Value;
}.

(** [SelectorState]: the cached value and the set of listeners, in
    insertion order.  A listener is known by its identity. *)
Record SelectorState : Type := {
  value : Value;
  sel_listeners : list nat;
}.

(** What a listener is called with.  Listeners are observers: the call
    is recorded and has no effect on the manager. *)
Inductive Call : Type :=
  | CallListener (listener : nat) (arg : Value)
  | CallSelected (selector listener : nat) (arg : Value).

(** [class StateManager<T>]: the three private fields, the allocation
    counter for the objects the manager creates, and the calls made to
    listeners so far (oldest first). *)
Record StateManager : Type := {
  state : Value;
  listeners : list nat;
  selectors : list (StateSelector * SelectorState);
  next_ref : nat;
  calls : list Call;
}.

(** The argument of [setState]: a partial state or an updater function. *)
Inductive Updater : Type :=
  | Partial (updates : Value)
  | UpdaterFn (f : Value → Value).

(** [{ ...a }] and [{ ...a, ...b }], allocated at reference [n]. *)
Definition spread1 (n : nat) (a : Value) : Value :=
  VObj (RState n) (assign [] (own_entries a)).

Definition spread2 (n : nat) (a b : Value) : Value :=
  VObj (RState n) (assign (assign [] (own_entries a)) (own_entries b)).

(** [constructor(initialState)], allocating from [n]. *)
Definition new_StateManager (n : nat) (initial : Value) : StateManager :=
  {| state := spread1 n initial; listeners := []; selectors := [];
     next_ref := S n; calls := [] |}.

(** [getState()]: a fresh copy, and the manager after the allocation. *)
Definition getState (m : StateManager) : Value * StateManager :=
  (spread1 (next_ref m) (state m),
   {| state := state m; listeners := listeners m; selectors := selectors m;
      next_ref := S (next_ref m); calls := calls m |}).

(** [isEqual(a, b)] *)
Fixpoint isEqual (a b : Value) {struct a} : bool :=
  if strict_eq a b then true
  else if strict_eq a VNull || strict_eq b VNull then false
  else if negb (bool_decide (typeof a = "object"))
          || negb (bool_decide (typeof b = "object")) then false
  else if negb (truthy a) || negb (truthy b) then false
  else if negb (bool_decide (length (keys a) = length (keys b))) then false
  else
    match a with
    | VObj _ fs =>
        (fix loop (l : list (string * Value)) : bool :=
           match l with
           | [] => true
           | (key, x) :: l' =>
               if negb (hasOwnProperty b key) then false
               else if negb (isEqual x (default VUndefined (own_property b key))) then false
               else loop l'
           end) fs
    | VArr _ items =>
        (fix loop (i : nat) (l : list Value) : bool :=
           match l with
           | [] => true
           | x :: l' =>
               if negb (hasOwnProperty b (pretty i)) then false
               else if negb (isEqual x (default VUndefined (own_property b (pretty i)))) then false
               else loop (S i) l'
           end) 0 items
    | _ => true
    end.

(** The body of the selector loop of [notifyListeners] for one entry:
    recompute, compare with the cached value, and on a difference store
    the new value and call every listener of the selector with it. *)
Definition notifySelector (st : Value) (e : StateSelector * SelectorState)
  : (StateSelector * SelectorState) * list Call :=
  let newValue := selector_fn e.1 st in
  if negb (isEqual (value e.2) newValue)
  then ((e.1, {| value := newValue; sel_listeners := sel_listeners e.2 |}),
        (λ l, CallSelected (selector_id e.1) l newValue) <$> sel_listeners e.2)
  else (e, []).

Fixpoint notifySelectors (st : Value) (es : list (StateSelector * SelectorState))
  : list (StateSelector * SelectorState) * list Call :=
  match es with
  | [] => ([], [])
  | e :: es' =>
      let '(e1, c1) := notifySelector st e in
      let '(es1, c2) := notifySelectors st es' in
      (e1 :: es1, c1 ++ c2)
  end.

(** The first loop of [notifyListeners]: every global listener gets a
    copy of its own from [getState()]. *)
Fixpoint notifyGlobal (ls : list nat) (m : StateManager) : StateManager :=
  match ls with
  | [] => m
  | l :: ls' =>
      let '(copy, m1) := getState m in
      notifyGlobal ls'
        {| state := state m1; listeners := listeners m1;
           selectors := selectors m1; next_ref := next_ref m1;
           calls := calls m1 ++ [CallListener l copy] |}
  end.

(** [notifyListeners()] *)
Definition notifyListeners (m : StateManager) : StateManager :=
  let m1 := notifyGlobal (listeners m) m in
  let '(sels, cs) := notifySelectors (state m1) (selectors m1) in
  {| state := state m1; listeners := listeners m1; selectors := sels;
     next_ref := next_ref m1; calls := calls m1 ++ cs |}.

(** The first statement of [setState]: the updates are the argument, or
    what the updater function makes of a copy of the state. *)
Definition compute_updates (updater : Updater) (m : StateManager)
  : Value * StateManager :=
  match updater with
  | UpdaterFn f => let '(copy, m1) := getState m in (f copy, m1)
  | Partial p => (p, m)
  end.

(** [setState(updater)] *)
Definition setState (updater : Updater) (m : StateManager) : StateManager :=
  let '(updates, m1) := compute_updates updater m in
  notifyListeners
    {| state := spread2 (next_ref m1) (state m1) updates;
       listeners := listeners m1; selectors := selectors m1;
       next_ref := S (next_ref m1); calls := calls m1 |}.

(** [Set.prototype.add] and [delete] on a set kept in insertion order. *)
Definition set_add (x : nat) (s : list nat) : list nat :=
  if bool_decide (x ∈ s) then s else s ++ [x].

Definition set_delete (x : nat) (s : list nat) : list nat :=
  filter (λ y, y ≠ x) s.

(** [subscribe(listener)] and the function it returns. *)
Definition subscribe (listener : nat) (m : StateManager) : StateManager :=
  {| state := state m; listeners := set_add listener (listeners m);
     selectors := selectors m; next_ref := next_ref m; calls := calls m |}.

Definition unsubscribe (listener : nat) (m : StateManager) : StateManager :=
  {| state := state m; listeners := set_delete listener (listeners m);
     selectors := selectors m; next_ref := next_ref m; calls := calls m |}.

(** [this.selectors.get(selector)] *)
Definition selectors_get (sel : StateSelector)
    (es : list (StateSelector * SelectorState)) : option SelectorState :=
  snd <$> (snd <$> list_find (λ e, selector_id e.1 = selector_id sel) es).

(** Adding a listener to the entry of [sel], which exists. *)
Definition selectors_listen (sel : StateSelector) (listener : nat)
    (es : list (StateSelector * SelectorState))
  : list (StateSelector * SelectorState) :=
  (λ e, if bool_decide (selector_id e.1 = selector_id sel)
        then (e.1, {| value := value e.2;
                      sel_listeners := set_add listener (sel_listeners e.2) |})
        else e) <$> es.

(** [select(selector, listener)] *)
Definition select (sel : StateSelector) (listener : nat) (m : StateManager)
  : StateManager :=
  let es :=
    match selectors_get sel (selectors m) with
    | Some _ => selectors m
    | None =>
        selectors m ++
          [(sel, {| value := selector_fn sel (state m); sel_listeners := [] |})]
    end in
  {| state := state m; listeners := listeners m;
     selectors := selectors_listen sel listener es;
     next_ref := next_ref m; calls := calls m |}.

(** The function [select] returns: drop the listener, and the entry with
    it once no listener is left. *)
Definition unselect (sel : StateSelector) (listener : nat) (m : StateManager)
  : StateManager :=
  {| state := state m; listeners := listeners m;
     selectors :=
       omap (λ e, if bool_decide (selector_id e.1 = selector_id sel)
                  then let ls := set_delete listener (sel_listeners e.2) in
                       if bool_decide (length ls = 0) then None
                       else Some (e.1, {| value := value e.2; sel_listeners := ls |})
                  else Some e) (selectors m);
     next_ref := next_ref m; calls := calls m |}.

(** [isEqual] with its loops written as one: for values that are not
    identical, both must be objects with as many keys, and every
    property of [a] must be a property of [b] with an equal value. *)
Definition same_properties (b : Value) (kx : string * Value) : bool :=
  hasOwnProperty b kx.1 && isEqual kx.2 (default VUndefined (own_property b kx.1)).

(** An object in the sense of [typeof], [null] apart. *)
Definition object_like (v : Value) : bool :=
  match v with VObj _ _ | VArr _ _ | VError _ _ => true | _ => false end.

(** A plain key-value mapping in the words of the specification: an
    object, or an array as the mapping of its indices. *)
Definition is_mapping (v : Value) : bool :=
  match v with VObj _ _ | VArr _ _ => true | _ => false end.

(** Structural equality, in the words of the specification: two values
    are equal if they are identical by reference or equal primitives, or
    if both are plain mappings with the same keys and pairwise equal
    values. *)
Inductive struct_eq : Value → Value → Prop :=
  | struct_eq_identical a b :
      strict_eq a b = true → struct_eq a b
  | struct_eq_mapping a b :
      is_mapping a = true → is_mapping b = true →
      (∀ k, is_Some (own a k) ↔ is_Some (own b k)) →
      (∀ k x y, own a k = Some x → own b k = Some y → struct_eq x y) →
      struct_eq a b.

(** What [isEqual] computes where no object has a property named
    [length]: [struct_eq] with the [Error] instances among the mappings,
    as mappings without keys. *)
Inductive alike : Value → Value → Prop :=
  | alike_identical a b :
      strict_eq a b = true → alike a b
  | alike_objects a b :
      object_like a = true → object_like b = true →
      (∀ k, is_Some (own a k) ↔ is_Some (own b k)) →
      (∀ k x y, own a k = Some x → own b k = Some y → alike x y) →
      alike a b.





(** Is [c] a call of the global listener [l]? *)
Definition hears (l : nat) (c : Call) : bool :=
  match c with
  | CallListener l' _ => bool_decide (l' = l)
  | CallSelected _ _ _ => false
  end.

(** How often the global listener [l] was called. *)
Definition global_calls (l : nat) (cs : list Call) : nat :=
  length (filter (λ c, hears l c = true) cs).

(** Every entry of the [selectors] map has a listener: [select] makes an
    entry with one, and the function it returns deletes the entry with
    its last. *)
Definition populated (m : StateManager) : Prop :=
  Forall (λ e, sel_listeners e.2 ≠ []) (selectors m).

End State.

(* ===================================================================== *)
(** ** react/context.tsx *)
(* ===================================================================== *)

Module Context.
Import JS.

(** [deepEqual(a, b)], the comparison of [useSelector]. *)
Fixpoint deepEqual (a b : Value) {struct a} : bool :=
  if strict_eq a b then true
  else if strict_eq a VNull || strict_eq b VNull then false
  else if negb (bool_decide (typeof a = "object"))
          || negb (bool_decide (typeof b = "object")) then false
  else if negb (bool_decide (length (keys a) = length (keys b))) then false
  else
    match a with
    | VObj _ fs =>
        (fix loop (l : list (string * Value)) : bool :=
           match l with
           | [] => true
           | (key, x) :: l' =>
               if negb (hasOwnProperty b key) then false
               else if negb (deepEqual x (default VUndefined (own_property b key))) then false
               else loop l'
           end) fs
    | VArr _ items =>
        (fix loop (i : nat) (l : list Value) : bool :=
           match l with
           | [] => true
           | x :: l' =>
               if negb (hasOwnProperty b (pretty i)) then false
               else if negb (deepEqual x (default VUndefined (own_property b (pretty i)))) then false
               else loop (S i) l'
           end) 0 items
    | _ => true
    end.

End Context.

(* ===================================================================== *)
(** ** client/bridge/protocol.ts *)
(* ===================================================================== *)

Module Protocol.
Import JS.

(** The zod schemas the protocol is written with.  [parse] below gives
    each combinator the meaning zod 3 gives it. *)
#[warnings="-register-all"]
Inductive Schema : Type :=
  | ZAny
  | ZString
  | ZNumber
  | ZBoolean
  | ZLiteral (lit : string)
  | ZEnum (values : list string)
  | ZOptional (inner : Schema)
  | ZNullable (inner : Schema)
  | ZArray (element : Schema)
  | ZRecord (valueType : Schema)
  | ZObject (shape : list (string * Schema))
  | ZUnion (options : list Schema).

(** [data.then && typeof data.then === "function" && data.catch &&
    typeof data.catch === "function"], by which zod tells a promise. *)
Definition is_promise (v : Value) : bool :=
  let method k :=
    let f := default VUndefined (get v k) in
    truthy f && bool_decide (typeof f = "function") in
  method "then" && method "catch".

(** zod's parsed type [object]: an object that is neither [null] nor an
    array, nor taken for a promise. *)
Definition is_object (v : Value) : bool :=
  match v with
  | VObj _ _ | VError _ _ => negb (is_promise v)
  | _ => false
  end.

(** [schema.safeParse(v).success].  An object schema reads every key of
    its shape from the input and ignores the keys it does not know. *)
Fixpoint parse (s : Schema) (v : Value) {struct s} : bool :=
  match s with
  | ZAny => true
  | ZString => match v with VStr _ => true | _ => false end
  | ZNumber => match v with VNum _ => true | _ => false end
  | ZBoolean => match v with VBool _ => true | _ => false end
  | ZLiteral lit => strict_eq v (VStr lit)
  | ZEnum values =>
      match v with VStr x => bool_decide (x ∈ values) | _ => false end
  | ZOptional inner =>
      match v with VUndefined => true | _ => parse inner v end
  | ZNullable inner =>
      match v with VNull => true | _ => parse inner v end
  | ZArray element =>
      match v with VArr _ items => forallb (parse element) items | _ => false end
  | ZRecord valueType =>
      is_object v && forallb (λ kv, parse valueType kv.2) (own_entries v)
  | ZObject shape =>
      is_object v &&
      (fix all (l : list (string * Schema)) : bool :=
         match l with
         | [] => true
         | (k, sk) :: l' => parse sk (default VUndefined (get v k)) && all l'
         end) shape
  | ZUnion options =>
      (fix any (l : list Schema) : bool :=
         match l with [] => false | o :: l' => parse o v || any l' end) options
  end.

(** [schema.extend(fields)]: the fields given replace those of the same
    name and the others are added. *)
Fixpoint shape_set (k : string) (s : Schema) (shape : list (string * Schema))
  : list (string * Schema) :=
  match shape with
  | [] => [(k, s)]
  | (k', s') :: shape' =>
      if decide (k = k') then (k, s) :: shape' else (k', s') :: shape_set k s shape'
  end.

Definition extend (base : Schema) (fields : list (string * Schema)) : Schema :=
  match base with
  | ZObject shape => ZObject (foldl (λ acc ks, shape_set ks.1 ks.2 acc) shape fields)
  | _ => base
  end.

Definition baseMessageSchema : Schema :=
  ZObject [ ("type", ZString);
            ("payload", ZRecord ZAny);
            ("requestId", ZOptional ZString) ].

Definition deviceSchema : Schema :=
  ZObject [ ("id", ZString); ("name", ZString); ("type", ZString);
            ("isConnected", ZBoolean) ].

Definition castReadySchema : Schema :=
  extend baseMessageSchema
    [ ("type", ZLiteral "CAST_READY");
      ("payload", ZObject [ ("gameId", ZString);
                            ("roomCode", ZOptional ZString);
                            ("broadcastUrl", ZOptional ZString);
                            ("capabilities", ZOptional (ZArray ZString)) ]) ].

Definition castInitializedSchema : Schema :=
  extend baseMessageSchema
    [ ("type", ZLiteral "CAST_INITIALIZED");
      ("payload", ZObject [ ("available", ZBoolean);
                            ("devices", ZOptional (ZArray deviceSchema)) ]) ].

Definition castScanDevicesSchema : Schema :=
  extend baseMessageSchema
    [ ("type", ZLiteral "CAST_SCAN_DEVICES"); ("payload", ZObject []) ].

Definition castDevicesUpdatedSchema : Schema :=
  extend baseMessageSchema
    [ ("type", ZLiteral "CAST_DEVICES_UPDATED");
      ("payload", ZObject [ ("devices", ZArray deviceSchema) ]) ].

Definition castStartSessionSchema : Schema :=
  extend baseMessageSchema
    [ ("type", ZLiteral "CAST_START_SESSION");
      ("payload", ZObject [ ("deviceId", ZString);
                            ("initialState", ZOptional (ZRecord ZAny)) ]) ].

Definition castSessionUpdatedSchema : Schema :=
  extend baseMessageSchema
    [ ("type", ZLiteral "CAST_SESSION_UPDATED");
      ("payload",
       ZObject [ ("status", ZEnum ["connecting"; "connected"; "terminated"; "error"]);
                 ("deviceId", ZString);
                 ("deviceName", ZString);
                 ("sessionId", ZString);
                 ("error", ZNullable ZAny) ]) ].

Definition castEndSessionSchema : Schema :=
  extend baseMessageSchema
    [ ("type", ZLiteral "CAST_END_SESSION"); ("payload", ZObject []) ].

Definition castStateUpdateSchema : Schema :=
  extend baseMessageSchema
    [ ("type", ZLiteral "CAST_STATE_UPDATE");
      ("payload", ZObject [ ("state", ZRecord ZAny);
                            ("timestamp", ZOptional ZNumber) ]) ].

Definition castStateConfirmedSchema : Schema :=
  extend baseMessageSchema
    [ ("type", ZLiteral "CAST_STATE_CONFIRMED");
      ("payload", ZObject [ ("status", ZString);
                            ("timestamp", ZOptional ZNumber) ]) ].

Definition castErrorSchema : Schema :=
  extend baseMessageSchema
    [ ("type", ZLiteral "CAST_ERROR");
      ("payload", ZObject [ ("code", ZString);
                            ("message", ZString);
                            ("details", ZOptional (ZRecord ZAny)) ]) ].

Definition messageSchema : Schema :=
  ZUnion [ castReadySchema; castInitializedSchema; castScanDevicesSchema;
           castDevicesUpdatedSchema; castStartSessionSchema;
           castSessionUpdatedSchema; castEndSessionSchema;
           castStateUpdateSchema; castStateConfirmedSchema; castErrorSchema ].

(** [validateMessage(message)] *)
Definition validateMessage (message : Value) : bool :=
  parse messageSchema message.

(** [BaseMessage], the type of the messages the web side builds. *)
Record BaseMessage : Type := {
  type : string;
  payload : Value;
  requestId : option string;
}.

(** [!message.requestId] *)
Definition no_requestId (message : BaseMessage) : bool :=
  match requestId message with
  | None => true
  | Some rid => bool_decide (rid = "")
  end.

(** [message.requestId] as a key, where it is a string. *)
Definition requestId_key (message : BaseMessage) : string :=
  default "" (requestId message).

(** [createMessage(message)].  [generated] is the string that
    [generateRequestId()], that is
    [Math.random().toString(36).substring(2, 15)], yields on this call; it
    is empty when the random number is [0]. *)
Definition createMessage (generated : string) (message : BaseMessage) : BaseMessage :=
  if no_requestId message
  then {| type := type message; payload := payload message;
          requestId := Some generated |}
  else message.

(** A [BaseMessage] as the object it is, at reference [r]: [requestId]
    is a property of it when it is given. *)
Definition message_object (r : Ref) (message : BaseMessage) : Value :=
  VObj r
    ([("type", VStr (type message)); ("payload", payload message)] ++
     match requestId message with
     | Some rid => [("requestId", VStr rid)]
     | None => []
     end).

(** The ten message types of the protocol. *)
Definition message_types : list string :=
  [ "CAST_READY"; "CAST_INITIALIZED"; "CAST_SCAN_DEVICES"; "CAST_DEVICES_UPDATED";
    "CAST_START_SESSION"; "CAST_SESSION_UPDATED"; "CAST_END_SESSION";
    "CAST_STATE_UPDATE"; "CAST_STATE_CONFIRMED"; "CAST_ERROR" ].

End Protocol.

(* ===================================================================== *)
(** ** The runtime the bridge runs on: promises, timers, [window] *)
(* ===================================================================== *)

Module Runtime.
Import JS Protocol.

Inductive PromiseState : Type :=
  | Pending
  | Fulfilled (v : Value)
  | Rejected (reason : Value).

(** What an [await] on a settled promise continues with. *)
Inductive Settlement : Type :=
  | Resolved (v : Value)
  | Failed (reason : Value).

Definition settlement (s : PromiseState) : option Settlement :=
  match s with
  | Pending => None
  | Fulfilled v => Some (Resolved v)
  | Rejected reason => Some (Failed reason)
  end.

(** The functions registered on [window]: the bridge's [handleMessage],
    the listener [CastKitClient.setupEventListeners] installs, and
    listeners of other code, which only observe. *)
Inductive Listener : Type :=
  | HandleMessage
  | ClientListener
  | Observer (id : nat).

Global Instance Listener_eq_dec : EqDecision Listener.
Proof. solve_decision. Defined.

(** The closure [sendMessageWithResponse] hands to [setTimeout]: it
    captures [message], [timeout] and [reject]. *)
Record TimerCallback : Type := {
  cb_message : BaseMessage;
  cb_timeout : Z;
  cb_reject : nat;
}.

(** [window] and the event loop's tables.  [posted] are the calls of
    [window.postMessage] (oldest first), [observed] what the observing
    listeners were called with. *)
Record Window : Type := {
  posted : list (BaseMessage * string);
  event_listeners : list (string * Listener);
  timers : gmap nat TimerCallback;
  next_timer : nat;
  promises : gmap nat PromiseState;
  next_promise : nat;
  observed : list (nat * Value);
}.

Definition empty_window : Window :=
  {| posted := []; event_listeners := []; timers := ∅; next_timer := 0;
     promises := ∅; next_promise := 0; observed := [] |}.

Definition with_promises (ps : gmap nat PromiseState) (w : Window) : Window :=
  {| posted := posted w; event_listeners := event_listeners w;
     timers := timers w; next_timer := next_timer w;
     promises := ps; next_promise := next_promise w; observed := observed w |}.

Definition with_timers (ts : gmap nat TimerCallback) (w : Window) : Window :=
  {| posted := posted w; event_listeners := event_listeners w;
     timers := ts; next_timer := next_timer w;
     promises := promises w; next_promise := next_promise w;
     observed := observed w |}.

Definition with_listeners (ls : list (string * Listener)) (w : Window) : Window :=
  {| posted := posted w; event_listeners := ls;
     timers := timers w; next_timer := next_timer w;
     promises := promises w; next_promise := next_promise w;
     observed := observed w |}.

(** [new Promise(...)]: a pending promise and its identity. *)
Definition new_promise (w : Window) : nat * Window :=
  (next_promise w,
   {| posted := posted w; event_listeners := event_listeners w;
      timers := timers w; next_timer := next_timer w;
      promises := <[next_promise w := Pending]> (promises w);
      next_promise := S (next_promise w); observed := observed w |}).

(** The [resolve] and [reject] functions of promise [p]: they settle a
    pending promise and do nothing to a settled one. *)
Definition settle (p : nat) (s : PromiseState) (w : Window) : Window :=
  match promises w !! p with
  | Some Pending => with_promises (<[p := s]> (promises w)) w
  | _ => w
  end.

Definition resolve (p : nat) (v : Value) : Window → Window :=
  settle p (Fulfilled v).

Definition reject (p : nat) (reason : Value) : Window → Window :=
  settle p (Rejected reason).

(** [setTimeout(callback, delay)] and [clearTimeout(timer)]. *)
Definition setTimeout (cb : TimerCallback) (w : Window) : nat * Window :=
  (next_timer w,
   {| posted := posted w; event_listeners := event_listeners w;
      timers := <[next_timer w := cb]> (timers w);
      next_timer := S (next_timer w);
      promises := promises w; next_promise := next_promise w;
      observed := observed w |}).

Definition clearTimeout (t : nat) (w : Window) : Window :=
  with_timers (delete t (timers w)) w.

(** [window.postMessage(message, targetOrigin)] *)
Definition postMessage (message : BaseMessage) (targetOrigin : string)
    (w : Window) : Window :=
  {| posted := posted w ++ [(message, targetOrigin)];
     event_listeners := event_listeners w;
     timers := timers w; next_timer := next_timer w;
     promises := promises w; next_promise := next_promise w;
     observed := observed w |}.

(** [window.addEventListener(type, listener)]: a listener already
    registered for the type is not registered again. *)
Definition addEventListener (type : string) (l : Listener) (w : Window) : Window :=
  if bool_decide ((type, l) ∈ event_listeners w) then w
  else with_listeners (event_listeners w ++ [(type, l)]) w.

Definition removeEventListener (type : string) (l : Listener) (w : Window) : Window :=
  with_listeners (filter (λ x, x ≠ (type, l)) (event_listeners w)) w.

(** An observing listener is called with the event data. *)
Definition observe (id : nat) (data : Value) (w : Window) : Window :=
  {| posted := posted w; event_listeners := event_listeners w;
     timers := timers w; next_timer := next_timer w;
     promises := promises w; next_promise := next_promise w;
     observed := observed w ++ [(id, data)] |}.

End Runtime.

(* ===================================================================== *)
(** ** client/bridge/webview-bridge.ts *)
(* ===================================================================== *)

Module Bridge.
Import JS Protocol Runtime.

Record WebViewBridgeOptions : Type := {
  targetOrigin : string;
  timeout : Z;
  debug : bool;
}.

Definition DEFAULT_OPTIONS : WebViewBridgeOptions :=
  {| targetOrigin := "*"; timeout := 5000; debug := false |}.

(** An entry of [pendingRequests]; [resolve] and [reject] are the
    functions of the promise named. *)
Record PendingRequest : Type := {
  pr_resolve : nat;
  pr_reject : nat;
  pr_timer : nat;
}.

(** [class WebViewBridge]: its two fields and the counter of the objects
    it allocates.  Output to the console is not modelled. *)
Record WebViewBridge : Type := {
  pendingRequests : gmap string PendingRequest;
  options : WebViewBridgeOptions;
  next_ref : nat;
}.

Definition with_pending (m : gmap string PendingRequest) (b : WebViewBridge)
  : WebViewBridge :=
  {| pendingRequests := m; options := options b; next_ref := next_ref b |}.

(** [new Error(msg)] allocated by the bridge. *)
Definition new_Error (msg : string) (b : WebViewBridge) : Value * WebViewBridge :=
  (VError (RBridge (next_ref b)) msg,
   {| pendingRequests := pendingRequests b; options := options b;
      next_ref := S (next_ref b) |}).

(** [setupMessageListener()] *)
Definition setupMessageListener (w : Window) : Window :=
  addEventListener "message" HandleMessage w.

(** [constructor(options)] *)
Definition new_WebViewBridge (opts : WebViewBridgeOptions) (w : Window)
  : WebViewBridge * Window :=
  ({| pendingRequests := ∅; options := opts; next_ref := 0 |},
   setupMessageListener w).

(** [sendMessage(message)] *)
Definition sendMessage (message : BaseMessage) (b : WebViewBridge) (w : Window)
  : Window :=
  postMessage message (targetOrigin (options b)) w.

Definition timeout_text (timeout : Z) (type : string) : string :=
  "Request timed out after " +:+ pretty timeout +:+ "ms: " +:+ type.

(** [sendMessageWithResponse(message, timeout)]: it throws ([inl]) or
    returns a promise ([inr]), whose executor has run. *)
Definition sendMessageWithResponse (message : BaseMessage) (timeout : Z)
    (b : WebViewBridge) (w : Window)
  : (Value + nat) * WebViewBridge * Window :=
  if no_requestId message then
    let '(err, b1) :=
      new_Error "Message must have a requestId for sendMessageWithResponse" b in
    (inl err, b1, w)
  else
    let '(p, w1) := new_promise w in
    let '(timer, w2) :=
      setTimeout {| cb_message := message; cb_timeout := timeout; cb_reject := p |} w1 in
    let '(b3, w3) :=
      if negb (no_requestId message) then
        (with_pending
           (<[requestId_key message :=
                {| pr_resolve := p; pr_reject := p; pr_timer := timer |}]>
              (pendingRequests b)) b, w2)
      else
        let '(err, b') := new_Error "Message missing requestId" b in
        (b', reject p err w2) in
    (inr p, b3, sendMessage message b3 w3).

(** The timer callback of [sendMessageWithResponse]. *)
Definition timer_callback (cb : TimerCallback) (b : WebViewBridge) (w : Window)
  : WebViewBridge * Window :=
  let b1 :=
    if negb (no_requestId (cb_message cb))
    then with_pending (delete (requestId_key (cb_message cb)) (pendingRequests b)) b
    else b in
  let '(err, b2) :=
    new_Error (timeout_text (cb_timeout cb) (type (cb_message cb))) b1 in
  (b2, reject (cb_reject cb) err w).

(** [message.requestId] of a validated inbound message, when it is
    truthy. *)
Definition inbound_requestId (message : Value) : option string :=
  match get message "requestId" with
  | Some (VStr rid) => if bool_decide (rid = "") then None else Some rid
  | _ => None
  end.

(** [message.payload || {}] *)
Definition payload_or_empty (message : Value) (b : WebViewBridge)
  : Value * WebViewBridge :=
  let payload := default VUndefined (get message "payload") in
  if truthy payload then (payload, b)
  else (VObj (RBridge (next_ref b)) [],
        {| pendingRequests := pendingRequests b; options := options b;
           next_ref := S (next_ref b) |}).

(** [handleMessage(event)], with [message = event.data]. *)
Definition handleMessage (message : Value) (b : WebViewBridge) (w : Window)
  : WebViewBridge * Window :=
  if negb (validateMessage message) then (b, w)
  else
    match inbound_requestId message with
    | Some rid =>
        match pendingRequests b !! rid with
        | Some pendingRequest =>
            let w1 := clearTimeout (pr_timer pendingRequest) w in
            let b1 := with_pending (delete rid (pendingRequests b)) b in
            let '(payload, b2) := payload_or_empty message b1 in
            (b2, resolve (pr_resolve pendingRequest) payload w1)
        | None => (b, w)
        end
    | None => (b, w)
    end.

(** [addEventListener] and [removeEventListener] of the bridge pass the
    listener to [window]. *)
Definition addEventListener (type : string) (l : Listener) (w : Window) : Window :=
  Runtime.addEventListener type l w.

Definition removeEventListener (type : string) (l : Listener) (w : Window) : Window :=
  Runtime.removeEventListener type l w.

(** [dispose()] *)
Definition dispose (b : WebViewBridge) (w : Window) : WebViewBridge * Window :=
  let w1 := Runtime.removeEventListener "message" HandleMessage w in
  let '(b2, w2) :=
    foldl (λ bw (kv : string * PendingRequest),
             let '(err, b') := new_Error "Bridge disposed" bw.1 in
             (b', reject (pr_reject kv.2) err (clearTimeout (pr_timer kv.2) bw.2)))
          (b, w1) (map_to_list (pendingRequests b)) in
  (with_pending ∅ b2, w2).

(** The payload a consumed response resolves its request with. *)
Definition response_payload (data : Value) (b : WebViewBridge) : Value :=
  (payload_or_empty data b).1.

(** The error a request is rejected with when its timer fires. *)
Definition timeout_error (cb : TimerCallback) (b : WebViewBridge) : Value :=
  VError (RBridge (Bridge.next_ref b))
    (timeout_text (cb_timeout cb) (type (cb_message cb))).

(** A settled promise in [w] is the same promise in [w']. *)
Definition keeps_settled (w w' : Window) : Prop :=
  ∀ p s, promises w !! p = Some s → s ≠ Pending → promises w' !! p = Some s.

(** What holds of the bridge's tables at every turn: promises and timers
    are numbered below the counters; a live timer belongs to a pending
    promise and to a message with an identifier; no two timers belong to
    one promise; the timer of a pending request is live and is the timer
    of that request. *)
Record bridge_inv (b : WebViewBridge) (w : Window) : Prop := {
  inv_promises : ∀ p, is_Some (promises w !! p) → (p < next_promise w)%nat;
  inv_timers : ∀ t cb, timers w !! t = Some cb →
    (t < next_timer w)%nat ∧ promises w !! cb_reject cb = Some Pending ∧
    no_requestId (cb_message cb) = false;
  inv_timers_inj : ∀ t1 t2 cb1 cb2,
    timers w !! t1 = Some cb1 → timers w !! t2 = Some cb2 →
    cb_reject cb1 = cb_reject cb2 → t1 = t2;
  inv_pending : ∀ rid e, pendingRequests b !! rid = Some e →
    ∃ cb, timers w !! pr_timer e = Some cb ∧ cb_reject cb = pr_resolve e ∧
          pr_reject e = pr_resolve e ∧ requestId (cb_message cb) = Some rid;
}.

End Bridge.

(* ===================================================================== *)
(** ** client/core/client.ts *)
(* ===================================================================== *)

Module Client.
Import JS Protocol Runtime Bridge.

Record CastClientOptions : Type := { debug : bool }.

Definition DEFAULT_OPTIONS : CastClientOptions := {| debug := false |}.

Record LogEntry : Type := {
  timestamp : Z;
  log_type : string;
  log_message : string;
  data : Value;
}.

(** [class CastKitClient]: its four fields and the counter of the
    objects it allocates. *)
Record CastKitClient : Type := {
  bridge : WebViewBridge;
  stateManager : State.StateManager;
  logs : list LogEntry;
  options : CastClientOptions;
  next_ref : nat;
}.

Definition with_bridge (b : WebViewBridge) (c : CastKitClient) : CastKitClient :=
  {| bridge := b; stateManager := stateManager c; logs := logs c;
     options := options c; next_ref := next_ref c |}.

Definition with_stateManager (m : State.StateManager) (c : CastKitClient)
  : CastKitClient :=
  {| bridge := bridge c; stateManager := m; logs := logs c;
     options := options c; next_ref := next_ref c |}.

(** An object literal [{ k1: v1, ... }] evaluated by the client. *)
Definition object (fields : list (string * Value)) (c : CastKitClient)
  : Value * CastKitClient :=
  (VObj (RClient (next_ref c)) (assign [] fields),
   {| bridge := bridge c; stateManager := stateManager c; logs := logs c;
      options := options c; next_ref := S (next_ref c) |}).

(** An array literal [[]]. *)
Definition empty_array (c : CastKitClient) : Value * CastKitClient :=
  (VArr (RClient (next_ref c)) [],
   {| bridge := bridge c; stateManager := stateManager c; logs := logs c;
      options := options c; next_ref := S (next_ref c) |}).

(** [v || []] and [v || {}] *)
Definition or_array (v : Value) (c : CastKitClient) : Value * CastKitClient :=
  if truthy v then (v, c) else empty_array c.

Definition or_object (v : Value) (c : CastKitClient) : Value * CastKitClient :=
  if truthy v then (v, c) else object [] c.

(** An [Error] the client or the runtime raises while client code runs. *)
Definition new_Error (msg : string) (c : CastKitClient) : Value * CastKitClient :=
  (VError (RClient (next_ref c)) msg,
   {| bridge := bridge c; stateManager := stateManager c; logs := logs c;
      options := options c; next_ref := S (next_ref c) |}).

(** [log(type, message, data)]; [now] is [Date.now()]. *)
Definition log (now : Z) (type message : string) (d : Value) (c : CastKitClient)
  : CastKitClient :=
  {| bridge := bridge c; stateManager := stateManager c;
     logs := logs c ++ [{| timestamp := now; log_type := type;
                           log_message := message; data := d |}];
     options := options c; next_ref := next_ref c |}.

(** [this.stateManager.setState({ ...fields })] *)
Definition setState (fields : list (string * Value)) (c : CastKitClient)
  : CastKitClient :=
  let '(updates, c1) := object fields c in
  with_stateManager (State.setState (State.Partial updates) (stateManager c1)) c1.

(** [this.stateManager.getState()] *)
Definition getState (c : CastKitClient) : Value * CastKitClient :=
  let '(copy, m) := State.getState (stateManager c) in
  (copy, with_stateManager m c).

(** [this.getState().k] *)
Definition read (k : string) (c : CastKitClient) : Value :=
  default VUndefined (get (getState c).1 k).

(** [resetError()] *)
Definition resetError (c : CastKitClient) : CastKitClient :=
  setState [("error", VNull)] c.

(** [handleError(message, error)] *)
Definition handleError (now : Z) (message : string) (error : Value)
    (c : CastKitClient) : CastKitClient :=
  let c1 := log now "error" message error c in
  let '(details, c2) := object [("originalError", error)] c1 in
  let '(castError, c3) :=
    object [("code", VStr "BRIDGE_ERROR"); ("message", VStr message);
            ("details", details)] c2 in
  setState [("error", castError)] c3.

(** How far an [async] method got: it completed, or it waits for a
    promise inside its [try] block. *)
Inductive Completion : Type :=
  | Return
  | Throw (error : Value).

Inductive Progress : Type :=
  | Done (r : Completion)
  | Await (p : nat).

(** [await this.bridge.sendMessageWithResponse(message)] up to the point
    where the method is suspended.  A synchronous throw of the bridge
    lands in the [catch] block of the method, which [failed] is. *)
Definition send (message : BaseMessage)
    (failed : Value → CastKitClient → CastKitClient)
    (c : CastKitClient) (w : Window) : Progress * CastKitClient * Window :=
  let '(r, b, w1) :=
    sendMessageWithResponse message (timeout (Bridge.options (bridge c)))
      (bridge c) w in
  match r with
  | inl error => (Done (Throw error), failed error (with_bridge b c), w1)
  | inr p => (Await p, with_bridge b c, w1)
  end.

(** The parameters of [signalReady]. *)
Record SignalReadyParams : Type := {
  gameId : Value;
  roomCode : Value;
  broadcastUrl : Value;
  capabilities : Value;
}.

Definition params_value (params : SignalReadyParams) : list (string * Value) :=
  [ ("gameId", gameId params); ("roomCode", roomCode params);
    ("broadcastUrl", broadcastUrl params);
    ("capabilities", capabilities params) ].

(** *** signalReady *)

Definition signalReady_catch (now : Z) (error : Value) : CastKitClient → CastKitClient :=
  handleError now "Failed to signal readiness" error.

Definition signalReady_call (now : Z) (generated : string)
    (params : SignalReadyParams) (c : CastKitClient) (w : Window)
  : Progress * CastKitClient * Window :=
  let '(logged, c0) := object (params_value params) c in
  let c1 := log now "info" "Signaling ready to cast" logged c0 in
  let '(payload, c2) := object (params_value params) c1 in
  let message :=
    createMessage generated
      {| type := "CAST_READY"; payload := payload; requestId := None |} in
  send message (signalReady_catch now) c2 w.

Definition signalReady_resume (now : Z) (settled : Settlement)
    (c : CastKitClient) : Completion * CastKitClient :=
  match settled with
  | Failed error => (Throw error, signalReady_catch now error c)
  | Resolved response =>
      match get response "payload" with
      | None =>
          let '(error, c1) := new_Error "TypeError" c in
          (Throw error, signalReady_catch now error c1)
      | Some responsePayload =>
          let '(logged, c1) :=
            object [("available", get_opt responsePayload "available")] c in
          let c2 := log now "info" "Cast availability" logged c1 in
          let '(devices, c3) := or_array (get_opt responsePayload "devices") c2 in
          (Return,
           setState
             [ ("isAvailable",
                coalesce (get_opt responsePayload "available") (VBool false));
               ("devices", devices) ]
             c3)
      end
  end.

(** *** scanForDevices *)

Definition scanForDevices_catch (now : Z) (error : Value)
    (c : CastKitClient) : CastKitClient :=
  handleError now "Failed to scan for devices" error
    (setState [("isScanning", VBool false)] c).

(** The statements before the [try] block. *)
Definition scanForDevices_begin (now : Z) (c : CastKitClient) : CastKitClient :=
  setState [("isScanning", VBool true)]
    (log now "info" "Scanning for cast devices" VUndefined c).

Definition scanForDevices_call (now : Z) (generated : string)
    (c : CastKitClient) (w : Window) : Progress * CastKitClient * Window :=
  let c1 := scanForDevices_begin now c in
  let '(payload, c2) := object [] c1 in
  let message :=
    createMessage generated
      {| type := "CAST_SCAN_DEVICES"; payload := payload; requestId := None |} in
  send message (scanForDevices_catch now) c2 w.

Definition scanForDevices_resume (now : Z) (settled : Settlement)
    (c : CastKitClient) : Completion * CastKitClient :=
  match settled with
  | Failed error => (Throw error, scanForDevices_catch now error c)
  | Resolved _ => (Return, c)
  end.

(** *** startCasting *)

(** [CastOptions] *)
Record CastOptions : Type := { initialState : Value }.

Definition startCasting_catch (now : Z) (error : Value)
    (c : CastKitClient) : CastKitClient :=
  handleError now "Failed to start casting" error
    (setState [("isConnecting", VBool false); ("deviceId", VNull)] c).

Definition startCasting_begin (now : Z) (deviceId : string)
    (opts : CastOptions) (c : CastKitClient) : CastKitClient :=
  let '(optionsValue, c0) := object [("initialState", initialState opts)] c in
  let '(logged, c1) :=
    object [("deviceId", VStr deviceId); ("options", optionsValue)] c0 in
  setState [("isConnecting", VBool true); ("deviceId", VStr deviceId)]
    (log now "info" "Starting cast session" logged c1).

Definition startCasting_call (now : Z) (generated : string) (deviceId : string)
    (opts : CastOptions) (c : CastKitClient) (w : Window)
  : Progress * CastKitClient * Window :=
  let c1 := startCasting_begin now deviceId opts c in
  let '(initial, c2) := or_object (initialState opts) c1 in
  let '(payload, c3) :=
    object [("deviceId", VStr deviceId); ("initialState", initial)] c2 in
  let message :=
    createMessage generated
      {| type := "CAST_START_SESSION"; payload := payload; requestId := None |} in
  send message (startCasting_catch now) c3 w.

Definition startCasting_resume (now : Z) (settled : Settlement)
    (c : CastKitClient) : Completion * CastKitClient :=
  match settled with
  | Failed error => (Throw error, startCasting_catch now error c)
  | Resolved _ => (Return, c)
  end.

(** *** stopCasting *)

Definition stopCasting_catch (now : Z) (error : Value) : CastKitClient → CastKitClient :=
  handleError now "Failed to stop casting" error.

Definition stopCasting_call (now : Z) (generated : string)
    (c : CastKitClient) (w : Window) : Progress * CastKitClient * Window :=
  let '(snapshot, c1) := getState c in
  let sessionId := default VUndefined (get snapshot "sessionId") in
  if negb (truthy sessionId) then
    (Done Return, log now "warn" "No active cast session to stop" VUndefined c1, w)
  else
    let '(logged, c2) := object [("sessionId", sessionId)] c1 in
    let c3 := log now "info" "Stopping cast session" logged c2 in
    let '(payload, c4) := object [] c3 in
    let message :=
      createMessage generated
        {| type := "CAST_END_SESSION"; payload := payload; requestId := None |} in
    send message (stopCasting_catch now) c4 w.

Definition stopCasting_resume (now : Z) (settled : Settlement)
    (c : CastKitClient) : Completion * CastKitClient :=
  match settled with
  | Failed error => (Throw error, stopCasting_catch now error c)
  | Resolved _ =>
      (Return,
       setState [ ("isCasting", VBool false); ("isConnecting", VBool false);
                  ("deviceId", VNull); ("deviceName", VNull);
                  ("sessionId", VNull) ] c)
  end.

(** *** sendStateUpdate *)

Definition sendStateUpdate_catch (now : Z) (error : Value) : CastKitClient → CastKitClient :=
  handleError now "Failed to send state update" error.

Definition sendStateUpdate_call (now : Z) (generated : string)
    (st : Value) (c : CastKitClient) (w : Window)
  : Progress * CastKitClient * Window :=
  let '(snapshot, c1) := getState c in
  let sessionId := default VUndefined (get snapshot "sessionId") in
  if negb (truthy sessionId) then
    let c2 := log now "warn" "No active cast session to update" VUndefined c1 in
    let '(error, c3) := new_Error "No active cast session" c2 in
    (Done (Throw error), c3, w)
  else
    let '(logged, c2) := object [("sessionId", sessionId)] c1 in
    let c3 := log now "info" "Sending state update" logged c2 in
    let '(payload, c4) := object [("state", st); ("timestamp", VNum now)] c3 in
    let message :=
      createMessage generated
        {| type := "CAST_STATE_UPDATE"; payload := payload; requestId := None |} in
    send message (sendStateUpdate_catch now) c4 w.

Definition sendStateUpdate_resume (now : Z) (settled : Settlement)
    (c : CastKitClient) : Completion * CastKitClient :=
  match settled with
  | Failed error => (Throw error, sendStateUpdate_catch now error c)
  | Resolved _ => (Return, c)
  end.

(** *** setupEventListeners *)

(** The listener installed on the bridge, applied to [event.data].  An
    exception raised inside it ends the listener; what it had done by
    then stays. *)
Definition onMessage (now : Z) (message : Value) (c : CastKitClient)
  : CastKitClient :=
  if negb (truthy message) then c
  else
    let type := default VUndefined (get message "type") in
    if negb (truthy type) then c
    else
      let payload := default VUndefined (get message "payload") in
      if strict_eq type (VStr "CAST_DEVICES_UPDATED") then
        let c1 := log now "info" "Devices updated" payload c in
        match get payload "devices" with
        | None => c1
        | Some devices =>
            let '(devices', c2) := or_array devices c1 in
            setState [("isScanning", VBool false); ("devices", devices')] c2
        end
      else if strict_eq type (VStr "CAST_SESSION_UPDATED") then
        let c1 := log now "info" "Session updated" payload c in
        match get payload "status" with
        | None => c1
        | Some status =>
            let field k := default VUndefined (get payload k) in
            if strict_eq status (VStr "connected") then
              setState [ ("isConnecting", VBool false);
                         ("isCasting", VBool true);
                         ("deviceId", field "deviceId");
                         ("deviceName", field "deviceName");
                         ("sessionId", field "sessionId") ] c1
            else if strict_eq status (VStr "terminated") then
              setState [ ("isCasting", VBool false);
                         ("isConnecting", VBool false);
                         ("deviceId", VNull);
                         ("deviceName", VNull);
                         ("sessionId", VNull) ] c1
            else if strict_eq status (VStr "error") then
              let '(error, c2) :=
                object [ ("code", VStr "SESSION_ERROR");
                         ("message", or_else (field "error") (VStr "Session error")) ]
                  c1 in
              setState [ ("isCasting", VBool false);
                         ("isConnecting", VBool false);
                         ("deviceId", VNull);
                         ("deviceName", VNull);
                         ("sessionId", VNull);
                         ("error", error) ] c2
            else c1
        end
      else if strict_eq type (VStr "CAST_ERROR") then
        let c1 := log now "error" "Error from cast service" payload c in
        match get payload "code" with
        | None => c1
        | Some code =>
            let field k := default VUndefined (get payload k) in
            let '(error, c2) :=
              object [ ("code", code); ("message", field "message");
                       ("details", field "details") ] c1 in
            setState [("error", error)] c2
        end
      else c.

Definition setupEventListeners (w : Window) : Window :=
  Bridge.addEventListener "message" ClientListener w.

(** [s.includes(sub)] *)
Fixpoint includes (sub s : string) : bool :=
  String.prefix sub s ||
  match s with
  | EmptyString => false
  | String _ s' => includes sub s'
  end.

(** [isInOpenGameApp()]; [userAgent] is [navigator.userAgent] where
    [navigator] is defined. *)
Definition isInOpenGameApp (userAgent : option string) : bool :=
  match userAgent with
  | None => false
  | Some ua => includes "OpenGame/" ua
  end.

(** [constructor(options)] *)
Definition new_CastKitClient (now : Z) (userAgent : option string)
    (opts : CastClientOptions) (w : Window) : CastKitClient * Window :=
  let '(b, w1) :=
    new_WebViewBridge
      {| targetOrigin := targetOrigin Bridge.DEFAULT_OPTIONS;
         timeout := timeout Bridge.DEFAULT_OPTIONS;
         Bridge.debug := debug opts |} w in
  let c :=
    {| bridge := b;
       stateManager := State.new_StateManager 2 State.initialState;
       logs := []; options := opts; next_ref := 0 |} in
  let w2 := setupEventListeners w1 in
  let '(optionsValue, c1) := object [("debug", VBool (debug opts))] c in
  let '(logged, c2) :=
    object [ ("options", optionsValue);
             ("isInOpenGameApp", VBool (isInOpenGameApp userAgent)) ] c1 in
  (log now "info" "CastKitClient initialized" logged c2, w2).

(** [isCasting && isConnecting] is falsy. *)
Definition exclusive (c : CastKitClient) : Prop :=
  truthy (read "isCasting" c) && truthy (read "isConnecting" c) = false.

(** [getLogs()]: a copy of the log. *)
Definition getLogs (c : CastKitClient) : list LogEntry := logs c.

End Client.

(* ===================================================================== *)
(** ** The event loop: calls, inbound messages, timers, continuations *)
(* ===================================================================== *)

Module Loop.
Import JS Protocol Runtime Bridge Client.

(** The [async] methods of the client. *)
Inductive Method : Type :=
  | SignalReady
  | ScanForDevices
  | StartCasting
  | StopCasting
  | SendStateUpdate.

(** A call suspended at its [await]: the promise awaited, the method to
    continue, and the number of the promise the call returned. *)
Record Task : Type := {
  awaited : nat;
  method : Method;
  future : nat;
}.

(** The page: [window], the client, the suspended calls, and the
    promises the calls of the [async] methods returned, in call order. *)
Record World : Type := {
  window : Window;
  client : CastKitClient;
  suspended : list Task;
  returned : list PromiseState;
}.

(** One turn of the event loop. *)
Inductive Action : Type :=
  | CallSignalReady (generated : string) (params : SignalReadyParams)
  | CallScanForDevices (generated : string)
  | CallStartCasting (generated : string) (deviceId : string) (opts : CastOptions)
  | CallStopCasting (generated : string)
  | CallSendStateUpdate (generated : string) (st : Value)
  | CallResetError
  | CallSubscribe (listener : nat)
  | CallAddEventListener (type : string) (observer : nat)
  | Message (data : Value)
  | Timer (t : nat)
  | Resume (p : nat).

(** The page after [createCastClient(options)]. *)
Definition boot (now : Z) (userAgent : option string) (opts : CastClientOptions)
  : World :=
  let '(c, w) := new_CastKitClient now userAgent opts empty_window in
  {| window := w; client := c; suspended := []; returned := [] |}.

(** The promise an [async] method returns once its body has completed. *)
Definition completed (r : Completion) : PromiseState :=
  match r with
  | Return => Fulfilled VUndefined
  | Throw error => Rejected error
  end.

(** Calling an [async] method: the body runs to its first [await] or to
    its end, and the caller gets a promise. *)
Definition call (m : Method)
    (body : CastKitClient → Window → Progress * CastKitClient * Window)
    (x : World) : World :=
  let '(progress, c1, w1) := body (client x) (window x) in
  match progress with
  | Done r =>
      {| window := w1; client := c1; suspended := suspended x;
         returned := returned x ++ [completed r] |}
  | Await p =>
      {| window := w1; client := c1;
         suspended := suspended x ++
           [{| awaited := p; method := m; future := length (returned x) |}];
         returned := returned x ++ [Pending] |}
  end.

Definition resume_method (now : Z) (m : Method)
  : Settlement → CastKitClient → Completion * CastKitClient :=
  match m with
  | SignalReady => signalReady_resume now
  | ScanForDevices => scanForDevices_resume now
  | StartCasting => startCasting_resume now
  | StopCasting => stopCasting_resume now
  | SendStateUpdate => sendStateUpdate_resume now
  end.

(** Continuing the call that awaits [p], once [p] is settled. *)
Definition resume (now : Z) (p : nat) (x : World) : option World :=
  '(i, task) ← list_find (λ t, awaited t = p) (suspended x);
  s ← promises (window x) !! p ≫= settlement;
  let '(r, c1) := resume_method now (method task) s (client x) in
  Some {| window := window x; client := c1;
          suspended := delete i (suspended x);
          returned := <[future task := completed r]> (returned x) |}.

(** One listener of [window] called with a message event. *)
Definition deliver (now : Z) (data : Value) (x : World) (l : Listener) : World :=
  match l with
  | HandleMessage =>
      let '(b, w) := handleMessage data (bridge (client x)) (window x) in
      {| window := w; client := with_bridge b (client x);
         suspended := suspended x; returned := returned x |}
  | ClientListener =>
      {| window := window x; client := onMessage now data (client x);
         suspended := suspended x; returned := returned x |}
  | Observer id =>
      {| window := observe id data (window x); client := client x;
         suspended := suspended x; returned := returned x |}
  end.

(** The listeners registered for an event type, in registration order. *)
Definition listeners_for (type : string) (w : Window) : list Listener :=
  (filter (λ tl, tl.1 = type) (event_listeners w)).*2.

(** A message event on [window]: every listener registered for
    ["message"] is called with it. *)
Definition dispatch (now : Z) (data : Value) (x : World) : World :=
  foldl (deliver now data) x (listeners_for "message" (window x)).

(** A timer set by the bridge fires. *)
Definition fire (t : nat) (x : World) : option World :=
  cb ← timers (window x) !! t;
  let '(b, w) :=
    timer_callback cb (bridge (client x)) (clearTimeout t (window x)) in
  Some {| window := w; client := with_bridge b (client x);
          suspended := suspended x; returned := returned x |}.

Definition step (now : Z) (a : Action) (x : World) : option World :=
  match a with
  | CallSignalReady g params =>
      Some (call SignalReady (signalReady_call now g params) x)
  | CallScanForDevices g =>
      Some (call ScanForDevices (scanForDevices_call now g) x)
  | CallStartCasting g deviceId opts =>
      Some (call StartCasting (startCasting_call now g deviceId opts) x)
  | CallStopCasting g =>
      Some (call StopCasting (stopCasting_call now g) x)
  | CallSendStateUpdate g st =>
      Some (call SendStateUpdate (sendStateUpdate_call now g st) x)
  | CallResetError =>
      Some {| window := window x; client := resetError (client x);
              suspended := suspended x; returned := returned x |}
  | CallSubscribe l =>
      Some {| window := window x;
              client := with_stateManager
                          (State.subscribe l (stateManager (client x))) (client x);
              suspended := suspended x; returned := returned x |}
  | CallAddEventListener type o =>
      Some {| window := Bridge.addEventListener type (Observer o) (window x);
              client := client x; suspended := suspended x;
              returned := returned x |}
  | Message data => Some (dispatch now data x)
  | Timer t => fire t x
  | Resume p => resume now p x
  end.

(** A run: the turns taken, each with the time it is taken at. *)
Fixpoint run (turns : list (Z * Action)) (x : World) : option World :=
  match turns with
  | [] => Some x
  | (now, a) :: rest => step now a x ≫= run rest
  end.

(** Reading the client's state. *)
Definition field (k : string) (x : World) : Value := read k (client x).

(** No call is waiting for a response. *)
Definition settled (x : World) : Prop := suspended x = [].

(** [devices.find(d => d.id === id)] *)
Definition find_device (id : string) (devices : Value) : option Value :=
  match devices with
  | VArr _ items =>
      snd <$> list_find (λ d, strict_eq (default VUndefined (get d "id")) (VStr id) = true) items
  | _ => None
  end.

(** The pages a freshly created client can get to. *)
Definition reachable (x : World) : Prop :=
  ∃ now userAgent opts turns, run turns (boot now userAgent opts) = Some x.

(** A turn that does not start a cast while one is active. *)
Definition allowed (a : Action) (x : World) : Prop :=
  match a with
  | CallStartCasting _ _ _ => truthy (field "isCasting" x) = false
  | _ => True
  end.

(** Every turn of the run is allowed where it is taken. *)
Fixpoint disciplined (turns : list (Z * Action)) (x : World) : Prop :=
  match turns with
  | [] => True
  | (now, a) :: rest =>
      allowed a x ∧
      match step now a x with
      | Some x' => disciplined rest x'
      | None => True
      end
  end.

(** The bridge's tables are consistent, and [window] has the bridge's
    listener first, the client's second, and observers after them. *)
Definition world_inv (x : World) : Prop :=
  bridge_inv (bridge (client x)) (window x) ∧
  ∃ os, listeners_for "message" (window x) =
          HandleMessage :: ClientListener :: (Observer <$> os).

(** What a turn may do to [window]: settled promises stay as they are,
    and listeners are neither removed nor reordered. *)
Definition window_grows (w w' : Window) : Prop :=
  keeps_settled w w' ∧ event_listeners w' = event_listeners w ∧
  observed w' = observed w.

(** A method body that reaches the bridge only through
    [sendMessageWithResponse]. *)
Definition sends_only
    (body : CastKitClient → Window → Progress * CastKitClient * Window) : Prop :=
  ∀ c w, bridge_inv (bridge c) w →
    bridge_inv (bridge (body c w).1.2) (body c w).2 ∧ window_grows w (body c w).2.

(** Every pending promise has a live timer that rejects it, and every
    suspended call awaits a promise of the page. *)
Definition guarded (x : World) : Prop :=
  (∀ p, promises (window x) !! p = Some Pending →
     ∃ t cb, timers (window x) !! t = Some cb ∧ cb_reject cb = p) ∧
  (∀ task, task ∈ suspended x → is_Some (promises (window x) !! awaited task)).

(** What a method body may do to the timers and the promises: it keeps
    them, and a promise it makes is new and has a timer. *)
Definition registers (w w' : Window) (r : Progress) : Prop :=
  (∀ t cb, timers w !! t = Some cb → timers w' !! t = Some cb) ∧
  (∀ q, is_Some (promises w !! q) → is_Some (promises w' !! q)) ∧
  (∀ q, promises w' !! q = Some Pending →
     promises w !! q = Some Pending ∨
     ∃ t cb, timers w' !! t = Some cb ∧ cb_reject cb = q) ∧
  (∀ p, r = Await p → promises w !! p = None ∧ is_Some (promises w' !! p)).

(** Every suspended call has returned a promise, which is pending, and
    no two suspended calls have returned one promise or await one
    promise. *)
Definition accounted (x : World) : Prop :=
  Forall (λ task, returned x !! future task = Some Pending) (suspended x) ∧
  NoDup (future <$> suspended x) ∧
  NoDup (awaited <$> suspended x).

(** A [CAST_SESSION_UPDATED] message event with status [connected]. *)
Definition connects (a : Action) : Prop :=
  ∃ data payload,
    a = Message data ∧
    get data "type" = Some (VStr "CAST_SESSION_UPDATED") ∧
    get data "payload" = Some payload ∧
    get payload "status" = Some (VStr "connected").

(** A turn the page takes by itself: a timer fires or a call continues. *)
Definition internal (a : Action) : Prop :=
  match a with
  | Timer _ | Resume _ => True
  | _ => False
  end.

End Loop.

(* ===================================================================== *)
(** ** Scenarios *)
(* ===================================================================== *)

Module Scenario.
Import JS Protocol Runtime Bridge Client Loop.

Definition page : World := boot 0 None Client.DEFAULT_OPTIONS.

(** The page after the turns given (the page itself if a turn cannot be
    taken). *)
Definition after (turns : list (Z * Action)) : World :=
  default page (run turns page).

Definition no_options : CastOptions := {| initialState := VUndefined |}.

(** The host answers a request by a message of the request's type that
    carries the request's identifier.  [n] numbers the objects of the
    message. *)
Definition answer (n : nat) (type : string) (fields : list (string * Value))
    (rid : string) : Value :=
  VObj (RExt n)
    [ ("type", VStr type); ("payload", VObj (RExt (n + 1)) fields);
      ("requestId", VStr rid) ].

Definition scan_answer (n : nat) : string → Value :=
  answer n "CAST_SCAN_DEVICES" [].

Definition start_answer (n : nat) (deviceId : string) : string → Value :=
  answer n "CAST_START_SESSION" [("deviceId", VStr deviceId)].

Definition end_answer (n : nat) : string → Value :=
  answer n "CAST_END_SESSION" [].

(** [CAST_SESSION_UPDATED] with the status given. *)
Definition session_event (n : nat) (status deviceId deviceName sessionId : string)
  : Value :=
  VObj (RExt n)
    [ ("type", VStr "CAST_SESSION_UPDATED");
      ("payload",
       VObj (RExt (n + 1))
         [ ("status", VStr status); ("deviceId", VStr deviceId);
           ("deviceName", VStr deviceName); ("sessionId", VStr sessionId);
           ("error", VNull) ]) ].

(** [CAST_DEVICES_UPDATED] with one device. *)
Definition devices_event (n : nat) (id name : string) (isConnected : bool) : Value :=
  VObj (RExt n)
    [ ("type", VStr "CAST_DEVICES_UPDATED");
      ("payload",
       VObj (RExt (n + 1))
         [ ("devices",
            VArr (RExt (n + 2))
              [ VObj (RExt (n + 3))
                  [ ("id", VStr id); ("name", VStr name);
                    ("type", VStr "chromecast");
                    ("isConnected", VBool isConnected) ] ]) ]) ].

(** A cast is started and confirmed, then a second cast is started and
    acknowledged, and no event follows. *)
Definition second_start : list (Z * Action) :=
  [ (1, CallStartCasting "r1" "tv-1" no_options);
    (2, Message (session_event 0 "connected" "tv-1" "TV" "s-1"));
    (3, Message (start_answer 2 "tv-1" "r1"));
    (4, Resume 0);
    (5, CallStartCasting "r2" "tv-2" no_options);
    (6, Message (start_answer 4 "tv-2" "r2"));
    (7, Resume 1) ]%Z.

(** The device list arrives with the device connected, the session is
    confirmed ... *)
Definition casting : list (Z * Action) :=
  [ (1, Message (devices_event 0 "tv-1" "TV" true));
    (2, Message (session_event 4 "connected" "tv-1" "TV" "s-1")) ]%Z.

(** ... and the cast is stopped and the stop acknowledged. *)
Definition stop_acknowledged : list (Z * Action) :=
  [ (3, CallStopCasting "r1");
    (4, Message (end_answer 6 "r1"));
    (5, Resume 0) ]%Z.

(** A scan is requested and acknowledged, and no event follows. *)
Definition scan_acknowledged : list (Z * Action) :=
  [ (1, CallScanForDevices "r1");
    (2, Message (scan_answer 0 "r1"));
    (3, Resume 0) ]%Z.

(** A cast is started and no answer comes before the timer fires. *)
Definition start_timed_out : list (Z * Action) :=
  [ (1, CallStartCasting "r1" "tv-1" no_options);
    (2, Timer 0) ]%Z.

(** A cast is started; the host confirms the session and does not
    answer the request, whose timer fires; the call continues. *)
Definition start_connected_timed_out : list (Z * Action) :=
  [ (1, CallStartCasting "r1" "tv-1" no_options);
    (2, Message (session_event 0 "connected" "tv-1" "TV" "s-1"));
    (3, Timer 0);
    (4, Resume 0) ]%Z.

(** A cast is started and confirmed. *)
Definition first_start : list (Z * Action) := take 4 second_start.

(** A cast is being stopped, and the stop has been acknowledged. *)
Definition stop_answered : list (Z * Action) :=
  casting ++ take 2 stop_acknowledged.

(** A cast is started. *)
Definition start_requested : list (Z * Action) :=
  [ (1, CallStartCasting "r1" "tv-1" no_options) ]%Z.

(** A selector of the [isCasting] flag, with one listener. *)
Definition isCasting_selector : State.StateSelector :=
  {| State.selector_id := 1;
     State.selector_fn := λ st, default VUndefined (get st "isCasting") |}.

Definition watched : State.StateManager :=
  State.select isCasting_selector 5 (State.new_StateManager 2 State.initialState).


Definition casting_update : State.Updater :=
  State.Partial (VObj (RExt 3) [("isCasting", VBool true)]).

(** The error object that [handleError] stores for a failed scan. *)
Definition bridge_error (n : nat) (failure : Value) : Value :=
  VObj (RExt n)
    [ ("code", VStr "BRIDGE_ERROR"); ("message", VStr "Failed to scan for devices");
      ("details", VObj (RExt (n + 1)) [("originalError", failure)]) ].

Definition first_failure : Value :=
  bridge_error 0 (VError (RExt 2) "Request timed out after 5000ms: CAST_SCAN_DEVICES").


(** A selector of the [error] field, with one listener, while the first
    failure is in the state; then the second failure is stored. *)
Definition error_selector : State.StateSelector :=
  {| State.selector_id := 2;
     State.selector_fn := λ st, default VUndefined (get st "error") |}.

Definition failed : State.StateManager :=
  State.select error_selector 5
    (State.setState (State.Partial (VObj (RExt 6) [("error", first_failure)]))
       (State.new_StateManager 2 State.initialState)).






(** A request is waiting for its answer. *)
Definition scan_requested : list (Z * Action) :=
  [ (1, CallAddEventListener "message" 7);
    (2, CallScanForDevices "r1") ]%Z.

(** A scan is requested and no answer comes before the timer fires. *)
Definition scan_timed_out : list (Z * Action) :=
  [ (1, CallScanForDevices "r1");
    (2, Timer 0) ]%Z.

(** The game signals that it is ready ... *)
Definition ready : SignalReadyParams :=
  {| gameId := VStr "trivia"; roomCode := VStr "ABCD"; broadcastUrl := VUndefined;
     capabilities := VUndefined |}.

Definition signal_requested : list (Z * Action) :=
  [ (1, CallSignalReady "r1" ready) ]%Z.

(** ... and the host answers that casting is available, with one
    device. *)
Definition initialized (n : nat) (rid : option string) : Value :=
  VObj (RExt n)
    ([ ("type", VStr "CAST_INITIALIZED");
       ("payload",
        VObj (RExt (n + 1))
          [ ("available", VBool true);
            ("devices",
             VArr (RExt (n + 2))
               [ VObj (RExt (n + 3))
                   [ ("id", VStr "tv-1"); ("name", VStr "TV");
                     ("type", VStr "chromecast");
                     ("isConnected", VBool false) ] ]) ]) ] ++
     match rid with Some rid => [("requestId", VStr rid)] | None => [] end).

Definition signal_answered : list (Z * Action) :=
  signal_requested ++ [ (2%Z, Message (initialized 0 (Some "r1"))) ].

(** A [connected] event that names the session and nothing else. *)
Definition bare_connected : Value :=
  VObj (RExt 0)
    [ ("type", VStr "CAST_SESSION_UPDATED");
      ("payload",
       VObj (RExt 1) [("status", VStr "connected"); ("sessionId", VStr "s-1")]) ].

(** [CAST_ERROR] *)
Definition error_event (n : nat) (code message : string) : Value :=
  VObj (RExt n)
    [ ("type", VStr "CAST_ERROR");
      ("payload",
       VObj (RExt (n + 1)) [("code", VStr code); ("message", VStr message)]) ].

(** A manager with two subscribers. *)
Definition subscribed : State.StateManager :=
  State.subscribe 7 (State.subscribe 3 (State.new_StateManager 2 State.initialState)).

(** Two requests with one identifier. *)
Definition first_request : BaseMessage :=
  {| type := "CAST_SCAN_DEVICES"; payload := VObj (RExt 0) []; requestId := Some "r1" |}.

Definition second_request : BaseMessage :=
  {| type := "CAST_END_SESSION"; payload := VObj (RExt 1) []; requestId := Some "r1" |}.

Definition fresh_bridge : WebViewBridge :=
  (new_WebViewBridge Bridge.DEFAULT_OPTIONS empty_window).1.

End Scenario.

(* ===================================================================== *)
(** * Properties of the state manager *)
(* ===================================================================== *)

Section StateManager_properties.
Import JS State Scenario.

Section property_lists.
Implicit Types (k : string) (v : Value) (fs : list (string * Value)).

Lemma obj_get_None k fs : obj_get k fs = None ↔ k ∉ fs.*1.
Proof.
  induction fs as [|[k' v'] fs' IH]; csimpl.
  - split; [intros _; apply not_elem_of_nil | done].
  - rewrite not_elem_of_cons. case_decide as Hk.
    + split; [done | intros [? _]; done].
    + rewrite IH. split; [auto | by intros [_ ?]].
Qed.

Lemma obj_get_Some_elem k v fs : obj_get k fs = Some v → (k, v) ∈ fs.
Proof.
  induction fs as [|[k' v'] fs IH]; simpl; [done|].
  case_decide; subst.
  - intros [= ->]. left.
  - intros. right. auto.
Qed.

Lemma obj_get_elem k v fs : NoDup fs.*1 → (k, v) ∈ fs → obj_get k fs = Some v.
Proof.
  induction fs as [|[k' v'] fs IH]; simpl; intros Hnd Hin.
  - by apply elem_of_nil in Hin.
  - apply NoDup_cons in Hnd as [Hk' Hnd].
    apply elem_of_cons in Hin as [[= -> ->]|Hin].
    + by rewrite decide_True.
    + rewrite decide_False; [auto|].
      intros ->. apply Hk'. apply (list_elem_of_fmap_2 fst) in Hin. done.
Qed.

Lemma obj_get_obj_set k k' v fs :
  obj_get k (obj_set k' v fs) = if decide (k = k') then Some v else obj_get k fs.
Proof.
  induction fs as [|[k1 v1] fs IH]; simpl.
  - done.
  - destruct (decide (k' = k1)) as [->|Hne]; simpl.
    + destruct (decide (k = k1)); done.
    + rewrite IH. destruct (decide (k = k1)) as [->|]; [|done].
      by rewrite decide_False.
Qed.

Lemma obj_set_keys k v fs :
  (obj_set k v fs).*1 = if bool_decide (k ∈ fs.*1) then fs.*1 else fs.*1 ++ [k].
Proof.
  induction fs as [|[k1 v1] fs IH]; csimpl; [done|].
  destruct (decide (k = k1)) as [->|Hne]; csimpl.
  - rewrite bool_decide_true; [done | left].
  - rewrite IH. destruct (bool_decide_reflect (k ∈ fs.*1)).
    + rewrite bool_decide_true; [done | by right].
    + rewrite bool_decide_false; [done|]. rewrite not_elem_of_cons. done.
Qed.

Lemma obj_set_NoDup k v fs : NoDup fs.*1 → NoDup (obj_set k v fs).*1.
Proof.
  intros Hnd. rewrite obj_set_keys. case_bool_decide as Hin; [done|].
  apply NoDup_app. split_and!; [done| |apply NoDup_singleton].
  intros x Hx ->%list_elem_of_singleton. done.
Qed.

Lemma assign_NoDup fs src : NoDup fs.*1 → NoDup (assign fs src).*1.
Proof.
  revert fs. unfold assign.
  induction src as [|[k v] src IH]; intros fs Hnd; simpl; [done|].
  apply IH. by apply obj_set_NoDup.
Qed.

(** Reading a property after a spread: the last source wins. *)
Lemma obj_get_assign k fs src :
  NoDup src.*1 →
  obj_get k (assign fs src) =
    match obj_get k src with Some v => Some v | None => obj_get k fs end.
Proof.
  revert fs. unfold assign.
  induction src as [|[k1 v1] src IH]; intros fs Hnd; csimpl in *; [done|].
  apply NoDup_cons in Hnd as [Hk1 Hnd].
  rewrite IH by done. rewrite obj_get_obj_set.
  destruct (decide (k = k1)) as [->|]; [|done].
  apply obj_get_None in Hk1. by rewrite Hk1.
Qed.

Lemma obj_get_assign_nil k fs : NoDup fs.*1 → obj_get k (assign [] fs) = obj_get k fs.
Proof. intros Hnd. rewrite obj_get_assign by done. by destruct (obj_get k fs). Qed.

Lemma indexed_keys_from (items : list Value) n :
  (imap (λ i x, (pretty (n + i), x)) items).*1 = pretty <$> seq n (length items).
Proof.
  revert n. induction items as [|x items IH]; intros n; simpl; [done|].
  rewrite Nat.add_0_r. f_equal.
  rewrite <- IH. f_equal. apply imap_ext. intros i y _. simpl.
  by rewrite Nat.add_succ_r.
Qed.

Lemma indexed_NoDup (items : list Value) : NoDup (indexed items).*1.
Proof.
  unfold indexed.
  change (imap _ items) with (imap (λ i x, (pretty (0 + i), x)) items).
  rewrite (indexed_keys_from items 0).
  apply (NoDup_fmap_2 _). apply NoDup_seq.
Qed.

Lemma own_entries_NoDup v : wf v → NoDup (keys v).
Proof.
  unfold keys. intros Hwf.
  destruct v; cbn [own_entries]; try apply indexed_NoDup;
    try (csimpl; apply NoDup_nil_2).
  by destruct Hwf.
Qed.

End property_lists.

(** ** The equality of the specification *)

Lemma wf_obj r fs : wf (VObj r fs) ↔ NoDup fs.*1 ∧ Forall (λ kv, wf kv.2) fs.
Proof.
  simpl. apply and_iff_compat_l.
  induction fs as [|[k x] fs' IH]; simpl.
  - split; [intros _; constructor | done].
  - rewrite Forall_cons. by rewrite IH.
Qed.

Lemma wf_arr r items : wf (VArr r items) ↔ Forall wf items.
Proof.
  simpl. induction items as [|x l IH]; simpl.
  - split; [intros _; constructor | done].
  - rewrite Forall_cons. by rewrite IH.
Qed.

Lemma indexed_elem (items : list Value) k x n :
  (k, x) ∈ imap (λ i y, (pretty (n + i), y)) items → x ∈ items.
Proof.
  revert n. induction items as [|y l IH]; intros n; simpl.
  - by intros ?%elem_of_nil.
  - intros [[= _ ->]|Hin]%elem_of_cons; [left|right].
    apply (IH (S n)). erewrite imap_ext; [exact Hin|].
    intros i z _. simpl. by rewrite Nat.add_succ_r.
Qed.

Lemma wf_own v k x : wf v → own v k = Some x → wf x.
Proof.
  unfold own. intros Hwf Hk%obj_get_Some_elem.
  destruct v; cbn [own_entries] in Hk; try by apply elem_of_nil in Hk.
  - apply (indexed_elem _ _ _ 0) in Hk.
    apply list_elem_of_fmap in Hk as (c & -> & _). done.
  - apply (indexed_elem _ _ _ 0) in Hk.
    apply wf_arr in Hwf. by eapply (proj1 (Forall_forall _ _) Hwf).
  - apply wf_obj in Hwf as [_ Hall].
    by apply (proj1 (Forall_forall _ _) Hall (k, x)).
Qed.

Lemma own_elem v k x : wf v → (k, x) ∈ own_entries v → own v k = Some x.
Proof. intros Hwf Hin. apply obj_get_elem; [by apply own_entries_NoDup | done]. Qed.

Lemma own_is_Some v k : is_Some (own v k) ↔ k ∈ keys v.
Proof.
  unfold own, keys. rewrite <- not_eq_None_Some, obj_get_None.
  split; [apply dec_stable | auto].
Qed.

Lemma every_obj P r fs :
  every P (VObj r fs) ↔ P (VObj r fs) ∧ Forall (λ kv, every P kv.2) fs.
Proof.
  cbn [every]. apply and_iff_compat_l.
  induction fs as [|[k x] fs' IH]; simpl.
  - split; [intros _; constructor | done].
  - rewrite Forall_cons. by rewrite IH.
Qed.

Lemma every_arr P r items :
  every P (VArr r items) ↔ P (VArr r items) ∧ Forall (every P) items.
Proof.
  cbn [every]. apply and_iff_compat_l.
  induction items as [|x l IH]; simpl.
  - split; [intros _; constructor | done].
  - rewrite Forall_cons. by rewrite IH.
Qed.

(** What holds of every value inside an object holds of its properties. *)
Lemma every_own P v k x :
  object_like v = true → every P v → own v k = Some x → every P x.
Proof.
  unfold own. intros Hv Hall Hk%obj_get_Some_elem.
  destruct v; try done; cbn [own_entries] in Hk.
  - by apply elem_of_nil in Hk.
  - apply (indexed_elem _ _ _ 0) in Hk.
    apply every_arr in Hall as [_ Hall]. by eapply (proj1 (Forall_forall _ _) Hall).
  - apply every_obj in Hall as [_ Hall].
    by apply (proj1 (Forall_forall _ _) Hall (k, x)).
Qed.

(** The decimal numerals do not begin with a letter. *)
Lemma pretty_N_go_head x s :
  (∀ s', s ≠ "l" +:+ s') → ∀ s', pretty_N_go x s ≠ "l" +:+ s'.
Proof.
  revert s. induction (N.lt_wf_0 x) as [x _ IH]; intros s Hs.
  assert (x = 0 ∨ 0 < x)%N as [->|?] by lia.
  - by rewrite pretty_N_go_0.
  - rewrite pretty_N_go_step by done. apply IH.
    { by apply N.div_lt. }
    intros s'. unfold pretty_N_char. by repeat case_match.
Qed.

Lemma pretty_nat_not_length (i : nat) : pretty i ≠ "length".
Proof.
  unfold pretty, pretty_nat, pretty, pretty_N. case_decide; [done|].
  by apply pretty_N_go_head.
Qed.

Lemma indexed_not_length (items : list Value) : "length" ∉ (indexed items).*1.
Proof.
  unfold indexed.
  change (imap _ items) with (imap (λ i x, (pretty (0 + i), x)) items).
  rewrite (indexed_keys_from items 0).
  intros (i & Hi & _)%list_elem_of_fmap. by apply (pretty_nat_not_length i).
Qed.

(** Where no object has a property named [length], no value has an
    enumerable one. *)
Lemma no_length_keys v : no_length_key v → "length" ∉ keys v.
Proof.
  unfold keys. intros Hv.
  destruct v; cbn [own_entries]; try apply indexed_not_length;
    try (csimpl; apply not_elem_of_nil).
  by destruct Hv.
Qed.

Lemma own_property_own v k x : own v k = Some x → own_property v k = Some x.
Proof. unfold own_property. by intros ->. Qed.

(** The properties that are not enumerable are [length] and [message]. *)
Lemma own_property_hidden v k x :
  own_property v k = Some x → own v k = None →
  (k = "length" ∧ ∃ r items, v = VArr r items) ∨ typeof v ≠ "object" ∨
  ∃ r msg, v = VError r msg.
Proof.
  unfold own_property. intros Hp Hnone. rewrite Hnone in Hp.
  destruct v; cbn in Hp; try done.
  - by right; left.
  - right; right. eauto.
  - case_decide; [|done]. left. eauto.
Qed.

Lemma isEqual_unfold a b :
  isEqual a b =
    strict_eq a b ||
    (object_like a && object_like b &&
     bool_decide (length (keys a) = length (keys b)) &&
     forallb (same_properties b) (own_entries a)).
Proof.
  assert (Hb : strict_eq b VNull = false → typeof b = "object" → object_like b = true).
  { by destruct b. }
  assert (Htb : object_like b = true → truthy b = true).
  { by destruct b. }
  destruct a; cbn [isEqual];
    (destruct (strict_eq _ b) eqn:Hs; [done|]); cbn [orb object_like andb];
    try done.
  all: try (cbn; destruct b; done).
  - (* Error *)
    destruct b; try done; cbn; try by case_bool_decide.
    all: rewrite bool_decide_true by done; cbn; by case_bool_decide.
  - (* Array *)
    cbn [strict_eq orb typeof truthy negb].
    destruct (strict_eq b VNull) eqn:Hn; [by destruct b|].
    rewrite bool_decide_true by done. cbn [negb orb].
    destruct (bool_decide (typeof b = "object")) eqn:Ht; cbn [negb];
      [|destruct b; done].
    apply bool_decide_eq_true in Ht. rewrite (Hb eq_refl Ht), (Htb (Hb eq_refl Ht)).
    cbn [negb andb object_like].
    destruct (bool_decide (length (keys (VArr r items)) = length (keys b))); cbn [negb andb]; [|done].
    cbn [own_entries]. unfold indexed.
    change (imap _ items) with (imap (λ i x, (pretty (0 + i), x)) items).
    clear Hs. generalize 0 as n. induction items as [|x l IH]; intros n; [done|].
    cbn [imap forallb]. unfold same_properties at 1. cbn [fst snd].
    rewrite Nat.add_0_r.
    destruct (hasOwnProperty b (pretty n)); cbn [negb andb]; [|done].
    destruct (isEqual x _); cbn [negb andb]; [|done].
    rewrite IH. f_equal. apply imap_ext. intros i y _. cbn. by rewrite Nat.add_succ_r.
  - (* Object *)
    cbn [strict_eq orb typeof truthy negb].
    destruct (strict_eq b VNull) eqn:Hn; [by destruct b|].
    rewrite bool_decide_true by done. cbn [negb orb].
    destruct (bool_decide (typeof b = "object")) eqn:Ht; cbn [negb];
      [|destruct b; done].
    apply bool_decide_eq_true in Ht. rewrite (Hb eq_refl Ht), (Htb (Hb eq_refl Ht)).
    cbn [negb andb object_like].
    destruct (bool_decide (length (keys (VObj r fields)) = length (keys b))); cbn [negb andb]; [|done].
    cbn [own_entries].
    clear Hs. induction fields as [|[k x] l IH]; [done|].
    cbn [forallb]. unfold same_properties at 1. cbn [fst snd].
    destruct (hasOwnProperty b k); cbn [negb andb]; [|done].
    destruct (isEqual x _); cbn [negb andb]; done.
Qed.

(** [isEqual] asks an [Error] for no property: an [Error] equals itself
    and every object without enumerable properties. *)
Lemma isEqual_Error a r msg :
  isEqual a (VError r msg) =
    strict_eq a (VError r msg) || (object_like a && bool_decide (keys a = [])).
Proof.
  rewrite isEqual_unfold. f_equal. cbn [object_like keys own_entries fmap list_fmap length].
  rewrite andb_true_r. destruct (object_like a); [|done]. cbn [andb].
  destruct (own_entries a) as [|kx l] eqn:Ha; unfold keys; rewrite Ha; [done|].
  repeat case_bool_decide; simplify_eq/=; done.
Qed.

Lemma same_keys_length a b :
  wf a → (∀ k, k ∈ keys a → k ∈ keys b) → (length (keys b) ≤ length (keys a))%nat →
  keys a ≡ₚ keys b.
Proof.
  intros Hwf Hsub Hlen.
  apply submseteq_length_Permutation; [|done].
  apply NoDup_submseteq; [by apply own_entries_NoDup | done].
Qed.

Lemma forallb_same_properties b l :
  forallb (same_properties b) l = true ↔
  ∀ k x, (k, x) ∈ l →
    is_Some (own_property b k) ∧
    isEqual x (default VUndefined (own_property b k)) = true.
Proof.
  induction l as [|[k0 x0] l IH]; cbn [forallb].
  - split; [by intros _ ?? ?%elem_of_nil | done].
  - rewrite andb_true_iff, IH. unfold same_properties at 1, hasOwnProperty.
    cbn [fst snd]. rewrite andb_true_iff, bool_decide_eq_true.
    split.
    + intros [H0 H] k x [[= -> ->]|Hin]%elem_of_cons; auto.
    + intros H. split; [apply H; left | intros k x Hin; apply H; by right].
Qed.

(** A property [b] is asked for by [isEqual] is an enumerable one, unless
    the object on the left has a property named [length]. *)
Lemma own_property_visible a b k x :
  object_like b = true → length (keys a) = length (keys b) →
  (k, x) ∈ own_entries a → "length" ∉ keys a →
  is_Some (own_property b k) → own_property b k = own b k ∧ is_Some (own b k).
Proof.
  intros Hb Hlen Hin Hno [y Hy].
  destruct (own b k) as [z|] eqn:Hz.
  { split; [by apply own_property_own | by eexists]. }
  exfalso.
  destruct (own_property_hidden b k y Hy Hz) as [[-> _]|[Ht|(r & msg & ->)]].
  - apply Hno. by apply (list_elem_of_fmap_2 fst _ ("length", x)).
  - by destruct b.
  - unfold keys in Hlen. cbn in Hlen.
    destruct (own_entries a); [by apply elem_of_nil in Hin | done].
Qed.

Lemma isEqual_alike a :
  ∀ b, wf a → wf b → no_length_key a → isEqual a b = true → alike a b.
Proof.
  assert (Hstep : ∀ a, (∀ k x, (k, x) ∈ own_entries a →
                          ∀ b, wf x → wf b → no_length_key x →
                               isEqual x b = true → alike x b) →
            ∀ b, wf a → wf b → no_length_key a → isEqual a b = true → alike a b).
  { clear a. intros a IH b Hwa Hwb Hna. rewrite isEqual_unfold.
    intros [Hs|H]%orb_true_iff; [by apply alike_identical|].
    apply andb_true_iff in H as [H Hall].
    apply andb_true_iff in H as [H Hlen].
    apply andb_true_iff in H as [Hma Hmb].
    apply bool_decide_eq_true in Hlen.
    rewrite forallb_same_properties in Hall.
    pose proof (no_length_keys a Hna) as Hno.
    assert (Hvis : ∀ k x, (k, x) ∈ own_entries a →
              is_Some (own b k) ∧ isEqual x (default VUndefined (own b k)) = true).
    { intros k x Hin. destruct (Hall k x Hin) as [Hsome Heq].
      destruct (own_property_visible a b k x Hmb Hlen Hin Hno Hsome) as [Hown ?].
      by rewrite Hown in Heq. }
    assert (Hsub : ∀ k, k ∈ keys a → k ∈ keys b).
    { intros k Hk. apply own_is_Some in Hk as [x Hx].
      apply obj_get_Some_elem in Hx. apply own_is_Some. by apply (Hvis k x). }
    pose proof (same_keys_length a b Hwa Hsub ltac:(lia)) as Hperm.
    apply alike_objects; [done|done| |].
    - intros k. rewrite !own_is_Some. by rewrite Hperm.
    - intros k x y Hx Hy.
      pose proof (obj_get_Some_elem _ _ _ Hx) as Hin.
      destruct (Hvis _ _ Hin) as [_ Heq]. rewrite Hy in Heq. cbn in Heq.
      apply (IH k x Hin);
        [exact (wf_own a k x Hwa Hx) | exact (wf_own b k y Hwb Hy)
        | exact (every_own _ a k x Hma Hna Hx) | done]. }
  induction a using Value_components_ind; apply Hstep; cbn [own_entries];
    try (by intros ?? ?%elem_of_nil).
  - (* the characters of a string are primitives *)
    intros k x Hin%(indexed_elem _ _ _ 0).
    apply list_elem_of_fmap in Hin as (c & -> & _).
    intros b _ _ _. rewrite isEqual_unfold, orb_false_r. apply alike_identical.
  - intros k x Hin%(indexed_elem _ _ _ 0).
    by apply (proj1 (Forall_forall _ _) H).
  - intros k x Hin. by apply (proj1 (Forall_forall _ _) H (k, x)).
Qed.

Lemma alike_isEqual a b : alike a b → wf a → wf b → isEqual a b = true.
Proof.
  induction 1 as [a b Hs|a b Hma Hmb Hkeys Hvals IH]; intros Hwa Hwb;
    rewrite isEqual_unfold; [by rewrite Hs|].
  apply orb_true_iff. right. rewrite Hma, Hmb. cbn [andb].
  apply andb_true_iff. split.
  - apply bool_decide_eq_true. apply Permutation_length.
    apply NoDup_Permutation; [by apply own_entries_NoDup..|].
    intros k. by rewrite <- !own_is_Some.
  - apply forallb_same_properties. intros k x Hin.
    apply (own_elem _ _ _ Hwa) in Hin.
    destruct (proj1 (Hkeys k)) as [y Hy]; [by eexists|].
    rewrite (own_property_own b k y Hy).
    split; [by eexists|]. cbn.
    apply (IH k x y); [done | done | exact (wf_own a k x Hwa Hin) | exact (wf_own b k y Hwb Hy)].
Qed.


(** The equality of the specification is the relation of the code
    between values without [Error] instances. *)
Lemma struct_eq_alike a b : struct_eq a b → alike a b.
Proof.
  induction 1 as [a b Hs|a b Hma Hmb Hkeys Hvals IH].
  - by apply alike_identical.
  - apply alike_objects; [by destruct a | by destruct b | done | done].
Qed.

Lemma alike_struct_eq a b : alike a b → no_Error a → no_Error b → struct_eq a b.
Proof.
  induction 1 as [a b Hs|a b Hma Hmb Hkeys Hvals IH]; intros Ha Hb.
  - by apply struct_eq_identical.
  - apply struct_eq_mapping; [|  |done|].
    + destruct a; try done. by destruct Ha.
    + destruct b; try done. by destruct Hb.
    + intros k x y Hx Hy.
      apply (IH k x y Hx Hy);
        [exact (every_own _ a k x Hma Ha Hx) | exact (every_own _ b k y Hmb Hb Hy)].
Qed.

Lemma isEqual_struct_eq a b :
  wf a → wf b → no_length_key a → no_Error a → no_Error b →
  isEqual a b = true → struct_eq a b.
Proof.
  intros Hwa Hwb Hna Hea Heb Heq.
  apply alike_struct_eq; [|done..]. by apply isEqual_alike.
Qed.

Lemma struct_eq_isEqual a b : struct_eq a b → wf a → wf b → isEqual a b = true.
Proof. intros H%struct_eq_alike. by apply alike_isEqual. Qed.

(** [isEqual] decides the structural equality of the specification on
    values without [Error] instances and without properties named
    [length]. *)
Lemma isEqual_spec a b :
  wf a → wf b → no_length_key a → no_Error a → no_Error b →
  isEqual a b = true ↔ struct_eq a b.
Proof.
  intros Ha Hb Hna Hea Heb.
  split; [by apply isEqual_struct_eq | intros; by apply struct_eq_isEqual].
Qed.

(** ** The state manager *)

Lemma notifyGlobal_state ls m :
  state (notifyGlobal ls m) = state m ∧
  listeners (notifyGlobal ls m) = listeners m ∧
  selectors (notifyGlobal ls m) = selectors m.
Proof.
  revert m. induction ls as [|l ls IH]; intros m; [done|]. cbn.
  split_and!;
    [rewrite (proj1 (IH _)) | rewrite (proj1 (proj2 (IH _)))
    | rewrite (proj2 (proj2 (IH _)))]; done.
Qed.


Lemma notifySelectors_split st es :
  notifySelectors st es =
    ((λ e, (notifySelector st e).1) <$> es,
     concat ((λ e, (notifySelector st e).2) <$> es)).
Proof.
  induction es as [|e es IH]; [done|]. cbn [notifySelectors].
  rewrite IH. csimpl. by destruct (notifySelector st e).
Qed.

Lemma notifyListeners_state m : state (notifyListeners m) = state m.
Proof.
  unfold notifyListeners. rewrite notifySelectors_split. cbn.
  apply notifyGlobal_state.
Qed.

Lemma setState_state u m :
  ∃ n, state (setState u m) = spread2 n (state m) (compute_updates u m).1.
Proof.
  unfold setState. destruct u as [p|f]; cbn; rewrite notifyListeners_state; cbn; eauto.
Qed.

Lemma spread2_own n a b k :
  NoDup (keys b) →
  own (spread2 n a b) k =
    match own b k with Some v => Some v | None => own (spread1 n a) k end.
Proof.
  intros Hb. unfold own, spread2, spread1. cbn [own_entries].
  by rewrite obj_get_assign.
Qed.

Lemma spread1_spread n1 n2 a k :
  own (spread1 n1 (spread1 n2 a)) k = own (spread1 n2 a) k.
Proof.
  unfold own, spread1. cbn [own_entries].
  apply obj_get_assign_nil, assign_NoDup. constructor.
Qed.

Lemma spread1_spread2 n1 n2 a b k :
  own (spread1 n1 (spread2 n2 a b)) k = own (spread2 n2 a b) k.
Proof.
  unfold own, spread1, spread2. cbn [own_entries].
  apply obj_get_assign_nil. do 2 apply assign_NoDup. constructor.
Qed.

(** Claim C8.  After [setState] the state that [getState()] returns has,
    for every key of the partial update [p], the value [p] gives it, and
    for every other key the value it had before.  [p] is the object
    passed, or what the updater function passed makes of the state. *)
Theorem setState_shallow_merge (m : StateManager) (u : Updater) (k : string) :
  let p := (compute_updates u m).1 in
  NoDup (keys p) →
  own (getState (setState u m)).1 k =
    match own p k with
    | Some v => Some v
    | None => own (getState m).1 k
    end.
Proof.
  intros p Hp. destruct (setState_state u m) as [n Hn]. fold p in Hn.
  cbn [getState fst]. rewrite Hn, spread1_spread2, spread2_own by done.
  destruct (own p k); [done|].
  unfold own, spread1. cbn [own_entries]. done.
Qed.

(** ** Selectors *)






Lemma notifySelector_snd st e :
  (notifySelector st e).2 =
    if isEqual (value e.2) (selector_fn e.1 st) then []
    else (λ l, CallSelected (selector_id e.1) l (selector_fn e.1 st)) <$> sel_listeners e.2.
Proof. unfold notifySelector. by destruct (isEqual _ _). Qed.










Lemma setState_shallow_merge_witness :
  let m := State.new_StateManager 2 State.initialState in
  NoDup (keys (State.compute_updates casting_update m).1) ∧
  own (State.getState (State.setState casting_update m)).1 "isCasting" = Some (VBool true) ∧
  own (State.getState (State.setState casting_update m)).1 "deviceId" =
    own (State.getState m).1 "deviceId".
Proof.
  cbn zeta.
  assert (Hp : NoDup (keys (State.compute_updates casting_update
                              (State.new_StateManager 2 State.initialState)).1)).
  { vm_compute. apply NoDup_singleton. }
  split; [exact Hp|]. split.
  - exact (setState_shallow_merge _ casting_update "isCasting" Hp).
  - exact (setState_shallow_merge _ casting_update "deviceId" Hp).
Defined.


End StateManager_properties.

(* ===================================================================== *)
(** * Properties of the bridge and of the client *)
(* ===================================================================== *)

Section Client_properties.
Import JS Protocol Runtime Bridge Client Loop Scenario.

(** ** The client's state *)

Lemma read_state k c1 c2 :
  State.state (stateManager c1) = State.state (stateManager c2) →
  read k c1 = read k c2.
Proof. unfold read, getState. cbn. by intros ->. Qed.

Lemma read_own k c :
  read k c = default VUndefined (own (State.spread1 0 (State.state (stateManager c))) k).
Proof. done. Qed.

(** One [setState] of the client: the fields given are written, the
    others persist. *)
Lemma read_setState k fields c :
  read k (setState fields c) =
    match obj_get k (assign [] fields) with
    | Some v => v
    | None => read k c
    end.
Proof.
  rewrite !read_own. unfold setState, object. cbn [with_stateManager stateManager].
  destruct (setState_state (State.Partial (VObj (RClient (next_ref c)) (assign [] fields)))
              (stateManager c)) as [n ->].
  cbn [State.compute_updates fst].
  assert (∀ a, own (State.spread1 0 a) k = own (State.spread1 n a) k) as -> by done.
  rewrite spread1_spread2, spread2_own.
  2:{ unfold keys. cbn [own_entries]. apply assign_NoDup. constructor. }
  unfold own at 1. cbn [own_entries].
  by destruct (obj_get k (assign [] fields)).
Qed.

Lemma read_log k now type msg d c : read k (log now type msg d c) = read k c.
Proof. done. Qed.

Lemma read_handleError k now msg error c :
  read k (handleError now msg error c) =
    if decide (k = "error")
    then VObj (RClient (S (next_ref c)))
           [ ("code", VStr "BRIDGE_ERROR"); ("message", VStr msg);
             ("details", VObj (RClient (next_ref c)) [("originalError", error)]) ]
    else read k c.
Proof.
  unfold handleError. cbn [object log]. rewrite read_setState. cbn [assign foldl obj_set fst snd obj_get].
  destruct (decide (k = "error")); done.
Qed.

(** Continuing a suspended call whose promise is settled. *)
Lemma step_Resume now x p i task s :
  list_find (λ t, awaited t = p) (suspended x) = Some (i, task) →
  promises (window x) !! p ≫= settlement = Some s →
  step now (Resume p) x =
    Some {| window := window x;
            client := (resume_method now (method task) s (client x)).2;
            suspended := delete i (suspended x);
            returned := <[future task :=
                            completed (resume_method now (method task) s (client x)).1]>
                          (returned x) |}.
Proof.
  intros Hfind Hs. cbn [step]. unfold resume. rewrite Hfind. cbn.
  rewrite Hs. cbn. by destruct (resume_method _ _ _ _).
Qed.

(** The [catch] block of [startCasting]. *)
Lemma startCasting_catch_fields now error c :
  let c' := startCasting_catch now error c in
  read "isConnecting" c' = VBool false ∧
  read "deviceId" c' = VNull ∧
  read "isCasting" c' = read "isCasting" c ∧
  read "error" c' ≠ VNull ∧
  get_opt (get_opt (read "error" c') "details") "originalError" = error.
Proof.
  cbn zeta. unfold startCasting_catch.
  rewrite !read_handleError. cbn [decide].
  repeat (rewrite decide_False by done). rewrite decide_True by done.
  rewrite !read_setState. cbn. done.
Qed.

(** ** Sending *)

(** A request with an identifier: a promise, a timer and an entry of
    [pendingRequests] are made, and the message is posted. *)
Lemma sendMessageWithResponse_registers message t b w rid :
  requestId message = Some rid → rid ≠ "" →
  sendMessageWithResponse message t b w =
    (inr (next_promise w),
     with_pending
       (<[rid := {| pr_resolve := next_promise w; pr_reject := next_promise w;
                    pr_timer := next_timer w |}]> (pendingRequests b)) b,
     {| posted := posted w ++ [(message, targetOrigin (Bridge.options b))];
        event_listeners := event_listeners w;
        timers := <[next_timer w := {| cb_message := message; cb_timeout := t;
                                       cb_reject := next_promise w |}]> (timers w);
        next_timer := S (next_timer w);
        promises := <[next_promise w := Pending]> (promises w);
        next_promise := S (next_promise w);
        observed := observed w |}).
Proof.
  intros Hrid Hne. unfold sendMessageWithResponse, requestId_key, no_requestId.
  rewrite Hrid, bool_decide_false by done. cbn. done.
Qed.

(** A request without one: the bridge throws and nothing else happens. *)
Lemma sendMessageWithResponse_throws message t b w :
  no_requestId message = true →
  sendMessageWithResponse message t b w =
    (inl (VError (RBridge (Bridge.next_ref b))
            "Message must have a requestId for sendMessageWithResponse"),
     {| pendingRequests := pendingRequests b; Bridge.options := Bridge.options b;
        Bridge.next_ref := S (Bridge.next_ref b) |}, w).
Proof. intros H. unfold sendMessageWithResponse. by rewrite H. Qed.

Lemma read_startCasting_begin k now deviceId opts c :
  read k (startCasting_begin now deviceId opts c) =
    if decide (k = "isConnecting") then VBool true
    else if decide (k = "deviceId") then VStr deviceId
    else read k c.
Proof.
  unfold startCasting_begin. cbn [object]. rewrite read_setState.
  simpl (assign _ _). cbn [obj_get].
  repeat (destruct (decide _); try done).
Qed.

(** X16.  The synchronous failure of [startCasting]: the generated identifier
    is empty, the bridge throws, and the [catch] block runs at once. *)
Lemma startCasting_throw_rolls_back (now : Z) (x : World)
    (deviceId : string) (opts : CastOptions) :
  ∃ x' error,
    step now (CallStartCasting "" deviceId opts) x = Some x' ∧
    field "isConnecting" x' = VBool false ∧
    field "deviceId" x' = VNull ∧
    field "isCasting" x' = field "isCasting" x ∧
    field "error" x' ≠ VNull ∧
    get_opt (get_opt (field "error" x') "details") "originalError" = error ∧
    returned x' = returned x ++ [Rejected error] ∧
    window x' = window x.
Proof.
  cbn [step]. unfold call, startCasting_call, send.
  cbn [createMessage no_requestId requestId type payload].
  destruct (or_object (initialState opts) _) as [initial c2] eqn:H2.
  cbn [object]. rewrite sendMessageWithResponse_throws by done.
  do 2 eexists. split; [done|].
  unfold field. cbn [client returned window completed].
  match goal with |- context [startCasting_catch now ?e ?c] =>
    pose proof (startCasting_catch_fields now e c) as H end.
  cbn zeta in H. destruct H as (H1 & H2' & H3 & H4 & H5).
  split_and!; try done.
  rewrite H3.
  transitivity (read "isCasting" (startCasting_begin now deviceId opts (client x))).
  - apply read_state. cbn. unfold or_object in H2.
    destruct (truthy (initialState opts)); injection H2 as <- <-; done.
  - by rewrite read_startCasting_begin.
Qed.

(** Claim C3, as amended.  When [stopCasting] is continued on the
    fulfilled promise of its CAST_END_SESSION request, [isCasting] and
    [isConnecting] are false, [deviceId], [deviceName] and [sessionId]
    are [null], the promise the call returned is fulfilled, and the
    [devices] list is what it was: no device is marked in it. *)
Theorem stopCasting_success_clears_session (now : Z) (x : World)
    (p i : nat) (task : Task) (response : Value) :
  list_find (λ t, awaited t = p) (suspended x) = Some (i, task) →
  method task = StopCasting →
  promises (window x) !! p = Some (Fulfilled response) →
  ∃ x', step now (Resume p) x = Some x' ∧
    field "isCasting" x' = VBool false ∧
    field "isConnecting" x' = VBool false ∧
    field "deviceId" x' = VNull ∧
    field "deviceName" x' = VNull ∧
    field "sessionId" x' = VNull ∧
    field "devices" x' = field "devices" x ∧
    returned x' = <[future task := Fulfilled VUndefined]> (returned x).
Proof.
  intros Hfind Hm Hp. eexists. split.
  { apply (step_Resume now x p i task (Resolved response) Hfind). by rewrite Hp. }
  rewrite Hm. cbn [resume_method stopCasting_resume fst snd completed].
  unfold field. cbn [client returned]. rewrite !read_setState. done.
Qed.

(** Claim C4.  In a state whose [sessionId] is [null], [stopCasting()]
    returns a promise fulfilled with [undefined]; no message is posted,
    no request, timer or promise is made, no listener is called, and the
    state, its [error] field included, is unchanged. *)
Theorem stopCasting_without_session_is_noop (now : Z) (generated : string)
    (x : World) :
  field "sessionId" x = VNull →
  ∃ x', step now (CallStopCasting generated) x = Some x' ∧
    returned x' = returned x ++ [Fulfilled VUndefined] ∧
    suspended x' = suspended x ∧
    window x' = window x ∧
    bridge (client x') = bridge (client x) ∧
    State.state (stateManager (client x')) = State.state (stateManager (client x)) ∧
    State.calls (stateManager (client x')) = State.calls (stateManager (client x)) ∧
    field "error" x' = field "error" x.
Proof.
  intros Hnull. cbn [step]. unfold call, stopCasting_call.
  destruct (getState (client x)) as [snapshot c1] eqn:Hg.
  assert (default VUndefined (get snapshot "sessionId") = VNull) as ->.
  { unfold field, read in Hnull. by rewrite Hg in Hnull. }
  cbn [truthy negb]. eexists. split; [done|].
  unfold getState in Hg. cbn in Hg. injection Hg as _ <-. done.
Qed.

(** Claim C10.  A CAST_SESSION_UPDATED message whose payload has status
    [connecting] is handled without any update of the state: the state
    manager of the client, with its state, its listeners and the calls
    made to them, is the same before and after, and so is every field,
    [isConnecting] among them. *)
Theorem connecting_event_changes_nothing (now : Z) (x : World)
    (data payload : Value) :
  get data "type" = Some (VStr "CAST_SESSION_UPDATED") →
  get data "payload" = Some payload →
  get payload "status" = Some (VStr "connecting") →
  ∃ x', step now (Message data) x = Some x' ∧
    stateManager (client x') = stateManager (client x) ∧
    ∀ k, field k x' = field k x.
Proof.
  intros Htype Hpayload Hstatus.
  assert (Hc : ∀ c, stateManager (onMessage now data c) = stateManager c).
  { intros c. unfold onMessage.
    assert (truthy data = true) as ->.
    { destruct data as [| | | | |s| | | |]; try done; destruct s; done. }
    rewrite Htype, Hpayload. cbn -[setState log empty_array object get].
    rewrite Hstatus. done. }
  assert (Hd : ∀ l y, stateManager (client (deliver now data y l)) = stateManager (client y)).
  { intros [| |o] y; cbn [deliver].
    - by destruct (handleMessage _ _ _).
    - apply Hc.
    - done. }
  eexists. split; [done|]. unfold dispatch.
  generalize (listeners_for "message" (window x)). intros ls.
  assert (stateManager (client (foldl (deliver now data) x ls)) = stateManager (client x)) as H.
  { revert x. induction ls as [|l ls IH]; intros x; [done|]. cbn [foldl].
    by rewrite IH, Hd. }
  split; [done|]. intros k. apply read_state. by rewrite H.
Qed.

(** ** The bridge and its promises *)

Lemma keeps_settled_refl w : keeps_settled w w.
Proof. by intros p s. Qed.

Lemma keeps_settled_trans w1 w2 w3 :
  keeps_settled w1 w2 → keeps_settled w2 w3 → keeps_settled w1 w3.
Proof. intros H1 H2 p s Hp Hs. apply H2; [by apply H1 | done]. Qed.

Lemma no_requestId_false message :
  no_requestId message = false ↔ ∃ rid, requestId message = Some rid ∧ rid ≠ "".
Proof.
  unfold no_requestId. destruct (requestId message) as [rid|].
  - rewrite bool_decide_eq_false. split; [eauto | by intros (? & [= <-] & ?)].
  - split; [done | by intros (? & ? & _)].
Qed.

Lemma settle_lookup p s w q :
  promises (settle p s w) !! q =
    if decide (q = p)
    then match promises w !! p with Some Pending => Some s | o => o end
    else promises w !! q.
Proof.
  unfold settle. destruct (decide (q = p)) as [->|Hne].
  - destruct (promises w !! p) as [[]|] eqn:Hp; cbn; rewrite ?lookup_insert_eq; done.
  - destruct (promises w !! p) as [[]|]; cbn; rewrite ?lookup_insert_ne; done.
Qed.

Lemma settle_other p s w :
  timers (settle p s w) = timers w ∧ next_timer (settle p s w) = next_timer w ∧
  next_promise (settle p s w) = next_promise w ∧
  event_listeners (settle p s w) = event_listeners w ∧
  observed (settle p s w) = observed w ∧ posted (settle p s w) = posted w.
Proof. unfold settle. by destruct (promises w !! p) as [[]|]. Qed.

Lemma settle_keeps p s w : keeps_settled w (settle p s w).
Proof.
  intros q s' Hq Hs'. rewrite settle_lookup. destruct (decide (q = p)) as [->|]; [|done].
  rewrite Hq. by destruct s'.
Qed.

(** [sendMessageWithResponse] keeps the invariant. *)
Lemma sendMessageWithResponse_inv message t b w :
  bridge_inv b w →
  let r := sendMessageWithResponse message t b w in
  bridge_inv r.1.2 r.2 ∧ keeps_settled w r.2 ∧
  event_listeners r.2 = event_listeners w ∧ observed r.2 = observed w.
Proof.
  intros Hinv. destruct (no_requestId message) eqn:Hno.
  - rewrite sendMessageWithResponse_throws by done. cbn.
    split; [|by split; [apply keeps_settled_refl|]].
    destruct Hinv. by constructor.
  - apply no_requestId_false in Hno as (rid & Hrid & Hne).
    rewrite (sendMessageWithResponse_registers _ _ _ _ rid) by done. cbn.
    assert (Hfresh : promises w !! next_promise w = None).
    { destruct (promises w !! next_promise w) eqn:Hp; [|done].
      pose proof (inv_promises _ _ Hinv (next_promise w) ltac:(by eexists)). lia. }
    assert (Hfresht : timers w !! next_timer w = None).
    { destruct (timers w !! next_timer w) eqn:Hp; [|done].
      destruct (inv_timers _ _ Hinv _ _ Hp). lia. }
    split; [|split; [|done]].
    + constructor; cbn.
      * intros p [s Hp]. rewrite lookup_insert in Hp. case_decide; [lia|].
        pose proof (inv_promises _ _ Hinv p ltac:(by eexists)). lia.
      * intros t' cb. rewrite lookup_insert. case_decide as Ht.
        -- intros [= <-]. cbn. rewrite lookup_insert_eq.
           split_and!; [lia | done |]. apply no_requestId_false. eauto.
        -- intros Hcb. destruct (inv_timers _ _ Hinv _ _ Hcb) as (? & Hp & ?).
           split_and!; [lia | | done].
           rewrite lookup_insert_ne; [done|]. congruence.
      * intros t1 t2 cb1 cb2. rewrite !lookup_insert.
        destruct (decide (next_timer w = t1)) as [<-|]; destruct (decide (next_timer w = t2)) as [<-|];
          try done.
        -- intros [= <-] Hcb2 Heq. cbn in Heq.
           destruct (inv_timers _ _ Hinv _ _ Hcb2) as (_ & Hp & _).
           congruence.
        -- intros Hcb1 [= <-] Heq. cbn in Heq.
           destruct (inv_timers _ _ Hinv _ _ Hcb1) as (_ & Hp & _).
           congruence.
        -- apply (inv_timers_inj _ _ Hinv).
      * intros rid' e. rewrite lookup_insert. case_decide as Hr.
        -- intros [= <-]. cbn. eexists. split; [apply lookup_insert_eq|]. subst. done.
        -- intros He. destruct (inv_pending _ _ Hinv _ _ He) as (cb & Hcb & ?).
           exists cb. split; [|done]. rewrite lookup_insert_ne; [done|].
           congruence.
    + intros p s Hp Hs. cbn. rewrite lookup_insert_ne; [done|].
      congruence.
Qed.

(** [handleMessage] on a valid message that answers a pending request. *)
Lemma handleMessage_consumes data b w rid e :
  validateMessage data = true → inbound_requestId data = Some rid →
  pendingRequests b !! rid = Some e →
  ∃ b', handleMessage data b w =
          (b', resolve (pr_resolve e) (response_payload data b)
                 (clearTimeout (pr_timer e) w)) ∧
        pendingRequests b' = delete rid (pendingRequests b) ∧
        Bridge.options b' = Bridge.options b.
Proof.
  intros Hv Hrid He. unfold handleMessage, response_payload, payload_or_empty.
  rewrite Hv, Hrid, He. cbn [negb].
  destruct (truthy (default VUndefined (get data "payload"))); eauto.
Qed.

(** [handleMessage] on any other message. *)
Lemma handleMessage_ignores data b w :
  validateMessage data = false ∨
  match inbound_requestId data with
  | Some rid => pendingRequests b !! rid = None
  | None => True
  end →
  handleMessage data b w = (b, w).
Proof.
  unfold handleMessage. intros [->|H]; [done|].
  destruct (validateMessage data); [|done]. cbn [negb].
  destruct (inbound_requestId data); [|done]. by rewrite H.
Qed.

Lemma handleMessage_inv data b w :
  bridge_inv b w →
  let r := handleMessage data b w in
  bridge_inv r.1 r.2 ∧ keeps_settled w r.2 ∧
  event_listeners r.2 = event_listeners w ∧ observed r.2 = observed w.
Proof.
  intros Hinv.
  destruct (validateMessage data) eqn:Hv.
  2:{ rewrite handleMessage_ignores by auto. split_and!; [done|apply keeps_settled_refl|done..]. }
  destruct (inbound_requestId data) as [rid|] eqn:Hrid.
  2:{ rewrite handleMessage_ignores by (right; by rewrite Hrid).
      split_and!; [done|apply keeps_settled_refl|done..]. }
  destruct (pendingRequests b !! rid) as [e|] eqn:He.
  2:{ rewrite handleMessage_ignores by (right; by rewrite Hrid).
      split_and!; [done|apply keeps_settled_refl|done..]. }
  destruct (handleMessage_consumes data b w rid e Hv Hrid He) as (b' & -> & Hb' & _).
  cbn [fst snd].
  destruct (inv_pending _ _ Hinv _ _ He) as (cb & Hcb & Hrej & _ & Hcbrid).
  destruct (settle_other (pr_resolve e) (Fulfilled (response_payload data b))
              (clearTimeout (pr_timer e) w)) as (Ht & Hnt & Hnp & Hl & Ho & _).
  unfold resolve. split_and!; [|by apply (settle_keeps _ _ (clearTimeout _ w))|done..].
  constructor.
  - intros p [s Hp]. rewrite Hnp. rewrite settle_lookup in Hp. cbn.
    apply (inv_promises _ _ Hinv). cbn in Hp. case_decide; subst.
    + destruct (promises w !! pr_resolve e) as [[]|]; by eexists.
    + by eexists.
  - intros t' cb'. rewrite Ht, Hnt. cbn. rewrite lookup_delete. case_decide as Hne; [done|].
    intros Hcb'. destruct (inv_timers _ _ Hinv _ _ Hcb') as (? & Hp & ?).
    split_and!; [done| |done]. rewrite settle_lookup. cbn.
    rewrite decide_False; [done|]. intros Heq. apply Hne.
    apply (inv_timers_inj _ _ Hinv _ _ _ _ Hcb Hcb'). congruence.
  - intros t1 t2 cb1 cb2. rewrite Ht. cbn. rewrite !lookup_delete.
    do 2 (case_decide; [done|]). apply (inv_timers_inj _ _ Hinv).
  - intros rid' e'. rewrite Hb', lookup_delete. case_decide as Hne; [done|].
    intros He'. destruct (inv_pending _ _ Hinv _ _ He') as (cb' & Hcb' & ? & ? & Hrid').
    exists cb'. split; [|done]. rewrite Ht. cbn. rewrite lookup_delete_ne; [done|].
    intros Heq. rewrite Heq, Hcb' in Hcb. congruence.
Qed.

Lemma timer_callback_eq cb b w :
  timer_callback cb b w =
    ({| pendingRequests :=
          (if no_requestId (cb_message cb) then pendingRequests b
           else delete (requestId_key (cb_message cb)) (pendingRequests b));
        Bridge.options := Bridge.options b;
        Bridge.next_ref := S (Bridge.next_ref b) |},
     reject (cb_reject cb) (timeout_error cb b) w).
Proof.
  unfold timer_callback, timeout_error.
  by destruct (no_requestId (cb_message cb)).
Qed.

(** A live timer fires: its request is rejected with the timeout error
    and its entry is gone. *)
Lemma timer_callback_inv t cb b w :
  bridge_inv b w → timers w !! t = Some cb →
  let r := timer_callback cb b (clearTimeout t w) in
  bridge_inv r.1 r.2 ∧ keeps_settled w r.2 ∧
  event_listeners r.2 = event_listeners w ∧ observed r.2 = observed w ∧
  promises r.2 !! cb_reject cb = Some (Rejected (timeout_error cb b)) ∧
  ∃ rid, requestId (cb_message cb) = Some rid ∧ rid ≠ "" ∧
         pendingRequests r.1 !! rid = None.
Proof.
  intros Hinv Hcb. rewrite timer_callback_eq. cbn [fst snd].
  destruct (inv_timers _ _ Hinv _ _ Hcb) as (Hlt & Hp & Hno).
  rewrite Hno. pose proof Hno as (rid & Hrid & Hne)%no_requestId_false.
  unfold requestId_key. rewrite Hrid. cbn [default].
  destruct (settle_other (cb_reject cb) (Rejected (timeout_error cb b))
              (clearTimeout t w)) as (Ht & Hnt & Hnp & Hl & Ho & _).
  unfold reject.
  split_and!; [|by apply (settle_keeps _ _ (clearTimeout _ w))|done|done| |].
  - constructor.
    + intros p [s Hs]. rewrite Hnp. rewrite settle_lookup in Hs. cbn.
      apply (inv_promises _ _ Hinv). cbn in Hs. case_decide; subst.
      * rewrite Hp. by eexists.
      * by eexists.
    + intros t' cb'. rewrite Ht, Hnt. cbn. rewrite lookup_delete. case_decide as Hn; [done|].
      intros Hcb'. destruct (inv_timers _ _ Hinv _ _ Hcb') as (? & Hp' & ?).
      split_and!; [done| |done]. rewrite settle_lookup. cbn.
      rewrite decide_False; [done|]. intros Heq. apply Hn.
      apply (inv_timers_inj _ _ Hinv _ _ _ _ Hcb Hcb'). congruence.
    + intros t1 t2 cb1 cb2. rewrite Ht. cbn. rewrite !lookup_delete.
      do 2 (case_decide; [done|]). apply (inv_timers_inj _ _ Hinv).
    + intros rid' e'. cbn. rewrite lookup_delete. case_decide as Hn; [done|].
      intros He'. destruct (inv_pending _ _ Hinv _ _ He') as (cb' & Hcb' & ? & ? & Hrid').
      exists cb'. split; [|done]. rewrite Ht. cbn. rewrite lookup_delete_ne; [done|].
      intros Heq. rewrite <- Heq, Hcb in Hcb'. congruence.
  - rewrite settle_lookup, decide_True by done. cbn. by rewrite Hp.
  - exists rid. split_and!; [done..|]. cbn. apply lookup_delete_eq.
Qed.

(** ** The page at every turn *)

Lemma send_sends_only message failed c0 :
  (∀ e c, bridge (failed e c) = bridge c) →
  ∀ w, bridge_inv (bridge c0) w →
    bridge_inv (bridge (send message failed c0 w).1.2) (send message failed c0 w).2 ∧
    window_grows w (send message failed c0 w).2.
Proof.
  intros Hfailed w Hinv. unfold send.
  pose proof (sendMessageWithResponse_inv message
                (timeout (Bridge.options (bridge c0))) _ _ Hinv) as H.
  cbn zeta in H.
  destruct (sendMessageWithResponse _ _ _ _) as [[[error|p] b] w1]; cbn in *.
  - rewrite Hfailed. cbn. by destruct H as (? & ? & ? & ?).
  - by destruct H as (? & ? & ? & ?).
Qed.

Lemma signalReady_sends_only now g params : sends_only (signalReady_call now g params).
Proof.
  intros c w Hinv. unfold signalReady_call. cbn [object].
  by apply send_sends_only.
Qed.

Lemma scanForDevices_sends_only now g : sends_only (scanForDevices_call now g).
Proof.
  intros c w Hinv. unfold scanForDevices_call. cbn [object].
  by apply send_sends_only.
Qed.

Lemma startCasting_sends_only now g deviceId opts :
  sends_only (startCasting_call now g deviceId opts).
Proof.
  intros c w Hinv. unfold startCasting_call, or_object.
  destruct (truthy (initialState opts)); cbn [object]; by apply send_sends_only.
Qed.

Lemma window_grows_refl w : window_grows w w.
Proof. split; [apply keeps_settled_refl | done]. Qed.

Lemma stopCasting_sends_only now g : sends_only (stopCasting_call now g).
Proof.
  intros c w Hinv. unfold stopCasting_call, getState. cbn [State.getState].
  destruct (negb _).
  - cbn. split; [done | apply window_grows_refl].
  - cbn [object]. by apply send_sends_only.
Qed.

Lemma sendStateUpdate_sends_only now g st : sends_only (sendStateUpdate_call now g st).
Proof.
  intros c w Hinv. unfold sendStateUpdate_call, getState. cbn [State.getState].
  destruct (negb _).
  - cbn. split; [done | apply window_grows_refl].
  - cbn [object]. by apply send_sends_only.
Qed.

Lemma listeners_for_eq type w w' :
  event_listeners w' = event_listeners w → listeners_for type w' = listeners_for type w.
Proof. unfold listeners_for. by intros ->. Qed.

Lemma call_inv m body x :
  sends_only body → world_inv x →
  world_inv (call m body x) ∧ window_grows (window x) (window (call m body x)).
Proof.
  intros Hbody [Hinv [os Hos]]. unfold call.
  destruct (Hbody _ _ Hinv) as [Hinv' Hgrow].
  destruct (body (client x) (window x)) as [[[r|p] c1] w1]; cbn in *.
  - split; [|done]. split; [done|]. exists os.
    by rewrite (listeners_for_eq _ (window x)) by apply Hgrow.
  - split; [|done]. split; [done|]. exists os.
    by rewrite (listeners_for_eq _ (window x)) by apply Hgrow.
Qed.

Lemma resume_method_bridge now m s c : bridge (resume_method now m s c).2 = bridge c.
Proof.
  destruct m, s as [v|e]; try done.
  cbn [resume_method signalReady_resume]. unfold or_array.
  destruct (get v "payload") as [p|]; [|done]. by destruct (truthy _).
Qed.

Lemma window_grows_trans w1 w2 w3 :
  window_grows w1 w2 → window_grows w2 w3 → window_grows w1 w3.
Proof.
  intros (H1 & H2 & H3) (H1' & H2' & H3').
  split_and!; [by eapply keeps_settled_trans | congruence..].
Qed.

(** One listener, as far as the bridge and the promises go. *)
Lemma deliver_inv now data x l :
  bridge_inv (bridge (client x)) (window x) →
  bridge_inv (bridge (client (deliver now data x l))) (window (deliver now data x l)) ∧
  keeps_settled (window x) (window (deliver now data x l)) ∧
  event_listeners (window (deliver now data x l)) = event_listeners (window x).
Proof.
  intros Hinv. destruct l as [| |o]; cbn [deliver].
  - pose proof (handleMessage_inv data _ _ Hinv) as H. cbn zeta in H.
    destruct (handleMessage _ _ _) as [b w]. cbn in *. by destruct H as (? & ? & ? & ?).
  - cbn. split_and!; [|apply keeps_settled_refl|done].
    assert (bridge (onMessage now data (client x)) = bridge (client x)) as ->; [|done].
    unfold onMessage, or_array.
    repeat (match goal with
            | |- context [if ?b then _ else _] => destruct b
            | |- context [match ?o with Some _ => _ | None => _ end] => destruct o
            end; try done).
  - cbn. split_and!; [|by intros ??|done].
    destruct Hinv. by constructor.
Qed.

Lemma dispatch_inv now data x :
  world_inv x →
  world_inv (dispatch now data x) ∧
  keeps_settled (window x) (window (dispatch now data x)).
Proof.
  intros [Hinv [os Hos]]. unfold dispatch.
  generalize (listeners_for "message" (window x)) as ls. intros ls.
  assert (bridge_inv (bridge (client (foldl (deliver now data) x ls)))
            (window (foldl (deliver now data) x ls)) ∧
          keeps_settled (window x) (window (foldl (deliver now data) x ls)) ∧
          event_listeners (window (foldl (deliver now data) x ls)) =
            event_listeners (window x)) as (H1 & H2 & H3).
  { clear Hos. revert x Hinv. induction ls as [|l ls IH]; intros x Hinv; cbn [foldl].
    - split_and!; [done|apply keeps_settled_refl|done].
    - destruct (deliver_inv now data x l Hinv) as (Ha & Hb & Hc).
      destruct (IH _ Ha) as (Ha' & Hb' & Hc').
      split_and!; [done|by eapply keeps_settled_trans|congruence]. }
  split; [|done]. split; [done|]. exists os.
  by rewrite (listeners_for_eq _ (window x)).
Qed.

Lemma addEventListener_listeners type o w os :
  listeners_for "message" w = HandleMessage :: ClientListener :: (Observer <$> os) →
  ∃ os', listeners_for "message" (Bridge.addEventListener type (Observer o) w) =
           HandleMessage :: ClientListener :: (Observer <$> os').
Proof.
  intros Hos. unfold Bridge.addEventListener, Runtime.addEventListener.
  case_bool_decide; [by exists os|].
  unfold listeners_for in *. cbn. rewrite filter_app, fmap_app, Hos.
  destruct (decide (type = "message")) as [->|Hne].
  - rewrite filter_cons_True by done. exists (os ++ [o]). by rewrite fmap_app.
  - rewrite filter_cons_False by done. exists os. by rewrite app_nil_r.
Qed.

(** Every turn keeps the invariant, and leaves settled promises settled. *)
Lemma step_inv now a x x' :
  world_inv x → step now a x = Some x' →
  world_inv x' ∧ keeps_settled (window x) (window x').
Proof.
  intros Hx. destruct a; cbn [step].
  - intros [= <-]. destruct (call_inv SignalReady _ x (signalReady_sends_only now generated params) Hx) as [? [? _]]; done.
  - intros [= <-]. destruct (call_inv ScanForDevices _ x (scanForDevices_sends_only now generated) Hx) as [? [? _]]; done.
  - intros [= <-]. destruct (call_inv StartCasting _ x (startCasting_sends_only now generated deviceId opts) Hx) as [? [? _]]; done.
  - intros [= <-]. destruct (call_inv StopCasting _ x (stopCasting_sends_only now generated) Hx) as [? [? _]]; done.
  - intros [= <-]. destruct (call_inv SendStateUpdate _ x (sendStateUpdate_sends_only now generated st) Hx) as [? [? _]]; done.
  - intros [= <-]. split; [done | apply keeps_settled_refl].
  - intros [= <-]. split; [done | apply keeps_settled_refl].
  - intros [= <-]. split.
    2:{ cbn. unfold Bridge.addEventListener, Runtime.addEventListener.
        case_bool_decide; by intros ??. }
    destruct Hx as [Hinv [os Hos]]. split.
    + cbn. unfold Bridge.addEventListener, Runtime.addEventListener.
      case_bool_decide; [done|]. destruct Hinv. by constructor.
    + by apply (addEventListener_listeners _ _ _ os).
  - intros [= <-]. by apply dispatch_inv.
  - unfold fire. destruct (timers (window x) !! t) as [cb|] eqn:Hcb; [|done].
    cbn [mbind option_bind].
    destruct Hx as [Hinv [os Hos]].
    pose proof (timer_callback_inv t cb _ _ Hinv Hcb) as H. cbn zeta in H.
    destruct (timer_callback _ _ _) as [b w]. cbn in H.
    destruct H as (Hinv' & Hk & Hl & _). intros [= <-]. cbn.
    split; [|done]. split; [done|]. exists os. by rewrite (listeners_for_eq _ (window x)).
  - unfold resume. destruct (list_find _ _) as [[i task]|]; [|done].
    cbn [mbind option_bind].
    destruct (promises (window x) !! p ≫= settlement) as [s|]; [|done].
    cbn [mbind option_bind].
    pose proof (resume_method_bridge now (method task) s (client x)) as Hb.
    destruct (resume_method _ _ _ _) as [r c1]. cbn in Hb. intros [= <-].
    split; [|apply keeps_settled_refl]. destruct Hx as [Hinv Hos].
    split; [cbn; by rewrite Hb | done].
Qed.

Lemma boot_inv now userAgent opts : world_inv (boot now userAgent opts).
Proof.
  split.
  - constructor; cbn; intros *; rewrite ?lookup_empty; try done. by intros [].
  - by exists [].
Qed.

Lemma run_inv turns x x' :
  world_inv x → run turns x = Some x' →
  world_inv x' ∧ keeps_settled (window x) (window x').
Proof.
  revert x. induction turns as [|[now a] turns IH]; intros x Hx; cbn [run].
  - intros [= <-]. split; [done | apply keeps_settled_refl].
  - destruct (step now a x) as [x1|] eqn:Hstep; [|done]. cbn.
    destruct (step_inv _ _ _ _ Hx Hstep) as [Hx1 Hk1].
    intros Hrun. destruct (IH _ Hx1 Hrun) as [Hx' Hk'].
    split; [done | by eapply keeps_settled_trans].
Qed.

Lemma reachable_inv x : reachable x → world_inv x.
Proof.
  intros (now & ua & opts & turns & Hrun).
  by destruct (run_inv turns _ _ (boot_inv now ua opts) Hrun).
Qed.

(** The client's listener does not look at the bridge. *)
Lemma onMessage_with_bridge now data b c :
  onMessage now data (with_bridge b c) = with_bridge b (onMessage now data c).
Proof.
  unfold onMessage, or_array.
  repeat (match goal with
          | |- context [if ?b then _ else _] => destruct b
          | |- context [match ?o with Some _ => _ | None => _ end] => destruct o
          end; try done).
Qed.

Lemma onMessage_bridge now data c : bridge (onMessage now data c) = bridge c.
Proof.
  unfold onMessage, or_array.
  repeat (match goal with
          | |- context [if ?b then _ else _] => destruct b
          | |- context [match ?o with Some _ => _ | None => _ end] => destruct o
          end; try done).
Qed.

(** A message that answers no pending request leaves the promises and
    the pending requests as they are, whoever listens. *)
Lemma dispatch_ignored now data rid x :
  inbound_requestId data = Some rid →
  pendingRequests (bridge (client x)) !! rid = None →
  promises (window (dispatch now data x)) = promises (window x) ∧
  pendingRequests (bridge (client (dispatch now data x))) =
    pendingRequests (bridge (client x)).
Proof.
  intros Hrid. unfold dispatch.
  generalize (listeners_for "message" (window x)) as ls. intros ls. revert x.
  induction ls as [|l ls IH]; intros x Hnone; cbn [foldl]; [done|].
  assert (promises (window (deliver now data x l)) = promises (window x) ∧
          pendingRequests (bridge (client (deliver now data x l))) =
            pendingRequests (bridge (client x))) as [Hp Hb].
  { destruct l as [| |o]; cbn [deliver].
    - rewrite handleMessage_ignores; [done|]. right. by rewrite Hrid.
    - cbn. by rewrite onMessage_bridge.
    - done. }
  destruct (IH (deliver now data x l)) as [Hp' Hb']; [by rewrite Hb|].
  split; congruence.
Qed.

(** Claim C5.  In a page a client can get to, let the timer of a request
    fire, which it can only while no answer has cleared it.  Then the
    promise [sendMessageWithResponse] returned for the request is
    rejected with the timeout error, and the entry of the request's
    identifier is gone from [pendingRequests].  A message with that
    identifier that arrives next changes neither the promises nor the
    pending requests, and whatever happens afterwards the promise stays
    rejected with the timeout error: it is settled once. *)
Theorem timeout_rejects_and_late_response_is_ignored (now : Z) (x : World)
    (t : nat) (cb : TimerCallback) :
  reachable x → timers (window x) !! t = Some cb →
  ∃ x' rid,
    step now (Timer t) x = Some x' ∧
    requestId (cb_message cb) = Some rid ∧
    promises (window x') !! cb_reject cb =
      Some (Rejected (timeout_error cb (bridge (client x)))) ∧
    pendingRequests (bridge (client x')) !! rid = None ∧
    timers (window x') !! t = None ∧
    (∀ now' data, inbound_requestId data = Some rid →
       promises (window (dispatch now' data x')) = promises (window x') ∧
       pendingRequests (bridge (client (dispatch now' data x'))) =
         pendingRequests (bridge (client x'))) ∧
    (∀ turns x'', run turns x' = Some x'' →
       promises (window x'') !! cb_reject cb =
         Some (Rejected (timeout_error cb (bridge (client x))))).
Proof.
  intros Hreach Hcb. pose proof (reachable_inv x Hreach) as Hx.
  destruct (step now (Timer t) x) as [x'|] eqn:Hstep.
  2:{ cbn in Hstep. unfold fire in Hstep. by rewrite Hcb in Hstep. }
  destruct (step_inv _ _ _ _ Hx Hstep) as [Hx' _].
  cbn [step] in Hstep. unfold fire in Hstep. rewrite Hcb in Hstep.
  cbn [mbind option_bind] in Hstep.
  destruct Hx as [Hinv _].
  pose proof (timer_callback_inv t cb _ _ Hinv Hcb) as H. cbn zeta in H.
  pose proof (timer_callback_eq cb (bridge (client x)) (clearTimeout t (window x))) as Heq.
  destruct (timer_callback _ _ _) as [b w]. cbn [fst snd] in H.
  destruct H as (_ & _ & _ & _ & Hrej & rid & Hrid & Hne & Hgone).
  injection Hstep as <-. cbn [window client bridge with_bridge].
  eexists. exists rid. split; [reflexivity|]. cbn [window client bridge with_bridge].
  split_and!; try done.
  - injection Heq as _ ->. unfold reject.
    destruct (settle_other (cb_reject cb) (Rejected (timeout_error cb (bridge (client x))))
                (clearTimeout t (window x))) as (-> & _).
    apply lookup_delete_eq.
  - intros now' data Hdata. by apply (dispatch_ignored now' data rid).
  - intros turns x'' Hrun.
    destruct (run_inv turns _ _ Hx' Hrun) as [_ Hkeep].
    by apply Hkeep.
Qed.

(** Observers only record. *)
Lemma deliver_observers now data os x :
  let x' := foldl (deliver now data) x (Observer <$> os) in
  client x' = client x ∧ promises (window x') = promises (window x) ∧
  timers (window x') = timers (window x) ∧
  observed (window x') = observed (window x) ++ ((λ o, (o, data)) <$> os).
Proof.
  cbn zeta. revert x. induction os as [|o os IH]; intros x.
  - cbn. by rewrite app_nil_r.
  - rewrite !fmap_cons. cbn [foldl]. destruct (IH (deliver now data x (Observer o))) as (-> & -> & -> & ->).
    cbn. by rewrite <- app_assoc.
Qed.

(** Claim C6, as amended.  For a valid inbound message whose [requestId]
    matches an entry of [pendingRequests], [handleMessage] fulfils the
    promise of that request with the payload, removes the entry and
    clears the timer.  The message event is not withheld from anyone: the
    client's listener handles it, and every listener added through
    [addEventListener], being registered on [window] itself, is called
    with it. *)
Theorem response_is_consumed_and_still_dispatched (now : Z) (x : World)
    (data : Value) (rid : string) (e : PendingRequest) :
  reachable x →
  validateMessage data = true →
  inbound_requestId data = Some rid →
  pendingRequests (bridge (client x)) !! rid = Some e →
  ∃ x' os,
    step now (Message data) x = Some x' ∧
    listeners_for "message" (window x) =
      HandleMessage :: ClientListener :: (Observer <$> os) ∧
    promises (window x') !! pr_resolve e =
      Some (Fulfilled (response_payload data (bridge (client x)))) ∧
    pendingRequests (bridge (client x')) !! rid = None ∧
    timers (window x') !! pr_timer e = None ∧
    observed (window x') = observed (window x) ++ ((λ o, (o, data)) <$> os) ∧
    stateManager (client x') = stateManager (onMessage now data (client x)).
Proof.
  intros Hreach Hv Hrid He.
  destruct (reachable_inv x Hreach) as [Hinv [os Hos]].
  eexists. exists os. split; [reflexivity|]. split; [done|].
  unfold dispatch. rewrite Hos. cbn [foldl].
  destruct (handleMessage_consumes data _ (window x) rid e Hv Hrid He) as (b' & Hh & Hb' & _).
  assert (deliver now data (deliver now data x HandleMessage) ClientListener =
          {| window := resolve (pr_resolve e) (response_payload data (bridge (client x)))
                         (clearTimeout (pr_timer e) (window x));
             client := onMessage now data (with_bridge b' (client x));
             suspended := suspended x; returned := returned x |}) as ->.
  { cbn [deliver]. by rewrite Hh. }
  destruct (deliver_observers now data os
              {| window := resolve (pr_resolve e) (response_payload data (bridge (client x)))
                             (clearTimeout (pr_timer e) (window x));
                 client := onMessage now data (with_bridge b' (client x));
                 suspended := suspended x; returned := returned x |})
    as (-> & -> & -> & ->).
  cbn [window client]. rewrite onMessage_with_bridge. cbn [bridge with_bridge stateManager].
  destruct (inv_pending _ _ Hinv _ _ He) as (cb & Hcb & Hrej & _).
  destruct (inv_timers _ _ Hinv _ _ Hcb) as (_ & Hp & _).
  unfold resolve.
  destruct (settle_other (pr_resolve e) (Fulfilled (response_payload data (bridge (client x))))
              (clearTimeout (pr_timer e) (window x))) as (-> & _ & _ & _ & -> & _).
  rewrite settle_lookup, decide_True by done. cbn.
  rewrite <- Hrej, Hp, Hb', !lookup_delete_eq. done.
Qed.

(** ** Casting and connecting *)

Local Opaque State.setState.

(** Rewriting the fields read after the client's updates. *)
Ltac read_fields :=
  repeat first
    [ rewrite read_startCasting_begin
    | rewrite read_handleError
    | rewrite read_setState
    | rewrite read_log ];
  repeat (simpl (obj_get _ _)); repeat (case_decide; try congruence); cbn iota.

Ltac solve_exclusive :=
  unfold exclusive in *; read_fields;
  first [ assumption | reflexivity | apply andb_false_r ].

Lemma exclusive_state c1 c2 :
  State.state (stateManager c1) = State.state (stateManager c2) →
  exclusive c1 → exclusive c2.
Proof. unfold exclusive. intros H. by rewrite !(read_state _ c1 c2 H). Qed.

Lemma handleError_exclusive now msg error c :
  exclusive c → exclusive (handleError now msg error c).
Proof. unfold exclusive. by read_fields. Qed.

Lemma onMessage_exclusive now data c : exclusive c → exclusive (onMessage now data c).
Proof.
  intros Hc. unfold onMessage, or_array.
  repeat (match goal with
          | |- context [if ?b then _ else _] => destruct b
          | |- context [match ?o with Some _ => _ | None => _ end] => destruct o
          end);
    cbn [empty_array object]; unfold exclusive in *; read_fields; done.
Qed.

Lemma resume_method_exclusive now m s c :
  exclusive c → exclusive (resume_method now m s c).2.
Proof.
  intros Hc. destruct m, s as [v|error];
    cbn [resume_method signalReady_resume scanForDevices_resume
         startCasting_resume stopCasting_resume sendStateUpdate_resume snd].
  - unfold or_array.
    destruct (get v "payload") as [p|]; [destruct (truthy _)|];
      cbn [new_Error object empty_array snd].
    + solve_exclusive.
    + solve_exclusive.
    + unfold signalReady_catch. apply handleError_exclusive. solve_exclusive.
  - unfold signalReady_catch. apply handleError_exclusive. exact Hc.
  - exact Hc.
  - unfold scanForDevices_catch. apply handleError_exclusive. solve_exclusive.
  - exact Hc.
  - unfold startCasting_catch. apply handleError_exclusive. solve_exclusive.
  - solve_exclusive.
  - unfold stopCasting_catch. apply handleError_exclusive. exact Hc.
  - exact Hc.
  - unfold sendStateUpdate_catch. apply handleError_exclusive. exact Hc.
Qed.

(** The client after [send]: the client before it with the bridge
    updated, or the [catch] block applied to that. *)
Lemma send_client message failed c w :
  let r := send message failed c w in
  (∃ b, r.1.2 = with_bridge b c) ∨ (∃ b error, r.1.2 = failed error (with_bridge b c)).
Proof.
  cbn zeta. unfold send.
  destruct (sendMessageWithResponse _ _ _ _) as [[[error|p] b] w1]; cbn; eauto.
Qed.

Lemma send_exclusive message failed c w :
  (∀ error c, exclusive c → exclusive (failed error c)) →
  exclusive c → exclusive (send message failed c w).1.2.
Proof.
  intros Hfailed Hc.
  destruct (send_client message failed c w) as [[b ->]|(b & error & ->)].
  - by apply (exclusive_state c).
  - apply Hfailed. by apply (exclusive_state c).
Qed.

Lemma call_exclusive now a x x' :
  match a with
  | CallSignalReady _ _ | CallScanForDevices _ | CallStartCasting _ _ _
  | CallStopCasting _ | CallSendStateUpdate _ _ => True
  | _ => False
  end →
  allowed a x → exclusive (client x) → step now a x = Some x' → exclusive (client x').
Proof.
  intros Hcall Hallowed Hx.
  destruct a; try done; cbn [step]; intros [= <-]; unfold call.
  - match goal with |- context [signalReady_call ?n ?g ?p ?c ?w] =>
      assert (exclusive (signalReady_call n g p c w).1.2) as H end.
    { unfold signalReady_call. cbn [object]. apply send_exclusive.
      - intros. by apply handleError_exclusive.
      - apply (exclusive_state (client x)); [reflexivity | assumption]. }
    by destruct (signalReady_call _ _ _ _ _) as [[[] ?] ?].
  - match goal with |- context [scanForDevices_call ?n ?g ?c ?w] =>
      assert (exclusive (scanForDevices_call n g c w).1.2) as H end.
    { unfold scanForDevices_call, scanForDevices_begin. cbn [object]. apply send_exclusive.
      - intros error c Hc. apply handleError_exclusive. solve_exclusive.
      - apply (exclusive_state (setState [("isScanning", VBool true)] (client x)));
          [reflexivity | solve_exclusive]. }
    by destruct (scanForDevices_call _ _ _ _) as [[[] ?] ?].
  - match goal with |- context [startCasting_call ?n ?g ?d ?o ?c ?w] =>
      assert (exclusive (startCasting_call n g d o c w).1.2) as H end.
    { unfold startCasting_call, or_object.
      assert (exclusive (startCasting_begin now deviceId opts (client x))) as Hb.
      { cbn [allowed] in Hallowed. unfold field in Hallowed.
        unfold exclusive. read_fields. by rewrite Hallowed. }
      destruct (truthy (initialState opts)); cbn [object]; apply send_exclusive;
        try (apply (exclusive_state (startCasting_begin now deviceId opts (client x)));
             [reflexivity | assumption]);
        intros error c Hc; apply handleError_exclusive; solve_exclusive. }
    by destruct (startCasting_call _ _ _ _ _ _) as [[[] ?] ?].
  - match goal with |- context [stopCasting_call ?n ?g ?c ?w] =>
      assert (exclusive (stopCasting_call n g c w).1.2) as H end.
    { unfold stopCasting_call, getState. cbn [State.getState].
      destruct (negb _).
      - apply (exclusive_state (client x)); [reflexivity | assumption].
      - cbn [object]. apply send_exclusive.
        + intros. by apply handleError_exclusive.
        + apply (exclusive_state (client x)); [reflexivity | assumption]. }
    by destruct (stopCasting_call _ _ _ _) as [[[] ?] ?].
  - match goal with |- context [sendStateUpdate_call ?n ?g ?s ?c ?w] =>
      assert (exclusive (sendStateUpdate_call n g s c w).1.2) as H end.
    { unfold sendStateUpdate_call, getState. cbn [State.getState].
      destruct (negb _).
      - apply (exclusive_state (client x)); [reflexivity | assumption].
      - cbn [object]. apply send_exclusive.
        + intros. by apply handleError_exclusive.
        + apply (exclusive_state (client x)); [reflexivity | assumption]. }
    by destruct (sendStateUpdate_call _ _ _ _ _) as [[[] ?] ?].
Qed.

Lemma step_exclusive now a x x' :
  allowed a x → exclusive (client x) → step now a x = Some x' → exclusive (client x').
Proof.
  intros Hallowed Hx.
  destruct a; try (by apply call_exclusive); cbn [step].
  - intros [= <-]. cbn [client]. unfold resetError. solve_exclusive.
  - intros [= <-]. apply (exclusive_state (client x)); [reflexivity | assumption].
  - intros [= <-]. exact Hx.
  - intros [= <-]. unfold dispatch.
    generalize (listeners_for "message" (window x)) as ls. intros ls. revert x Hx Hallowed.
    induction ls as [|l ls IH]; intros x Hx _; cbn [foldl]; [done|].
    apply IH; [|done]. destruct l as [| |o]; cbn [deliver].
    + destruct (handleMessage _ _ _).
      apply (exclusive_state (client x)); [reflexivity | assumption].
    + by apply onMessage_exclusive.
    + exact Hx.
  - unfold fire. destruct (timers (window x) !! t) as [cb|]; [|done].
    cbn [mbind option_bind]. destruct (timer_callback _ _ _). intros [= <-].
    apply (exclusive_state (client x)); [reflexivity | assumption].
  - unfold resume. destruct (list_find _ _) as [[i task]|]; [|done].
    cbn [mbind option_bind].
    destruct (promises (window x) !! p ≫= settlement) as [s|]; [|done].
    cbn [mbind option_bind].
    pose proof (resume_method_exclusive now (method task) s (client x) Hx) as H.
    destruct (resume_method _ _ _ _). by intros [= <-].
Qed.

Lemma boot_exclusive now userAgent opts : exclusive (client (boot now userAgent opts)).
Proof. reflexivity. Qed.

(** Claim C2, as amended.  Starting from the initial state, along every
    run in which [startCasting] is not called while [isCasting] is true,
    [isCasting] and [isConnecting] are never both true, in settled pages
    and in pages with suspended calls alike. *)
Theorem casting_and_connecting_exclusive (now : Z) (userAgent : option string)
    (opts : CastClientOptions) (turns : list (Z * Action)) (x : World) :
  run turns (boot now userAgent opts) = Some x →
  disciplined turns (boot now userAgent opts) →
  truthy (field "isCasting" x) && truthy (field "isConnecting" x) = false.
Proof.
  generalize (boot_exclusive now userAgent opts).
  generalize (boot now userAgent opts) as x0. intros x0. revert x0.
  induction turns as [|[now' a] turns IH]; intros x0 Hx0; cbn [run disciplined].
  - by intros [= <-] _.
  - destruct (step now' a x0) as [x1|] eqn:Hstep; [|done]. cbn [mbind option_bind].
    intros Hrun [Hallowed Hrest]. apply (IH x1); [|done..].
    by apply (step_exclusive now' a x0).
Qed.

Lemma after_run turns x : run turns page = Some x → after turns = x.
Proof. unfold after. by intros ->. Qed.

Lemma after_reachable turns : is_Some (run turns page) → reachable (after turns).
Proof.
  intros [x Hx]. exists 0%Z, None, Client.DEFAULT_OPTIONS, turns.
  by rewrite (after_run _ _ Hx).
Qed.

(** C2: both flags are true in a settled page. *)
Lemma casting_and_connecting_both_true :
  let x := after second_start in
  run second_start page = Some x ∧
  settled x ∧
  returned x = [Fulfilled VUndefined; Fulfilled VUndefined] ∧
  field "isCasting" x = VBool true ∧
  field "isConnecting" x = VBool true ∧
  truthy (field "isCasting" x) && truthy (field "isConnecting" x) = true.
Proof. cbn zeta. split_and!; vm_compute; reflexivity. Qed.

(** C3: the device cast to is still marked connected after the stop. *)
Lemma stopCasting_leaves_device_connected :
  let x0 := after casting in
  let x := after (casting ++ stop_acknowledged) in
  field "sessionId" x0 = VStr "s-1" ∧
  field "deviceId" x0 = VStr "tv-1" ∧
  run stop_acknowledged x0 = Some x ∧
  returned x = [Fulfilled VUndefined] ∧
  field "sessionId" x = VNull ∧
  ∃ d, find_device "tv-1" (field "devices" x) = Some d ∧
       get d "isConnected" = Some (VBool true).
Proof.
  cbn zeta. split_and!; try (vm_compute; reflexivity).
  eexists. split; vm_compute; reflexivity.
Qed.

(** C6: a listener added through the bridge is called with the answer
    that resolved the pending request. *)
Lemma consumed_response_reaches_listener :
  let x0 := after scan_requested in
  let x := after (scan_requested ++ [(3%Z, Message (scan_answer 0 "r1"))]) in
  validateMessage (scan_answer 0 "r1") = true ∧
  inbound_requestId (scan_answer 0 "r1") = Some "r1" ∧
  is_Some (pendingRequests (bridge (client x0)) !! "r1") ∧
  ("message", Observer 7) ∈ event_listeners (window x0) ∧
  step 3 (Message (scan_answer 0 "r1")) x0 = Some x ∧
  promises (window x) !! 0%nat = Some (Fulfilled (VObj (RExt 1) [])) ∧
  pendingRequests (bridge (client x)) !! "r1" = None ∧
  observed (window x0) = [] ∧
  observed (window x) = [(7%nat, scan_answer 0 "r1")].
Proof.
  cbn zeta. split_and!; try (vm_compute; reflexivity).
  - vm_compute. by eexists.
  - vm_compute. do 2 right. left.
Qed.


(** ** The theorems at work *)

Lemma stopCasting_success_clears_session_witness :
  let x := after stop_answered in
  let task := {| awaited := 0; method := StopCasting; future := 0 |} in
  (list_find (λ t, awaited t = 0%nat) (suspended x) = Some (0%nat, task) ∧
   promises (window x) !! 0%nat = Some (Fulfilled (VObj (RExt 7) []))) ∧
  ∃ x', step 5 (Resume 0) x = Some x' ∧
    field "isCasting" x' = VBool false ∧
    field "isConnecting" x' = VBool false ∧
    field "deviceId" x' = VNull ∧
    field "deviceName" x' = VNull ∧
    field "sessionId" x' = VNull ∧
    field "devices" x' = field "devices" x ∧
    returned x' = <[future task := Fulfilled VUndefined]> (returned x).
Proof.
  cbn zeta. split.
  - split; vm_compute; reflexivity.
  - apply (stopCasting_success_clears_session 5 (after stop_answered) 0 0 _
             (VObj (RExt 7) [])); vm_compute; reflexivity.
Defined.

Lemma stopCasting_without_session_is_noop_witness :
  field "sessionId" page = VNull ∧
  ∃ x', step 1 (CallStopCasting "r1") page = Some x' ∧
    returned x' = returned page ++ [Fulfilled VUndefined] ∧
    suspended x' = suspended page ∧
    window x' = window page ∧
    bridge (client x') = bridge (client page) ∧
    State.state (stateManager (client x')) = State.state (stateManager (client page)) ∧
    State.calls (stateManager (client x')) = State.calls (stateManager (client page)) ∧
    field "error" x' = field "error" page.
Proof.
  split; [reflexivity|].
  apply (stopCasting_without_session_is_noop 1 "r1" page). reflexivity.
Defined.

Lemma timeout_rejects_and_late_response_is_ignored_witness :
  let x := after start_requested in
  let cb :=
    {| cb_message :=
         {| type := "CAST_START_SESSION";
            payload := VObj (RClient 6)
                         [ ("deviceId", VStr "tv-1");
                           ("initialState", VObj (RClient 5) []) ];
            requestId := Some "r1" |};
       cb_timeout := 5000; cb_reject := 0 |} in
  timers (window x) !! 0%nat = Some cb ∧
  ∃ x' rid,
    step 2 (Timer 0) x = Some x' ∧
    requestId (cb_message cb) = Some rid ∧
    promises (window x') !! cb_reject cb =
      Some (Rejected (timeout_error cb (bridge (client x)))) ∧
    pendingRequests (bridge (client x')) !! rid = None ∧
    timers (window x') !! 0%nat = None ∧
    (∀ now' data, inbound_requestId data = Some rid →
       promises (window (dispatch now' data x')) = promises (window x') ∧
       pendingRequests (bridge (client (dispatch now' data x'))) =
         pendingRequests (bridge (client x'))) ∧
    (∀ turns x'', run turns x' = Some x'' →
       promises (window x'') !! cb_reject cb =
         Some (Rejected (timeout_error cb (bridge (client x))))).
Proof.
  cbn zeta. split; [vm_compute; reflexivity|].
  apply (timeout_rejects_and_late_response_is_ignored 2 (after start_requested) 0).
  - apply after_reachable. vm_compute. by eexists.
  - vm_compute. reflexivity.
Defined.

Lemma response_is_consumed_and_still_dispatched_witness :
  let x := after scan_requested in
  let data := scan_answer 0 "r1" in
  let e := {| pr_resolve := 0; pr_reject := 0; pr_timer := 0 |} in
  (validateMessage data = true ∧ inbound_requestId data = Some "r1" ∧
   pendingRequests (bridge (client x)) !! "r1" = Some e) ∧
  ∃ x' os,
    step 3 (Message data) x = Some x' ∧
    listeners_for "message" (window x) =
      HandleMessage :: ClientListener :: (Observer <$> os) ∧
    promises (window x') !! pr_resolve e =
      Some (Fulfilled (response_payload data (bridge (client x)))) ∧
    pendingRequests (bridge (client x')) !! "r1" = None ∧
    timers (window x') !! pr_timer e = None ∧
    observed (window x') = observed (window x) ++ ((λ o, (o, data)) <$> os) ∧
    stateManager (client x') = stateManager (onMessage 3 data (client x)).
Proof.
  cbn zeta. split; [split_and!; vm_compute; reflexivity|].
  apply (response_is_consumed_and_still_dispatched 3 (after scan_requested)
           (scan_answer 0 "r1") "r1").
  - apply after_reachable. vm_compute. by eexists.
  - vm_compute. reflexivity.
  - vm_compute. reflexivity.
  - vm_compute. reflexivity.
Defined.

Lemma casting_and_connecting_exclusive_witness :
  let x := after first_start in
  (run first_start page = Some x ∧ disciplined first_start page) ∧
  truthy (field "isCasting" x) && truthy (field "isConnecting" x) = false.
Proof.
  cbn zeta.
  assert (Hrun : run first_start (boot 0 None Client.DEFAULT_OPTIONS) =
                 Some (after first_start)) by (vm_compute; reflexivity).
  assert (Hok : disciplined first_start (boot 0 None Client.DEFAULT_OPTIONS))
    by (vm_compute; split_and!; reflexivity).
  split; [by split|].
  exact (casting_and_connecting_exclusive 0 None Client.DEFAULT_OPTIONS
           first_start (after first_start) Hrun Hok).
Defined.

Lemma connecting_event_changes_nothing_witness :
  let data := session_event 0 "connecting" "tv-1" "TV" "s-1" in
  ∃ x', step 1 (Message data) page = Some x' ∧
    stateManager (client x') = stateManager (client page) ∧
    ∀ k, field k x' = field k page.
Proof.
  cbn zeta.
  apply (connecting_event_changes_nothing 1 page
           (session_event 0 "connecting" "tv-1" "TV" "s-1")
           (VObj (RExt 1)
              [ ("status", VStr "connecting"); ("deviceId", VStr "tv-1");
                ("deviceName", VStr "TV"); ("sessionId", VStr "s-1");
                ("error", VNull) ])); reflexivity.
Defined.

End Client_properties.

(* ===================================================================== *)
(** * More of the state manager *)
(* ===================================================================== *)

Section StateManager_equality.
Import JS State Context.

Lemma strict_eq_refl v : v ≠ VNaN → strict_eq v v = true.
Proof. destruct v; try done; intros _; cbn; by apply bool_decide_eq_true. Qed.

Lemma strict_eq_sym a b : strict_eq a b = strict_eq b a.
Proof.
  destruct a, b; cbn; try done; apply bool_decide_ext; split; congruence.
Qed.

(** X1.  [isEqual] holds of a value and itself, [NaN] apart. *)
Theorem isEqual_reflexive_except_NaN (v : Value) :
  isEqual v v = true ↔ v ≠ VNaN.
Proof.
  split.
  - intros H ->. discriminate H.
  - intros H. by rewrite isEqual_unfold, strict_eq_refl.
Qed.


(** X3.  [isEqual] sees the own enumerable properties only: two objects,
    arrays or [Error]s with the same properties, in any order, none of
    them [NaN], are equal to it.  So an array equals the object with its
    index properties, and any two [Error]s are equal. *)
Theorem isEqual_same_properties (a b : Value) :
  object_like a = true → object_like b = true → wf a → wf b →
  own_entries a ≡ₚ own_entries b → VNaN ∉ (own_entries a).*2 →
  isEqual a b = true.
Proof.
  intros Hma Hmb Hwa Hwb Hperm Hnan.
  apply alike_isEqual; [|done..].
  apply alike_objects; [done|done| |].
  - intros k. rewrite !own_is_Some. unfold keys. by rewrite Hperm.
  - intros k x y Hx Hy.
    pose proof (obj_get_Some_elem _ _ _ Hx) as Hin.
    rewrite Hperm in Hin. rewrite (own_elem b k x Hwb Hin) in Hy.
    injection Hy as <-. apply alike_identical, strict_eq_refl.
    intros ->. apply Hnan.
    apply (list_elem_of_fmap_2 snd _ (k, VNaN)).
    by apply obj_get_Some_elem.
Qed.

(** X4.  [deepEqual] of [react/context.tsx] and [isEqual] of the state
    manager are the same function: the test for [undefined] that
    [isEqual] has besides never decides. *)
Theorem deepEqual_isEqual (a b : Value) : deepEqual a b = isEqual a b.
Proof.
  revert b. induction a using Value_components_ind; intros y;
    cbn [deepEqual isEqual]; try done.
  all: destruct (strict_eq _ y) eqn:Hs; [done|].
  all: try (destruct y; done).
  all: destruct y; try done; cbn [strict_eq orb typeof truthy negb];
    rewrite !bool_decide_true by done; cbn [negb orb];
    (destruct (bool_decide (length _ = length _)); cbn [negb]; [|done]).
  1-3: generalize 0 as n; induction H as [|x l Hx _ IH]; intros n; [done|];
    rewrite Hx, IH; done.
  all: induction H as [|[k x] l Hx _ IH]; [done|];
    cbn [snd] in Hx; rewrite Hx, IH; done.
Qed.

End StateManager_equality.

Section StateManager_subscriptions.
Import JS State.

Lemma global_calls_app l cs1 cs2 :
  global_calls l (cs1 ++ cs2) = global_calls l cs1 + global_calls l cs2.
Proof. unfold global_calls. by rewrite filter_app, length_app. Qed.

Lemma notifySelectors_selected st es c :
  c ∈ (notifySelectors st es).2 → ∃ s l v, c = CallSelected s l v.
Proof.
  rewrite notifySelectors_split. cbn [snd].
  induction es as [|e es IH]; csimpl; [by intros ?%elem_of_nil|].
  intros [Hin|Hin]%elem_of_app; [|by apply IH].
  rewrite notifySelector_snd in Hin.
  destruct (isEqual _ _); [by apply elem_of_nil in Hin|].
  apply list_elem_of_fmap in Hin as (l & -> & _). by do 3 eexists.
Qed.

Lemma global_calls_selected l st es : global_calls l (notifySelectors st es).2 = 0.
Proof.
  rewrite notifySelectors_split. cbn [snd].
  induction es as [|e es IH]; [done|]. csimpl.
  rewrite global_calls_app, IH, notifySelector_snd.
  destruct (isEqual _ _); [done|].
  unfold global_calls. by induction (sel_listeners e.2).
Qed.

(** How often [l] occurs among the listeners: once at most in a set. *)
Lemma occurrences_NoDup (l : nat) ls :
  NoDup ls → length (filter (λ l', l' = l) ls) = if bool_decide (l ∈ ls) then 1 else 0.
Proof.
  induction 1 as [|l' ls Hl' Hnd IH]; [done|].
  destruct (decide (l' = l)) as [->|Hne].
  - rewrite filter_cons_True by done. rewrite bool_decide_true by left. cbn.
    rewrite IH. by rewrite bool_decide_false.
  - rewrite filter_cons_False by done. rewrite IH.
    apply (f_equal (λ b : bool, if b then 1 else 0)).
    apply bool_decide_ext. rewrite elem_of_cons.
    split; [by right | by intros [?|?]].
Qed.

Lemma occurrences_absent (l : nat) ls :
  l ∉ ls → length (filter (λ l', l' = l) ls) = 0.
Proof.
  induction ls as [|l' ls IH]; [done|]. intros [Hne Hl]%not_elem_of_cons.
  rewrite filter_cons_False by done. by apply IH.
Qed.

Lemma global_calls_cons l l0 v cs :
  global_calls l (CallListener l0 v :: cs) =
    length (filter (λ l', l' = l) [l0]) + global_calls l cs.
Proof.
  unfold global_calls. destruct (decide (l0 = l)) as [->|Hne].
  - rewrite filter_cons_True by (cbn; by rewrite bool_decide_true).
    by rewrite filter_cons_True.
  - rewrite filter_cons_False by (cbn; by rewrite bool_decide_false).
    by rewrite filter_cons_False.
Qed.

(** The first loop of [notifyListeners]: one call for every listener,
    with a copy of the state. *)
Lemma notifyGlobal_appends ls m :
  ∃ cs, calls (notifyGlobal ls m) = calls m ++ cs ∧
    (∀ l, global_calls l cs = length (filter (λ l', l' = l) ls)) ∧
    (∀ l v, CallListener l v ∈ cs → ∃ n, v = spread1 n (state m)).
Proof.
  revert m. induction ls as [|l0 ls IH]; intros m; cbn [notifyGlobal getState].
  - exists []. rewrite app_nil_r. split_and!; [done|done|]. by intros ?? ?%elem_of_nil.
  - edestruct IH as (cs & -> & Hcount & Hargs). cbn [calls state] in *.
    exists (CallListener l0 (spread1 (next_ref m) (state m)) :: cs).
    rewrite <- app_assoc. split_and!; [done| |].
    + intros l. rewrite global_calls_cons, Hcount, <- length_app, <- filter_app. done.
    + intros l v [[= -> ->]|Hin]%elem_of_cons; [by eexists|]. by apply (Hargs l).
Qed.

Lemma compute_updates_frame u m :
  state (compute_updates u m).2 = state m ∧
  listeners (compute_updates u m).2 = listeners m ∧
  selectors (compute_updates u m).2 = selectors m ∧
  calls (compute_updates u m).2 = calls m.
Proof. by destruct u. Qed.

(** The calls one [setState] makes. *)
Lemma setState_appends u m :
  ∃ cs, calls (setState u m) = calls m ++ cs ∧
    (∀ l, global_calls l cs = length (filter (λ l', l' = l) (listeners m))) ∧
    (∀ l v, CallListener l v ∈ cs → ∃ n, v = spread1 n (state (setState u m))).
Proof.
  pose proof (notifyListeners_state) as Hst.
  unfold setState in *.
  destruct (compute_updates u m) as [p m1] eqn:Hu.
  destruct (compute_updates_frame u m) as (_ & Hl & _ & Hc). rewrite Hu in Hl, Hc.
  cbn [snd] in Hl, Hc. rewrite Hst. unfold notifyListeners.
  set (m2 := {| state := spread2 (next_ref m1) (state m1) p; listeners := listeners m1;
                selectors := selectors m1; next_ref := S (next_ref m1);
                calls := calls m1 |}).
  destruct (notifyGlobal_state (listeners m2) m2) as (Hst2 & _ & Hsels).
  destruct (notifyGlobal_appends (listeners m2) m2) as (cs & Hcs & Hcount & Hargs).
  pose proof (global_calls_selected) as Hsel.
  specialize (Hsel) with (st := state (notifyGlobal (listeners m2) m2))
                         (es := selectors (notifyGlobal (listeners m2) m2)).
  destruct (notifySelectors _ _) as [es cs'] eqn:Hn. cbn [snd] in Hsel.
  cbn [calls state]. rewrite Hcs. cbn [calls m2]. rewrite Hc, <- app_assoc.
  exists (cs ++ cs'). split_and!; [done| |].
  - intros l. by rewrite global_calls_app, Hsel, Hcount, Nat.add_0_r, <- Hl.
  - intros l v [Hin|Hin]%elem_of_app; [by apply (Hargs l)|].
    pose proof (notifySelectors_selected
                  (state (notifyGlobal (listeners m2) m2))
                  (selectors (notifyGlobal (listeners m2) m2)) (CallListener l v)) as H.
    rewrite Hn in H. by destruct (H Hin) as (? & ? & ? & ?).
Qed.

Lemma setState_listeners u m : listeners (setState u m) = listeners m.
Proof.
  unfold setState. destruct (compute_updates u m) as [p m1] eqn:Hu.
  destruct (compute_updates_frame u m) as (_ & Hl & _). rewrite Hu in Hl.
  unfold notifyListeners. destruct (notifySelectors _ _). cbn [listeners].
  by rewrite (proj1 (proj2 (notifyGlobal_state _ _))).
Qed.

(** X5.  [setState] calls every subscribed listener once, whether the update
    changes the state or not, with an object that has the properties of
    the new state; it calls no listener that is not subscribed. *)
Theorem setState_calls_every_subscriber (u : Updater) (m : StateManager) :
  NoDup (listeners m) →
  ∃ cs, calls (setState u m) = calls m ++ cs ∧
    (∀ l, global_calls l cs = if bool_decide (l ∈ listeners m) then 1 else 0) ∧
    (∀ l v, CallListener l v ∈ cs →
       ∀ k, own v k = own (state (setState u m)) k).
Proof.
  intros Hnd. destruct (setState_appends u m) as (cs & Hcs & Hcount & Hargs).
  exists cs. split_and!; [done| |].
  - intros l. by rewrite Hcount, occurrences_NoDup.
  - intros l v Hin k. destruct (Hargs l v Hin) as [n ->].
    destruct (setState_state u m) as [n' ->]. apply spread1_spread2.
Qed.

Lemma set_delete_absent (l : nat) ls : l ∉ ls → set_delete l ls = ls.
Proof.
  intros Hl. unfold set_delete. induction ls as [|l' ls IH]; [done|].
  apply not_elem_of_cons in Hl as [Hne Hl].
  rewrite filter_cons_True by done. by rewrite IH.
Qed.

Lemma set_delete_add (l : nat) ls : l ∉ ls → set_delete l (set_add l ls) = ls.
Proof.
  intros Hl. unfold set_add. rewrite bool_decide_false by done.
  unfold set_delete. rewrite filter_app, filter_cons_False by (intros H; by apply H).
  rewrite filter_nil, app_nil_r. by apply set_delete_absent.
Qed.

(** X6.  Subscribing a listener that is not subscribed and calling the
    function [subscribe] returned gives the manager back. *)
Theorem subscribe_unsubscribe_round_trip (l : nat) (m : StateManager) :
  l ∉ listeners m → unsubscribe l (subscribe l m) = m.
Proof.
  intros Hl. unfold unsubscribe, subscribe. cbn [listeners state selectors next_ref calls].
  rewrite set_delete_add by done. by destruct m.
Qed.

(** X7.  Once the function [subscribe] returned has been called the listener
    is not called again, whatever updates follow, and however often it
    had been subscribed. *)
Theorem unsubscribed_listener_is_not_called (l : nat) (us : list Updater)
    (m : StateManager) :
  global_calls l (calls (foldl (λ m u, setState u m) (unsubscribe l m) us)) =
    global_calls l (calls m).
Proof.
  assert (H : ∀ m', l ∉ listeners m' →
            global_calls l (calls (foldl (λ m u, setState u m) m' us)) =
              global_calls l (calls m')).
  { induction us as [|u us IH]; intros m' Hl; [done|]. cbn [foldl].
    rewrite IH by (by rewrite setState_listeners).
    destruct (setState_appends u m') as (cs & -> & Hcount & _).
    rewrite global_calls_app, Hcount, occurrences_absent by done. lia. }
  rewrite H; [done|]. cbn. unfold set_delete.
  intros Hin%list_elem_of_filter. by destruct Hin.
Qed.

Lemma omap_fmap_inverse {A} (f : A → option A) (g : A → A) (es : list A) :
  Forall (λ e, f (g e) = Some e) es → omap f (g <$> es) = es.
Proof.
  induction 1 as [|e es He _ IH]; [done|]. csimpl. by rewrite He, IH.
Qed.

(** X8.  Selecting with a listener that does not yet listen to the selector
    and calling the function [select] returned gives the manager back:
    an entry made for the selector is deleted again, an entry there was
    keeps its value and its listeners. *)
Theorem select_unselect_round_trip (sel : StateSelector) (l : nat)
    (m : StateManager) :
  populated m →
  (∀ e, e ∈ selectors m → selector_id e.1 = selector_id sel →
        l ∉ sel_listeners e.2) →
  unselect sel l (select sel l m) = m.
Proof.
  intros Hpop Hfresh.
  pose (g := λ e : StateSelector * SelectorState,
          if bool_decide (selector_id e.1 = selector_id sel)
          then (e.1, {| value := value e.2;
                        sel_listeners := set_add l (sel_listeners e.2) |})
          else e).
  pose (f := λ e : StateSelector * SelectorState,
          if bool_decide (selector_id e.1 = selector_id sel)
          then let ls := set_delete l (sel_listeners e.2) in
               if bool_decide (length ls = 0) then None
               else Some (e.1, {| value := value e.2; sel_listeners := ls |})
          else Some e).
  assert (Hold : Forall (λ e, f (g e) = Some e) (selectors m)).
  { apply Forall_forall. intros [s [v ls]] Hin.
    pose proof (proj1 (Forall_forall _ _) Hpop _ Hin) as Hne.
    unfold f, g. cbn [fst snd sel_listeners value] in *.
    destruct (decide (selector_id s = selector_id sel)) as [Hid|Hid].
    - rewrite (bool_decide_true _ Hid). cbn [fst snd sel_listeners value].
      rewrite (bool_decide_true _ Hid). cbn zeta.
      rewrite set_delete_add by (by apply (Hfresh _ Hin)).
      rewrite bool_decide_false; [done|]. by destruct ls.
    - rewrite (bool_decide_false _ Hid). cbn [fst snd].
      by rewrite (bool_decide_false _ Hid). }
  unfold unselect, select, selectors_listen.
  cbn [selectors state listeners next_ref calls]. fold f g.
  destruct m as [st ls es n cs]. cbn [selectors state listeners next_ref calls] in *.
  f_equal.
  destruct (selectors_get sel es); [by apply omap_fmap_inverse|].
  rewrite fmap_app, omap_app, (omap_fmap_inverse f g es Hold).
  unfold f, g. cbn [fmap list_fmap omap list_omap fst snd sel_listeners value].
  rewrite (bool_decide_true (selector_id sel = selector_id sel)) by done.
  cbn [fst snd sel_listeners value]. 
  rewrite (bool_decide_true (selector_id sel = selector_id sel)) by done.
  cbn zeta. rewrite set_delete_add by (by intros ?%elem_of_nil).
  cbn. by rewrite app_nil_r.
Qed.

(** X9.  Two updates in a row leave the state that the one update with the
    merged properties leaves. *)
Theorem setState_merges_successive_updates (p q : Value) (n : nat)
    (m : StateManager) (k : string) :
  NoDup (keys p) → NoDup (keys q) →
  own (state (setState (Partial q) (setState (Partial p) m))) k =
    own (state (setState (Partial (spread2 n p q)) m)) k.
Proof.
  intros Hp Hq.
  destruct (setState_state (Partial q) (setState (Partial p) m)) as [n2 ->].
  destruct (setState_state (Partial p) m) as [n1 ->].
  destruct (setState_state (Partial (spread2 n p q)) m) as [n3 ->].
  cbn [compute_updates fst].
  rewrite !spread2_own; try done.
  2:{ unfold keys, spread2. cbn [own_entries]. do 2 apply assign_NoDup. constructor. }
  rewrite spread1_spread2, spread2_own by done.
  assert (own (spread1 n p) k = own p k) as Hp1.
  { unfold own, spread1. cbn [own_entries]. by apply obj_get_assign_nil. }
  rewrite Hp1. by destruct (own q k), (own p k).
Qed.

End StateManager_subscriptions.

(* ===================================================================== *)
(** * More of the protocol *)
(* ===================================================================== *)

Section Protocol_properties.
Import JS Protocol.

Lemma strict_eq_VStr v s : strict_eq v (VStr s) = true → v = VStr s.
Proof. destruct v; try done. cbn. by intros ->%bool_decide_eq_true. Qed.

Lemma get_is_object v k :
  is_object v = true → get v k = Some (default VUndefined (get v k)).
Proof. by destruct v. Qed.

(** What every schema of the union asks of a message. *)
Lemma parse_extended lit ps v :
  parse (extend baseMessageSchema [("type", ZLiteral lit); ("payload", ZObject ps)]) v = true →
  is_object v = true ∧
  get v "type" = Some (VStr lit) ∧
  (∃ p, get v "payload" = Some p ∧ is_object p = true) ∧
  (get v "requestId" = Some VUndefined ∨ ∃ rid, get v "requestId" = Some (VStr rid)).
Proof.
  change (extend _ _) with
    (ZObject [("type", ZLiteral lit); ("payload", ZObject ps);
              ("requestId", ZOptional ZString)]).
  cbn [parse]. rewrite !andb_true_iff.
  intros (Hobj & Htype & [Hpayload _] & Hrid & _).
  split_and!; [done| | |].
  - rewrite (get_is_object v "type" Hobj). by rewrite (strict_eq_VStr _ _ Htype).
  - eexists. split; [by apply get_is_object | done].
  - rewrite (get_is_object v "requestId" Hobj).
    destruct (default VUndefined (get v "requestId")); try done; eauto.
Qed.

Lemma validateMessage_shape (message : Value) :
  validateMessage message = true →
  ∃ t p, get message "type" = Some (VStr t) ∧ t ∈ message_types ∧
         get message "payload" = Some p ∧ is_object p = true ∧
         (get message "requestId" = Some VUndefined ∨
          ∃ rid, get message "requestId" = Some (VStr rid)).
Proof.
  unfold validateMessage, messageSchema. cbn [parse]. rewrite !orb_true_iff.
  unfold castReadySchema, castInitializedSchema, castScanDevicesSchema,
    castDevicesUpdatedSchema, castStartSessionSchema, castSessionUpdatedSchema,
    castEndSessionSchema, castStateUpdateSchema, castStateConfirmedSchema,
    castErrorSchema.
  intros H.
  repeat (destruct H as [H|H]); try done;
    apply parse_extended in H as (_ & Ht & (p & Hp & Hobj) & Hrid);
    eexists _, p; (split_and!; [exact Ht | | exact Hp | exact Hobj | exact Hrid]);
    compute_done.
Qed.

(** X10.  A message that [validateMessage] accepts has a [type] that is one of
    the ten message types, a [payload] that is an object, and a
    [requestId] that is absent or a string; a message with any other
    [type] is rejected, whatever else it carries. *)
Theorem validateMessage_sound (message : Value) :
  (validateMessage message = true →
   ∃ t p, get message "type" = Some (VStr t) ∧ t ∈ message_types ∧
          get message "payload" = Some p ∧ is_object p = true ∧
          (get message "requestId" = Some VUndefined ∨
           ∃ rid, get message "requestId" = Some (VStr rid))) ∧
  (∀ t, get message "type" = Some t → (∀ s, s ∈ message_types → t ≠ VStr s) →
        validateMessage message = false).
Proof.
  split; [apply validateMessage_shape|].
  intros t Ht Hnot. destruct (validateMessage message) eqn:Hv; [|done].
  apply validateMessage_shape in Hv as (s & p & Hs & Hin & _).
  rewrite Ht in Hs. injection Hs as ->. by destruct (Hnot s Hin).
Qed.

End Protocol_properties.

(* ===================================================================== *)
(** * More of the bridge *)
(* ===================================================================== *)

Section Bridge_properties.
Import JS Protocol Runtime Bridge.

(** X11.  [createMessage] keeps the type, the payload and a [requestId] that
    is there, and puts the generated one where there is none or an empty
    one.  With a generated identifier that is not empty the result is a
    message [sendMessageWithResponse] takes: it does not throw, posts
    the message and registers the request under the message's own
    identifier, or else under the generated one; and [createMessage] on
    the result changes nothing.  With an empty generated identifier, on a
    message without one, the result is a message on which
    [sendMessageWithResponse] throws. *)
Theorem createMessage_requestId (generated : string) (message : BaseMessage) :
  type (createMessage generated message) = type message ∧
  payload (createMessage generated message) = payload message ∧
  (no_requestId message = false → createMessage generated message = message) ∧
  (no_requestId message = true →
     requestId (createMessage generated message) = Some generated) ∧
  (no_requestId (createMessage generated message) = true ↔
     no_requestId message = true ∧ generated = "") ∧
  (∀ generated', generated ≠ "" →
     createMessage generated' (createMessage generated message) =
       createMessage generated message) ∧
  (generated ≠ "" → ∀ t b w,
     let rid := if no_requestId message then generated else requestId_key message in
     rid ≠ "" ∧
     requestId (createMessage generated message) = Some rid ∧
     ∃ b' w',
       sendMessageWithResponse (createMessage generated message) t b w =
         (inr (next_promise w), b', w') ∧
       pendingRequests b' !! rid =
         Some {| pr_resolve := next_promise w; pr_reject := next_promise w;
                 pr_timer := next_timer w |} ∧
       posted w' =
         posted w ++ [(createMessage generated message, targetOrigin (Bridge.options b))]) ∧
  (generated = "" → no_requestId message = true → ∀ t b w,
     ∃ e b',
       sendMessageWithResponse (createMessage generated message) t b w = (inl e, b', w) ∧
       pendingRequests b' = pendingRequests b).
Proof.
  assert (Hrid : generated ≠ "" →
            let rid := if no_requestId message then generated else requestId_key message in
            rid ≠ "" ∧ requestId (createMessage generated message) = Some rid).
  { intros Hg. cbn zeta. unfold createMessage.
    destruct (no_requestId message) eqn:Hno; [done|].
    apply no_requestId_false in Hno as (rid & Hrid & Hne).
    unfold requestId_key. by rewrite Hrid. }
  split_and!.
  - unfold createMessage. by destruct (no_requestId message).
  - unfold createMessage. by destruct (no_requestId message).
  - unfold createMessage. by intros ->.
  - unfold createMessage. by intros ->.
  - unfold createMessage. destruct (no_requestId message) eqn:Hno.
    + unfold no_requestId at 1. cbn [requestId].
      rewrite bool_decide_eq_true. split; [done | by intros [_ ?]].
    + split; [by rewrite Hno | by intros [? _]].
  - intros g' Hg. unfold createMessage at 1.
    assert (no_requestId (createMessage generated message) = false) as ->; [|done].
    destruct (Hrid Hg) as [Hne Heq]. apply no_requestId_false. eauto.
  - intros Hg t b w. destruct (Hrid Hg) as [Hne Heq]. cbn zeta in *.
    split; [exact Hne|]. split; [exact Heq|].
    rewrite (sendMessageWithResponse_registers _ t b w _ Heq Hne).
    eexists _, _. split; [reflexivity|]. cbn. split; [apply lookup_insert_eq | done].
  - intros -> Hno t b w. rewrite sendMessageWithResponse_throws.
    + by eexists _, _.
    + unfold createMessage. by rewrite Hno.
Qed.

(** X12.  [sendMessageWithResponse] either throws, and then nothing is posted
    and no promise, timer or entry is made, or it returns a promise that
    is pending, with a timer and an entry of [pendingRequests] for it,
    and has posted the message.  It never returns a promise it has
    rejected. *)
Theorem sendMessageWithResponse_throws_or_registers (message : BaseMessage)
    (t : Z) (b : WebViewBridge) (w : Window) :
  (no_requestId message = true ∧
   ∃ r b', sendMessageWithResponse message t b w =
             (inl (VError r "Message must have a requestId for sendMessageWithResponse"),
              b', w) ∧
           pendingRequests b' = pendingRequests b) ∨
  (∃ rid p b' w',
     requestId message = Some rid ∧ rid ≠ "" ∧
     sendMessageWithResponse message t b w = (inr p, b', w') ∧
     promises w' !! p = Some Pending ∧
     pendingRequests b' !! rid =
       Some {| pr_resolve := p; pr_reject := p; pr_timer := next_timer w |} ∧
     timers w' !! next_timer w =
       Some {| cb_message := message; cb_timeout := t; cb_reject := p |} ∧
     posted w' = posted w ++ [(message, targetOrigin (Bridge.options b))]).
Proof.
  destruct (no_requestId message) eqn:Hno.
  - left. split; [done|]. rewrite sendMessageWithResponse_throws by done. eauto.
  - right. apply no_requestId_false in Hno as (rid & Hrid & Hne).
    rewrite (sendMessageWithResponse_registers _ _ _ _ rid Hrid Hne).
    eexists rid, _, _, _. split_and!; try done; cbn; by rewrite lookup_insert_eq.
Qed.

(** X13.  Two requests under one [requestId].  The second takes the entry of
    [pendingRequests]; when the timer of the first fires it rejects the
    first and deletes that entry, the second's; an answer that arrives
    then is ignored, and the second request is left to its timer. *)
Theorem same_requestId_requests_interfere (m1 m2 : BaseMessage) (t1 t2 : Z)
    (b : WebViewBridge) (w : Window) (rid : string) :
  requestId m1 = Some rid → requestId m2 = Some rid → rid ≠ "" →
  ∃ p1 p2 b1 w1 b2 w2 b3 w3 cb1 e,
    sendMessageWithResponse m1 t1 b w = (inr p1, b1, w1) ∧
    sendMessageWithResponse m2 t2 b1 w1 = (inr p2, b2, w2) ∧
    p1 ≠ p2 ∧
    pendingRequests b2 !! rid = Some e ∧ pr_resolve e = p2 ∧
    timers w2 !! next_timer w = Some cb1 ∧ cb_reject cb1 = p1 ∧
    timer_callback cb1 b2 (clearTimeout (next_timer w) w2) = (b3, w3) ∧
    promises w3 !! p1 = Some (Rejected (timeout_error cb1 b2)) ∧
    promises w3 !! p2 = Some Pending ∧
    pendingRequests b3 !! rid = None ∧
    ∀ data, inbound_requestId data = Some rid → handleMessage data b3 w3 = (b3, w3).
Proof.
  intros H1 H2 Hne.
  eexists (next_promise w), (S (next_promise w)), _, _, _, _, _, _, _, _.
  split; [exact (sendMessageWithResponse_registers m1 t1 b w rid H1 Hne)|].
  split; [exact (sendMessageWithResponse_registers m2 t2 _ _ rid H2 Hne)|].
  cbn [next_promise next_timer promises timers pendingRequests with_pending
       Bridge.options posted event_listeners observed].
  rewrite timer_callback_eq.
  split_and!.
  - lia.
  - apply lookup_insert_eq.
  - done.
  - rewrite lookup_insert_ne by lia. apply lookup_insert_eq.
  - done.
  - reflexivity.
  - unfold reject. rewrite settle_lookup, decide_True by done.
    cbn [clearTimeout with_timers promises cb_reject].
    rewrite lookup_insert_ne by lia. by rewrite lookup_insert_eq.
  - unfold reject. rewrite settle_lookup, decide_False by (cbn; lia).
    cbn [clearTimeout with_timers promises]. apply lookup_insert_eq.
  - cbn [pendingRequests cb_message]. unfold no_requestId, requestId_key.
    rewrite H1, bool_decide_false by done. cbn. apply lookup_delete_eq.
  - intros data Hdata. apply handleMessage_ignores. right. rewrite Hdata.
    cbn [pendingRequests cb_message]. unfold no_requestId, requestId_key.
    rewrite H1, bool_decide_false by done. cbn. apply lookup_delete_eq.
Qed.

(** The loop of [dispose] over entries whose promises are pending and
    pairwise distinct. *)
Lemma dispose_loop (l : list (string * PendingRequest)) b0 w0 :
  NoDup ((λ kv, pr_reject kv.2) <$> l) →
  Forall (λ kv, promises w0 !! pr_reject kv.2 = Some Pending) l →
  let r := foldl (λ bw (kv : string * PendingRequest),
                    let '(err, b') := new_Error "Bridge disposed" bw.1 in
                    (b', reject (pr_reject kv.2) err (clearTimeout (pr_timer kv.2) bw.2)))
                 (b0, w0) l in
  Forall (λ kv,
            (∃ n, promises r.2 !! pr_reject kv.2 =
                    Some (Rejected (VError (RBridge n) "Bridge disposed"))) ∧
            timers r.2 !! pr_timer kv.2 = None) l ∧
  keeps_settled w0 r.2 ∧
  (∀ t, timers w0 !! t = None → timers r.2 !! t = None) ∧
  event_listeners r.2 = event_listeners w0 ∧ posted r.2 = posted w0.
Proof.
  revert b0 w0. induction l as [|[rid e] l IH]; intros b0 w0 Hnd Hp; cbn [foldl].
  - split_and!; [done|apply keeps_settled_refl|done..].
  - csimpl in Hnd. apply NoDup_cons in Hnd as [Hfresh Hnd].
    apply Forall_cons in Hp as [Hpe Hp]. cbn [fst snd new_Error] in *.
    set (w1 := reject (pr_reject e) (VError (RBridge (Bridge.next_ref b0)) "Bridge disposed")
                 (clearTimeout (pr_timer e) w0)).
    set (b1 := {| pendingRequests := pendingRequests b0; Bridge.options := Bridge.options b0;
                  Bridge.next_ref := S (Bridge.next_ref b0) |}).
    assert (Hw1 : ∀ q, promises w1 !! q =
                    if decide (q = pr_reject e)
                    then Some (Rejected (VError (RBridge (Bridge.next_ref b0)) "Bridge disposed"))
                    else promises w0 !! q).
    { intros q. unfold w1, reject. rewrite settle_lookup. cbn [clearTimeout with_timers promises].
      case_decide; [by rewrite Hpe | done]. }
    destruct (settle_other (pr_reject e)
                (Rejected (VError (RBridge (Bridge.next_ref b0)) "Bridge disposed"))
                (clearTimeout (pr_timer e) w0)) as (Ht & _ & _ & Hl & _ & Hpo).
    fold (reject (pr_reject e) (VError (RBridge (Bridge.next_ref b0)) "Bridge disposed")
            (clearTimeout (pr_timer e) w0)) in Ht, Hl, Hpo. fold w1 in Ht, Hl, Hpo.
    destruct (IH b1 w1) as (Hall & Hkeep & Htimers & Hls & Hposted); [done| |].
    { apply Forall_forall. intros kv Hin. rewrite Hw1, decide_False.
      - by apply (proj1 (Forall_forall _ _) Hp).
      - intros Heq. apply Hfresh. rewrite <- Heq.
        by apply (list_elem_of_fmap_2 (λ kv, pr_reject kv.2)). }
    split_and!.
    + apply Forall_cons. split; [|done]. cbn [snd]. split.
      * exists (Bridge.next_ref b0). apply Hkeep; [|done].
        by rewrite Hw1, decide_True.
      * apply Htimers. rewrite Ht. cbn. apply lookup_delete_eq.
    + intros q s Hq Hs. apply Hkeep; [|done]. rewrite Hw1.
      case_decide; [|done]. subst. rewrite Hpe in Hq. by injection Hq as <-.
    + intros t Hnone. apply Htimers. rewrite Ht. cbn.
      rewrite lookup_delete. by case_decide.
    + by rewrite Hls, Hl.
    + by rewrite Hposted, Hpo.
Qed.

(** X14.  [dispose()] on a bridge whose tables are consistent: every pending
    request is rejected with ["Bridge disposed"] and its timer cleared,
    [pendingRequests] is empty, promises settled before stay as they
    were, and of the listeners of [window] only [handleMessage] is
    removed; the listener of the client stays. *)
Theorem dispose_rejects_every_pending_request (b : WebViewBridge) (w : Window) :
  bridge_inv b w →
  pendingRequests (dispose b w).1 = ∅ ∧
  (∀ rid e, pendingRequests b !! rid = Some e →
     (∃ n, promises (dispose b w).2 !! pr_reject e =
             Some (Rejected (VError (RBridge n) "Bridge disposed"))) ∧
     timers (dispose b w).2 !! pr_timer e = None) ∧
  keeps_settled w (dispose b w).2 ∧
  event_listeners (dispose b w).2 =
    filter (λ x, x ≠ ("message", HandleMessage)) (event_listeners w) ∧
  posted (dispose b w).2 = posted w.
Proof.
  intros Hinv. unfold dispose.
  set (w1 := Runtime.removeEventListener "message" HandleMessage w).
  pose proof (dispose_loop (map_to_list (pendingRequests b)) b w1) as H.
  cbn zeta in H.
  destruct (foldl _ (b, w1) (map_to_list (pendingRequests b))) as [b2 w2].
  cbn [fst snd with_pending pendingRequests] in *.
  destruct H as (Hall & Hkeep & _ & Hls & Hposted).
  - apply NoDup_fmap_2_strong; [|apply NoDup_map_to_list].
    intros [rid1 e1] [rid2 e2] H1%elem_of_map_to_list H2%elem_of_map_to_list Heq.
    cbn [snd] in Heq.
    destruct (inv_pending _ _ Hinv _ _ H1) as (cb1 & Hcb1 & Hr1 & Hj1 & Hid1).
    destruct (inv_pending _ _ Hinv _ _ H2) as (cb2 & Hcb2 & Hr2 & Hj2 & Hid2).
    assert (pr_timer e1 = pr_timer e2) as Ht
      by (apply (inv_timers_inj _ _ Hinv _ _ _ _ Hcb1 Hcb2); congruence).
    rewrite Ht, Hcb2 in Hcb1. injection Hcb1 as <-.
    rewrite Hid2 in Hid1. injection Hid1 as <-. rewrite H1 in H2. by injection H2 as <-.
  - apply Forall_forall. intros [rid e] He%elem_of_map_to_list. cbn [snd].
    destruct (inv_pending _ _ Hinv _ _ He) as (cb & Hcb & Hr & Hj & _).
    destruct (inv_timers _ _ Hinv _ _ Hcb) as (_ & Hp & _).
    cbn. by rewrite Hj, <- Hr.
  - split_and!; [done| |done|done|done].
    intros rid e He. apply elem_of_map_to_list in He.
    exact (proj1 (Forall_forall _ _) Hall (rid, e) He).
Qed.

(** X15.  A valid message that answers a pending request resolves it with the
    very [payload] object of the message: the alternative [{}] of
    [message.payload || {}] is never taken, and the bridge allocates
    nothing. *)
Theorem response_resolves_with_message_payload (data : Value)
    (b : WebViewBridge) (w : Window) (rid : string) (e : PendingRequest) :
  validateMessage data = true → inbound_requestId data = Some rid →
  pendingRequests b !! rid = Some e →
  ∃ pl, get data "payload" = Some pl ∧ is_object pl = true ∧
    handleMessage data b w =
      (with_pending (delete rid (pendingRequests b)) b,
       resolve (pr_resolve e) pl (clearTimeout (pr_timer e) w)).
Proof.
  intros Hv Hrid He.
  destruct (validateMessage_shape data Hv) as (t' & pl & _ & _ & Hpl & Hobj & _).
  exists pl. split_and!; [done..|].
  unfold handleMessage, payload_or_empty. rewrite Hv, Hrid, He, Hpl. cbn [negb].
  change (default VUndefined (Some pl)) with pl.
  assert (truthy pl = true) as -> by (by destruct pl). done.
Qed.

End Bridge_properties.

(* ===================================================================== *)
(** * More of the client *)
(* ===================================================================== *)

Section Client_requests.
Import JS Protocol Runtime Bridge Client Loop.

Local Opaque State.setState.

(** X18.  [sendStateUpdate] without a session: the promise it returns is
    rejected with ["No active cast session"]; nothing is posted, no
    request is made, and the state is left alone: this failure is not
    recorded in [error], and no listener is called. *)
Theorem sendStateUpdate_without_session (now : Z) (generated : string)
    (st : Value) (x : World) :
  truthy (field "sessionId" x) = false →
  ∃ x' r,
    step now (CallSendStateUpdate generated st) x = Some x' ∧
    returned x' = returned x ++ [Rejected (VError r "No active cast session")] ∧
    suspended x' = suspended x ∧
    window x' = window x ∧
    bridge (client x') = bridge (client x) ∧
    State.state (stateManager (client x')) = State.state (stateManager (client x)) ∧
    State.calls (stateManager (client x')) = State.calls (stateManager (client x)) ∧
    ∀ k, field k x' = field k x.
Proof.
  intros Hnone. cbn [step]. unfold call, sendStateUpdate_call.
  destruct (getState (client x)) as [snapshot c1] eqn:Hg.
  assert (truthy (default VUndefined (get snapshot "sessionId")) = false) as ->.
  { unfold field, read in Hnone. by rewrite Hg in Hnone. }
  cbn [negb new_Error]. do 2 eexists. split; [done|].
  unfold getState in Hg. cbn in Hg. injection Hg as _ <-.
  cbn [returned suspended window client completed]. split_and!; try done.
Qed.

(** X19.  [signalReady] reads [available] and [devices] from the [payload]
    property of the value its request resolved with.  For a value that is
    an object without such a property, and the bridge resolves a request
    with the payload of the answer itself, [isAvailable] is set to false
    and [devices] to an empty array, whatever the value holds. *)
Theorem signalReady_reads_payload_of_response (now : Z) (x : World)
    (p i : nat) (task : Task) (response : Value) :
  list_find (λ t, awaited t = p) (suspended x) = Some (i, task) →
  method task = SignalReady →
  promises (window x) !! p = Some (Fulfilled response) →
  ∃ x', step now (Resume p) x = Some x' ∧
    (∀ inner, get response "payload" = Some inner →
       returned x' = <[future task := Fulfilled VUndefined]> (returned x) ∧
       field "isAvailable" x' = coalesce (get_opt inner "available") (VBool false) ∧
       (truthy (get_opt inner "devices") = true →
          field "devices" x' = get_opt inner "devices")) ∧
    (is_object response = true → own response "payload" = None →
       returned x' = <[future task := Fulfilled VUndefined]> (returned x) ∧
       field "isAvailable" x' = VBool false ∧
       ∃ r, field "devices" x' = VArr r []).
Proof.
  intros Hfind Hm Hp. eexists. split.
  { apply (step_Resume now x p i task (Resolved response) Hfind). by rewrite Hp. }
  rewrite Hm. cbn [resume_method signalReady_resume]. unfold field. split.
  - intros inner ->. unfold or_array.
    destruct (truthy (get_opt inner "devices")) eqn:Hd;
      cbn [object empty_array log fst snd completed client returned];
      rewrite !read_setState; by simpl (obj_get _ _).
  - intros Hobj Hnone.
    assert (get response "payload" = Some VUndefined) as ->.
    { destruct response; try done. unfold get. by rewrite Hnone. }
    cbn [get_opt nullish or_array truthy empty_array object log fst snd completed
         client returned].
    rewrite !read_setState. simpl (obj_get _ _). eauto.
Qed.

End Client_requests.

Section Client_events.
Import JS Protocol Runtime Bridge Client Loop.

Local Opaque State.setState.

(** In a page a client can get to, a message event reaches the client's
    listener once. *)
Lemma dispatch_client now data x :
  world_inv x →
  ∃ b, client (dispatch now data x) = with_bridge b (onMessage now data (client x)).
Proof.
  intros [_ [os Hos]]. unfold dispatch. rewrite Hos. cbn [foldl].
  destruct (deliver_observers now data os
              (deliver now data (deliver now data x HandleMessage) ClientListener))
    as (-> & _).
  cbn [deliver]. destruct (handleMessage _ _ _) as [b w]. cbn [client].
  exists b. apply onMessage_with_bridge.
Qed.

Lemma dispatch_field now data x k :
  world_inv x → field k (dispatch now data x) = read k (onMessage now data (client x)).
Proof.
  intros Hx. destruct (dispatch_client now data x Hx) as [b Hb].
  unfold field. rewrite Hb. by apply read_state.
Qed.

(** Deciding the comparisons of literal strings. *)
Ltac decide_strings :=
  repeat first
    [ rewrite bool_decide_true by done
    | rewrite (bool_decide_false (_ = _)) by done ];
  cbn [negb].

Lemma truthy_event data t :
  get data "type" = Some (VStr t) → truthy data = true.
Proof. destruct data as [| | | | |s| | | |]; try done; destruct s; done. Qed.

(** X21.  A [CAST_SESSION_UPDATED] event with status [connected]: the client
    is casting, no longer connecting, and takes the device and the
    session from the payload as they are, [undefined] where the payload
    lacks them; the other fields stay.  The listener does not ask whether
    the message passes [validateMessage]. *)
Theorem connected_event_starts_session (now : Z) (x : World)
    (data payload : Value) :
  reachable x →
  get data "type" = Some (VStr "CAST_SESSION_UPDATED") →
  get data "payload" = Some payload →
  get payload "status" = Some (VStr "connected") →
  ∃ x', step now (Message data) x = Some x' ∧
    field "isCasting" x' = VBool true ∧
    field "isConnecting" x' = VBool false ∧
    field "deviceId" x' = default VUndefined (get payload "deviceId") ∧
    field "deviceName" x' = default VUndefined (get payload "deviceName") ∧
    field "sessionId" x' = default VUndefined (get payload "sessionId") ∧
    ∀ k, k ∉ ["isConnecting"; "isCasting"; "deviceId"; "deviceName"; "sessionId"] →
      field k x' = field k x.
Proof.
  intros Hx%reachable_inv Htype Hpayload Hstatus. eexists. split; [done|].
  assert (Hc : ∀ k, field k (dispatch now data x) =
                 read k (setState
                   [ ("isConnecting", VBool false); ("isCasting", VBool true);
                     ("deviceId", default VUndefined (get payload "deviceId"));
                     ("deviceName", default VUndefined (get payload "deviceName"));
                     ("sessionId", default VUndefined (get payload "sessionId")) ]
                   (log now "info" "Session updated" payload (client x)))).
  { intros k. rewrite dispatch_field by done. unfold onMessage.
    rewrite (truthy_event data _ Htype), Htype, Hpayload.
    cbn -[setState log empty_array object get read]. rewrite Hstatus.
    cbn -[setState log empty_array object get read]. by decide_strings. }
  split_and!; try (rewrite Hc, read_setState; reflexivity).
  intros k Hk. rewrite Hc, read_setState. simpl (obj_get _ _).
  repeat (case_decide; [subst; exfalso; apply Hk; compute_done|]).
  done.
Qed.

(** X22.  A [CAST_SESSION_UPDATED] event with status [terminated] or [error]
    ends the session: the client is neither casting nor connecting and
    has no device and no session.  [terminated] leaves [error] as it is;
    [error] sets it to a [SESSION_ERROR] whose message is the [error] of
    the payload, or ["Session error"] where that is falsy.  The device
    list and the other fields stay. *)
Theorem session_end_event_clears_session (now : Z) (x : World)
    (data payload : Value) (status : string) :
  reachable x →
  get data "type" = Some (VStr "CAST_SESSION_UPDATED") →
  get data "payload" = Some payload →
  get payload "status" = Some (VStr status) →
  status = "terminated" ∨ status = "error" →
  ∃ x', step now (Message data) x = Some x' ∧
    field "isCasting" x' = VBool false ∧
    field "isConnecting" x' = VBool false ∧
    field "deviceId" x' = VNull ∧
    field "deviceName" x' = VNull ∧
    field "sessionId" x' = VNull ∧
    (status = "terminated" → field "error" x' = field "error" x) ∧
    (status = "error" →
       get_opt (field "error" x') "code" = VStr "SESSION_ERROR" ∧
       get_opt (field "error" x') "message" =
         or_else (default VUndefined (get payload "error")) (VStr "Session error")) ∧
    ∀ k, k ∉ ["isCasting"; "isConnecting"; "deviceId"; "deviceName"; "sessionId";
              "error"] →
      field k x' = field k x.
Proof.
  intros Hx%reachable_inv Htype Hpayload Hstatus Hs. eexists. split; [done|].
  assert (Hc : ∀ k, field k (dispatch now data x) =
                 read k
                   (if decide (status = "terminated") then
                      setState [ ("isCasting", VBool false); ("isConnecting", VBool false);
                                 ("deviceId", VNull); ("deviceName", VNull);
                                 ("sessionId", VNull) ]
                        (log now "info" "Session updated" payload (client x))
                    else
                      let '(error, c2) :=
                        object [ ("code", VStr "SESSION_ERROR");
                                 ("message",
                                  or_else (default VUndefined (get payload "error"))
                                    (VStr "Session error")) ]
                          (log now "info" "Session updated" payload (client x)) in
                      setState [ ("isCasting", VBool false); ("isConnecting", VBool false);
                                 ("deviceId", VNull); ("deviceName", VNull);
                                 ("sessionId", VNull); ("error", error) ] c2)).
  { intros k. rewrite dispatch_field by done. unfold onMessage.
    rewrite (truthy_event data _ Htype), Htype, Hpayload.
    cbn -[setState log empty_array object get read]. rewrite Hstatus.
    cbn -[setState log empty_array object get read].
    destruct Hs as [->| ->]; by decide_strings. }
  destruct Hs as [->| ->]; cbn [decide] in Hc;
    [rewrite decide_True in Hc by done | rewrite decide_False in Hc by done];
    cbn [object] in Hc;
    (split_and!; try (rewrite Hc, read_setState; reflexivity); try done).
  all: try (intros _; split; by rewrite Hc, read_setState).
  all: intros k Hk; rewrite Hc, read_setState; simpl (obj_get _ _);
    repeat (case_decide; [subst; exfalso; apply Hk; compute_done|]); done.
Qed.

(** X23.  A [CAST_ERROR] event sets [error] to the code, the message and the
    details of its payload and changes nothing else: a session that is
    active stays so. *)
Theorem cast_error_event_sets_error_only (now : Z) (x : World)
    (data payload code : Value) :
  reachable x →
  get data "type" = Some (VStr "CAST_ERROR") →
  get data "payload" = Some payload →
  get payload "code" = Some code →
  ∃ x', step now (Message data) x = Some x' ∧
    get_opt (field "error" x') "code" = code ∧
    get_opt (field "error" x') "message" = default VUndefined (get payload "message") ∧
    get_opt (field "error" x') "details" = default VUndefined (get payload "details") ∧
    ∀ k, k ≠ "error" → field k x' = field k x.
Proof.
  intros Hx%reachable_inv Htype Hpayload Hcode. eexists. split; [done|].
  assert (Hc : ∀ k, field k (dispatch now data x) =
                 read k
                   (let '(error, c2) :=
                      object [ ("code", code);
                               ("message", default VUndefined (get payload "message"));
                               ("details", default VUndefined (get payload "details")) ]
                        (log now "error" "Error from cast service" payload (client x)) in
                    setState [("error", error)] c2)).
  { intros k. rewrite dispatch_field by done. unfold onMessage.
    rewrite (truthy_event data _ Htype), Htype, Hpayload.
    cbn -[setState log empty_array object get read]. rewrite Hcode.
    by decide_strings. }
  cbn [object] in Hc.
  split_and!; try (by rewrite Hc, read_setState).
  intros k Hk. rewrite Hc, read_setState. simpl (obj_get _ _). by case_decide.
Qed.

(** X24.  A [CAST_DEVICES_UPDATED] event puts the [devices] of its payload, the
    very array of the message, into the state (an empty array where it is
    falsy), ends the scan, and changes nothing else. *)
Theorem devices_event_replaces_devices (now : Z) (x : World)
    (data payload devices : Value) :
  reachable x →
  get data "type" = Some (VStr "CAST_DEVICES_UPDATED") →
  get data "payload" = Some payload →
  get payload "devices" = Some devices →
  ∃ x', step now (Message data) x = Some x' ∧
    field "isScanning" x' = VBool false ∧
    (truthy devices = true → field "devices" x' = devices) ∧
    (truthy devices = false → ∃ r, field "devices" x' = VArr r []) ∧
    ∀ k, k ≠ "isScanning" → k ≠ "devices" → field k x' = field k x.
Proof.
  intros Hx%reachable_inv Htype Hpayload Hdevices. eexists. split; [done|].
  assert (Hc : ∀ k, field k (dispatch now data x) =
                 read k
                   (let '(devices', c2) :=
                      or_array devices
                        (log now "info" "Devices updated" payload (client x)) in
                    setState [("isScanning", VBool false); ("devices", devices')] c2)).
  { intros k. rewrite dispatch_field by done. unfold onMessage.
    rewrite (truthy_event data _ Htype), Htype, Hpayload.
    cbn -[setState log empty_array object get read or_array]. rewrite Hdevices.
    by decide_strings. }
  unfold or_array in Hc.
  destruct (truthy devices); cbn [empty_array] in Hc;
    (split_and!; try done; try (by rewrite Hc, read_setState)).
  - intros k H1 H2. rewrite Hc, read_setState. simpl (obj_get _ _).
    by repeat case_decide.
  - intros _. rewrite Hc, read_setState. simpl (obj_get _ _). eauto.
  - intros k H1 H2. rewrite Hc, read_setState. simpl (obj_get _ _).
    by repeat case_decide.
Qed.

(** X25.  The client's listener acts on three types of message only.  Any
    other message event, an answer to a request, a [CAST_INITIALIZED], a
    message without a type, [null], leaves the state manager as it is: no
    field changes and no listener is called. *)
Theorem other_messages_leave_state (now : Z) (x : World) (data : Value) :
  reachable x →
  (∀ t, get data "type" = Some (VStr t) →
        t ∉ ["CAST_DEVICES_UPDATED"; "CAST_SESSION_UPDATED"; "CAST_ERROR"]) →
  ∃ x', step now (Message data) x = Some x' ∧
    stateManager (client x') = stateManager (client x) ∧
    getLogs (client x') = getLogs (client x).
Proof.
  intros Hx%reachable_inv Hother. eexists. split; [done|].
  destruct (dispatch_client now data x Hx) as [b ->].
  assert (onMessage now data (client x) = client x) as ->; [|done].
  unfold onMessage. destruct (truthy data); [|done]. cbn [negb].
  destruct (get data "type") as [t|]; [|done].
  change (default VUndefined (Some t)) with t.
  destruct (truthy t); [|done]. cbn [negb].
  destruct (strict_eq t (VStr "CAST_DEVICES_UPDATED")) eqn:H1.
  { apply strict_eq_VStr in H1 as ->. destruct (Hother _ eq_refl). compute_done. }
  destruct (strict_eq t (VStr "CAST_SESSION_UPDATED")) eqn:H2.
  { apply strict_eq_VStr in H2 as ->. destruct (Hother _ eq_refl). compute_done. }
  destruct (strict_eq t (VStr "CAST_ERROR")) eqn:H3.
  { apply strict_eq_VStr in H3 as ->. destruct (Hother _ eq_refl). compute_done. }
  done.
Qed.

End Client_events.

(* ===================================================================== *)
(** * Requests and their timers *)
(* ===================================================================== *)

Section Requests_complete.
Import JS Protocol Runtime Bridge Client Loop.

Lemma registers_refl w r : (∀ p, r ≠ Await p) → registers w w r.
Proof. intros Hr. split_and!; auto. intros p ->. by destruct (Hr p). Qed.

Lemma send_registers message failed c w :
  bridge_inv (bridge c) w →
  registers w (send message failed c w).2 (send message failed c w).1.1.
Proof.
  intros Hinv. unfold send. destruct (no_requestId message) eqn:Hno.
  - rewrite sendMessageWithResponse_throws by done. cbn. by apply registers_refl.
  - apply no_requestId_false in Hno as (rid & Hrid & Hne).
    rewrite (sendMessageWithResponse_registers _ _ _ _ rid) by done. cbn.
    assert (Hfresh : promises w !! next_promise w = None).
    { destruct (promises w !! next_promise w) eqn:Hp; [|done].
      pose proof (inv_promises _ _ Hinv (next_promise w) ltac:(by eexists)). lia. }
    assert (Hfresht : timers w !! next_timer w = None).
    { destruct (timers w !! next_timer w) eqn:Hp; [|done].
      destruct (inv_timers _ _ Hinv _ _ Hp). lia. }
    split_and!; cbn.
    + intros t cb Hcb. rewrite lookup_insert_ne; [done|]. congruence.
    + intros q [s Hq]. rewrite lookup_insert_ne; [by eexists|]. congruence.
    + intros q. rewrite lookup_insert. case_decide as Hq; [|by left].
      intros _. right. eexists _, _. split; [apply lookup_insert_eq|]. by subst.
    + intros p [= <-]. split; [done|]. rewrite lookup_insert_eq. by eexists.
Qed.

Lemma bodies_register now a :
  match a with
  | CallSignalReady g params =>
      ∀ c w, bridge_inv (bridge c) w →
        registers w (signalReady_call now g params c w).2
          (signalReady_call now g params c w).1.1
  | CallScanForDevices g =>
      ∀ c w, bridge_inv (bridge c) w →
        registers w (scanForDevices_call now g c w).2 (scanForDevices_call now g c w).1.1
  | CallStartCasting g deviceId opts =>
      ∀ c w, bridge_inv (bridge c) w →
        registers w (startCasting_call now g deviceId opts c w).2
          (startCasting_call now g deviceId opts c w).1.1
  | CallStopCasting g =>
      ∀ c w, bridge_inv (bridge c) w →
        registers w (stopCasting_call now g c w).2 (stopCasting_call now g c w).1.1
  | CallSendStateUpdate g st =>
      ∀ c w, bridge_inv (bridge c) w →
        registers w (sendStateUpdate_call now g st c w).2
          (sendStateUpdate_call now g st c w).1.1
  | _ => True
  end.
Proof.
  destruct a; try done; intros c w Hinv.
  - unfold signalReady_call. cbn [object]. by apply send_registers.
  - unfold scanForDevices_call. cbn [object]. by apply send_registers.
  - unfold startCasting_call, or_object.
    destruct (truthy (initialState opts)); cbn [object]; by apply send_registers.
  - unfold stopCasting_call, getState. cbn [State.getState].
    destruct (negb _); [by apply registers_refl|].
    cbn [object]. by apply send_registers.
  - unfold sendStateUpdate_call, getState. cbn [State.getState].
    destruct (negb _); [by apply registers_refl|].
    cbn [object]. by apply send_registers.
Qed.

Lemma call_guarded m body x :
  (∀ c w, bridge_inv (bridge c) w → registers w (body c w).2 (body c w).1.1) →
  world_inv x → guarded x → guarded (call m body x).
Proof.
  intros Hbody [Hinv _] [Hpending Htasks]. unfold call.
  specialize (Hbody (client x) (window x) Hinv).
  destruct (body (client x) (window x)) as [[r c1] w1]. cbn [fst snd] in Hbody.
  destruct Hbody as (Htimers & Hkeep & Hnew & Hawait).
  assert (Hp : ∀ p, promises w1 !! p = Some Pending →
                 ∃ t cb, timers w1 !! t = Some cb ∧ cb_reject cb = p).
  { intros p Hq. destruct (Hnew p Hq) as [Hold|?]; [|done].
    destruct (Hpending p Hold) as (t & cb & Hcb & <-). eauto. }
  destruct r as [r|p]; split; cbn [window suspended]; try done.
  - intros task Hin. by apply Hkeep, Htasks.
  - intros task [Hin|Hin%list_elem_of_singleton]%elem_of_app.
    + by apply Hkeep, Htasks.
    + subst. cbn. by apply Hawait.
Qed.

Lemma deliver_guarded now data x l :
  bridge_inv (bridge (client x)) (window x) → guarded x →
  guarded (deliver now data x l).
Proof.
  intros Hinv [Hpending Htasks]. destruct l as [| |o]; cbn [deliver]; [|done|done].
  destruct (validateMessage data) eqn:Hv.
  2:{ by rewrite handleMessage_ignores by auto. }
  destruct (inbound_requestId data) as [rid|] eqn:Hrid.
  2:{ by rewrite handleMessage_ignores by (right; by rewrite Hrid). }
  destruct (pendingRequests (bridge (client x)) !! rid) as [e|] eqn:He.
  2:{ by rewrite handleMessage_ignores by (right; by rewrite Hrid). }
  destruct (handleMessage_consumes data _ (window x) rid e Hv Hrid He) as (b' & -> & _).
  destruct (inv_pending _ _ Hinv _ _ He) as (cb & Hcb & Hrej & _).
  destruct (settle_other (pr_resolve e)
              (Fulfilled (response_payload data (bridge (client x))))
              (clearTimeout (pr_timer e) (window x))) as (Ht & _).
  unfold resolve. split; cbn [window suspended].
  - intros p. rewrite settle_lookup, Ht. cbn [clearTimeout with_timers promises timers].
    case_decide as Hp.
    + subst. by destruct (promises (window x) !! pr_resolve e) as [[]|].
    + intros Hq. destruct (Hpending p Hq) as (t & cb' & Hcb' & Heq).
      exists t, cb'. split; [|done]. rewrite lookup_delete_ne; [done|].
      intros <-. rewrite Hcb in Hcb'. injection Hcb' as <-. congruence.
  - intros task Hin. rewrite settle_lookup.
    cbn [clearTimeout with_timers promises]. destruct (Htasks task Hin) as [s Hs].
    case_decide as Heq; [rewrite <- Heq|]; rewrite Hs; [destruct s|]; by eexists.
Qed.

Lemma dispatch_guarded now data x :
  world_inv x → guarded x → guarded (dispatch now data x).
Proof.
  intros [Hinv _]. unfold dispatch.
  generalize (listeners_for "message" (window x)) as ls. intros ls. revert x Hinv.
  induction ls as [|l ls IH]; intros x Hinv Hg; cbn [foldl]; [done|].
  apply IH; [by apply deliver_inv | by apply deliver_guarded].
Qed.

Lemma fire_guarded t x x' :
  world_inv x → guarded x → fire t x = Some x' → guarded x'.
Proof.
  intros [Hinv _] [Hpending Htasks]. unfold fire.
  destruct (timers (window x) !! t) as [cb|] eqn:Hcb; [|done]. cbn [mbind option_bind].
  rewrite timer_callback_eq. intros [= <-].
  destruct (settle_other (cb_reject cb) (Rejected (timeout_error cb (bridge (client x))))
              (clearTimeout t (window x))) as (Ht & _).
  destruct (inv_timers _ _ Hinv _ _ Hcb) as (_ & Hp & _).
  unfold reject. split; cbn [window suspended].
  - intros p. rewrite settle_lookup, Ht. cbn [clearTimeout with_timers promises timers].
    case_decide as Hq.
    + subst. by rewrite Hp.
    + intros Hpend. destruct (Hpending p Hpend) as (t' & cb' & Hcb' & Heq).
      exists t', cb'. split; [|done]. rewrite lookup_delete_ne; [done|].
      intros <-. rewrite Hcb in Hcb'. injection Hcb' as <-. congruence.
  - intros task Hin. rewrite settle_lookup.
    cbn [clearTimeout with_timers promises]. destruct (Htasks task Hin) as [s Hs].
    case_decide as Heq; [rewrite <- Heq|]; rewrite Hs; [destruct s|]; by eexists.
Qed.

Lemma step_guarded now a x x' :
  world_inv x → guarded x → step now a x = Some x' → guarded x'.
Proof.
  intros Hx Hg. pose proof (bodies_register now a) as Hbody.
  destruct a; cbn [step];
    try (intros [= <-]; by apply call_guarded).
  - by intros [= <-].
  - by intros [= <-].
  - intros [= <-]. destruct Hg as [Hpending Htasks].
    unfold Bridge.addEventListener, Runtime.addEventListener.
    by case_bool_decide.
  - intros [= <-]. by apply dispatch_guarded.
  - by apply fire_guarded.
  - unfold resume. destruct (list_find _ _) as [[i task]|]; [|done].
    cbn [mbind option_bind].
    destruct (promises (window x) !! p ≫= settlement) as [s|]; [|done].
    cbn [mbind option_bind]. destruct (resume_method _ _ _ _) as [r c1].
    intros [= <-]. destruct Hg as [Hpending Htasks]. split; [done|].
    cbn [window suspended]. intros task' Hin. apply Htasks.
    exact (elem_of_sublist _ _ _ Hin (sublist_delete _ _)).
Qed.

Lemma addEventListener_promises type l w :
  promises (Runtime.addEventListener type l w) = promises w.
Proof. unfold Runtime.addEventListener. by case_bool_decide. Qed.

Lemma reachable_guarded x : reachable x → guarded x.
Proof.
  intros (now & ua & opts & turns & Hrun).
  assert (Hg : guarded (boot now ua opts)).
  { split; cbn; [|by intros ? ?%elem_of_nil]. intros p.
    unfold setupEventListeners, setupMessageListener, Bridge.addEventListener.
    by rewrite !addEventListener_promises. }
  pose proof (boot_inv now ua opts) as Hinv.
  revert Hrun Hg Hinv. generalize (boot now ua opts) as x0.
  induction turns as [|[now' a] turns IH]; intros x0; cbn [run].
  - by intros [= <-].
  - destruct (step now' a x0) as [x1|] eqn:Hstep; [|done]. cbn [mbind option_bind].
    intros Hrun Hg Hinv. apply (IH x1 Hrun).
    + by apply (step_guarded now' a x0).
    + by destruct (step_inv _ _ _ _ Hinv Hstep).
Qed.

(** X26.  A suspended call does not depend on the host to complete.  In a page
    a client can get to, the promise a suspended call awaits is settled
    or has a live timer; so with at most two turns of its own, the timer
    firing and the call continuing, the page has one suspended call less. *)
Theorem suspended_call_can_complete (x : World) (task : Task) :
  reachable x → task ∈ suspended x →
  ∃ turns x',
    Forall (λ turn, internal turn.2) turns ∧ (length turns ≤ 2)%nat ∧
    run turns x = Some x' ∧
    S (length (suspended x')) = length (suspended x).
Proof.
  intros Hreach Hin.
  pose proof (reachable_inv x Hreach) as Hx.
  destruct (reachable_guarded x Hreach) as [Hpending Htasks].
  assert (Hresume : ∀ y s, suspended y = suspended x →
            promises (window y) !! awaited task = Some s → s ≠ Pending →
            ∃ y', step 0 (Resume (awaited task)) y = Some y' ∧
                  S (length (suspended y')) = length (suspended x)).
  { intros y s Hsusp Hs Hne. cbn [step]. unfold resume. rewrite Hsusp.
    destruct (list_find_elem_of (λ t, awaited t = awaited task) (suspended x) task Hin eq_refl)
      as [[i task'] Hfind].
    rewrite Hfind. cbn [mbind option_bind]. rewrite Hs. cbn [mbind option_bind].
    assert (settlement s = Some match s with
                                | Fulfilled v => Resolved v
                                | Rejected e => Failed e
                                | Pending => Failed VUndefined
                                end) as -> by (by destruct s).
    cbn [mbind option_bind]. destruct (resume_method _ _ _ _) as [r c1].
    eexists. split; [done|]. cbn [suspended].
    apply list_find_Some in Hfind as (Hi & _).
    rewrite length_delete by (by eexists).
    apply lookup_lt_Some in Hi. lia. }
  destruct (Htasks task Hin) as [s Hs].
  assert (s = Pending ∨ s ≠ Pending) as [->|Hne] by (destruct s; auto).
  - destruct (Hpending _ Hs) as (t & cb & Hcb & Hrej).
    destruct Hx as [Hinv _].
    pose proof (timer_callback_inv t cb _ _ Hinv Hcb) as H. cbn zeta in H.
    destruct (timer_callback cb (bridge (client x)) (clearTimeout t (window x)))
      as [b w] eqn:Hfire.
    cbn [fst snd] in H. destruct H as (_ & _ & _ & _ & Hrejected & _).
    destruct (Hresume {| window := w; client := with_bridge b (client x);
                         suspended := suspended x; returned := returned x |}
                (Rejected (timeout_error cb (bridge (client x)))))
      as (x' & Hstep & Hlen); [done|by rewrite <- Hrej|done|].
    exists [(0%Z, Timer t); (0%Z, Resume (awaited task))], x'.
    split_and!; [by repeat constructor|cbn; lia| |done].
    cbn [run]. change (step 0 (Timer t) x) with (fire t x).
    unfold fire. rewrite Hcb. cbn [mbind option_bind].
    rewrite Hfire. cbn [mbind option_bind]. by rewrite Hstep.
  - destruct (Hresume x s eq_refl Hs Hne) as (x' & Hstep & Hlen).
    exists [(0%Z, Resume (awaited task))], x'.
    split_and!; [by repeat constructor|cbn; lia| |done].
    cbn [run]. by rewrite Hstep.
Qed.

End Requests_complete.

(* ===================================================================== *)
(** * The requests on the wire *)
(* ===================================================================== *)

Section Requests_on_the_wire.
Import JS Protocol Runtime Bridge Client Loop.

Local Opaque State.setState.

Lemma parse_message lit ps v :
  is_object v = true →
  get v "type" = Some (VStr lit) →
  parse (ZObject ps) (default VUndefined (get v "payload")) = true →
  parse (ZOptional ZString) (default VUndefined (get v "requestId")) = true →
  parse (extend baseMessageSchema [("type", ZLiteral lit); ("payload", ZObject ps)]) v = true.
Proof.
  intros Hobj Htype Hpayload Hrid.
  change (extend _ _) with
    (ZObject [("type", ZLiteral lit); ("payload", ZObject ps);
              ("requestId", ZOptional ZString)]).
  cbn [parse] in *. rewrite Hobj, Htype, Hpayload, Hrid. cbn.
  by rewrite bool_decide_true.
Qed.

Lemma parse_record_any v : is_object v = true → parse (ZRecord ZAny) v = true.
Proof.
  intros Hobj. cbn [parse]. rewrite Hobj. cbn [andb].
  by induction (own_entries v).
Qed.

(** The request a method sends, when the generated identifier is not
    empty. *)
Lemma send_posts message failed c w rid :
  requestId message = Some rid → rid ≠ "" →
  ∃ b, send message failed c w =
         (Await (next_promise w), with_bridge b c,
          {| posted := posted w ++ [(message, targetOrigin (Bridge.options (bridge c)))];
             event_listeners := event_listeners w;
             timers := <[next_timer w := {| cb_message := message;
                                            cb_timeout := timeout (Bridge.options (bridge c));
                                            cb_reject := next_promise w |}]> (timers w);
             next_timer := S (next_timer w);
             promises := <[next_promise w := Pending]> (promises w);
             next_promise := S (next_promise w);
             observed := observed w |}) ∧
       pendingRequests b !! rid =
         Some {| pr_resolve := next_promise w; pr_reject := next_promise w;
                 pr_timer := next_timer w |}.
Proof.
  intros Hrid Hne. unfold send.
  rewrite (sendMessageWithResponse_registers _ _ _ _ rid Hrid Hne).
  eexists. split; [reflexivity|]. cbn. apply lookup_insert_eq.
Qed.

(** What zod takes for a promise is no object to it. *)
Lemma is_promise_not_object st : is_promise st = true → is_object st = false.
Proof. intros Hp. destruct st; try done; cbn [is_object]; by rewrite Hp. Qed.

(** A state update whose state is no object is not a valid message. *)
Lemma state_update_invalid r rc g now st :
  is_object st = false →
  validateMessage
    (message_object r
       {| type := "CAST_STATE_UPDATE";
          payload := VObj rc (assign [] [("state", st); ("timestamp", VNum now)]);
          requestId := Some g |}) = false.
Proof.
  intros Hst.
  match goal with |- ?v = false => destruct v eqn:Hv; [|done] end. exfalso.
  unfold validateMessage, messageSchema in Hv. cbn [parse] in Hv.
  rewrite !orb_true_iff in Hv.
  unfold castReadySchema, castInitializedSchema, castScanDevicesSchema,
    castDevicesUpdatedSchema, castStartSessionSchema, castSessionUpdatedSchema,
    castEndSessionSchema, castStateUpdateSchema, castStateConfirmedSchema,
    castErrorSchema in Hv.
  repeat (destruct Hv as [Hv|Hv]); try done;
    try (apply parse_extended in Hv as (_ & Ht & _); discriminate Ht).
  revert Hv.
  change (extend _ _) with
    (ZObject [("type", ZLiteral "CAST_STATE_UPDATE");
              ("payload", ZObject [("state", ZRecord ZAny);
                                   ("timestamp", ZOptional ZNumber)]);
              ("requestId", ZOptional ZString)]).
  cbn [parse]. rewrite !andb_true_iff. intros (_ & _ & (_ & [Hs _] & _) & _).
  revert Hs.
  change (default VUndefined (get (default VUndefined (get (message_object r _) "payload"))
                                "state")) with st.
  by rewrite Hst.
Qed.
(** X27.  The requests of [scanForDevices], [startCasting], [stopCasting] and
    [sendStateUpdate], as the objects they are, pass [validateMessage]:
    for [startCasting] provided [initialState] is absent, falsy or an
    object, for [sendStateUpdate] provided the state sent is an object,
    where an object is what zod takes for one: not an array, and not a
    value with functions [then] and [catch].  [sendStateUpdate] posts its
    message without looking at the state: for a state with such
    functions the message posted does not pass [validateMessage]. *)
Theorem requests_are_valid_messages (now : Z) (generated : string) (x : World)
    (r : Ref) :
  generated ≠ "" →
  (∃ x' m o,
     step now (CallScanForDevices generated) x = Some x' ∧
     posted (window x') = posted (window x) ++ [(m, o)] ∧
     type m = "CAST_SCAN_DEVICES" ∧
     validateMessage (message_object r m) = true) ∧
  (∀ deviceId opts,
     (truthy (initialState opts) = true → is_object (initialState opts) = true) →
     ∃ x' m o,
       step now (CallStartCasting generated deviceId opts) x = Some x' ∧
       posted (window x') = posted (window x) ++ [(m, o)] ∧
       type m = "CAST_START_SESSION" ∧
       validateMessage (message_object r m) = true) ∧
  (truthy (field "sessionId" x) = true →
     ∃ x' m o,
       step now (CallStopCasting generated) x = Some x' ∧
       posted (window x') = posted (window x) ++ [(m, o)] ∧
       type m = "CAST_END_SESSION" ∧
       validateMessage (message_object r m) = true) ∧
  (∀ st, truthy (field "sessionId" x) = true → is_object st = true →
     ∃ x' m o,
       step now (CallSendStateUpdate generated st) x = Some x' ∧
       posted (window x') = posted (window x) ++ [(m, o)] ∧
       type m = "CAST_STATE_UPDATE" ∧
       validateMessage (message_object r m) = true) ∧
  (∀ st, truthy (field "sessionId" x) = true → is_promise st = true →
     ∃ x' m o,
       step now (CallSendStateUpdate generated st) x = Some x' ∧
       posted (window x') = posted (window x) ++ [(m, o)] ∧
       type m = "CAST_STATE_UPDATE" ∧
       validateMessage (message_object r m) = false).
Proof.
  intros Hg.
  assert (Hvalid : ∀ lit ps pl,
            parse (ZObject ps) pl = true →
            parse (extend baseMessageSchema
                     [("type", ZLiteral lit); ("payload", ZObject ps)])
              (message_object r {| type := lit; payload := pl;
                                   requestId := Some generated |}) = true).
  { intros lit ps pl Hpl. by apply parse_message. }
  split_and!.
  - cbn [step]. unfold call, scanForDevices_call.
    cbn [object createMessage no_requestId requestId type payload].
    edestruct send_posts as (b & -> & _); [reflexivity|exact Hg|].
    do 3 eexists. split; [reflexivity|]. cbn [window posted].
    split_and!; [reflexivity|reflexivity|].
    unfold validateMessage, messageSchema. cbn [parse]. rewrite !orb_true_iff.
    do 2 right. left. by apply Hvalid.
  - intros deviceId opts Hinit. cbn [step]. unfold call, startCasting_call.
    destruct (or_object (initialState opts) _) as [initial c2] eqn:Hi.
    cbn [object createMessage no_requestId requestId type payload].
    edestruct send_posts as (b & -> & _); [reflexivity|exact Hg|].
    do 3 eexists. split; [reflexivity|]. cbn [window posted].
    split_and!; [reflexivity|reflexivity|].
    unfold validateMessage, messageSchema. cbn [parse]. rewrite !orb_true_iff.
    do 4 right. left. apply Hvalid.
    assert (parse (ZOptional (ZRecord ZAny)) initial = true) as Hok.
    { unfold or_object in Hi. destruct (truthy (initialState opts)) eqn:Ht.
      - injection Hi as <- _. specialize (Hinit eq_refl).
        destruct (initialState opts); try done; by apply parse_record_any.
      - by injection Hi as <- _. }
    cbn -[parse]. change (parse (ZObject ?ps) ?v) with
      (is_object v && (parse ZString (VStr deviceId) &&
                       (parse (ZOptional (ZRecord ZAny)) initial && true))).
    by rewrite Hok.
  - intros Hsession. cbn [step]. unfold call, stopCasting_call.
    destruct (getState (client x)) as [snapshot c1] eqn:Hs.
    assert (truthy (default VUndefined (get snapshot "sessionId")) = true) as ->.
    { unfold field, read in Hsession. by rewrite Hs in Hsession. }
    cbn [negb object createMessage no_requestId requestId type payload].
    edestruct send_posts as (b & -> & _); [reflexivity|exact Hg|].
    do 3 eexists. split; [reflexivity|]. cbn [window posted].
    unfold getState in Hs. cbn in Hs. injection Hs as _ <-.
    split_and!; [reflexivity|reflexivity|].
    unfold validateMessage, messageSchema. cbn [parse]. rewrite !orb_true_iff.
    do 6 right. left. by apply Hvalid.
  - intros st Hsession Hst. cbn [step]. unfold call, sendStateUpdate_call.
    destruct (getState (client x)) as [snapshot c1] eqn:Hs.
    assert (truthy (default VUndefined (get snapshot "sessionId")) = true) as ->.
    { unfold field, read in Hsession. by rewrite Hs in Hsession. }
    cbn [negb object createMessage no_requestId requestId type payload].
    edestruct send_posts as (b & -> & _); [reflexivity|exact Hg|].
    do 3 eexists. split; [reflexivity|]. cbn [window posted].
    unfold getState in Hs. cbn in Hs. injection Hs as _ <-.
    split_and!; [reflexivity|reflexivity|].
    unfold validateMessage, messageSchema. cbn [parse]. rewrite !orb_true_iff.
    do 7 right. left. apply Hvalid.
    cbn -[parse]. change (parse (ZObject ?ps) ?v) with
      (is_object v && (parse (ZRecord ZAny) st &&
                       (parse (ZOptional ZNumber) (VNum now) && true))).
    by rewrite parse_record_any.
  - intros st Hsession Hst. cbn [step]. unfold call, sendStateUpdate_call.
    destruct (getState (client x)) as [snapshot c1] eqn:Hs.
    assert (truthy (default VUndefined (get snapshot "sessionId")) = true) as ->.
    { unfold field, read in Hsession. by rewrite Hs in Hsession. }
    cbn [negb object createMessage no_requestId requestId type payload].
    edestruct send_posts as (b & -> & _); [reflexivity|exact Hg|].
    do 3 eexists. split; [reflexivity|]. cbn [window posted].
    split_and!; [reflexivity|reflexivity|].
    apply state_update_invalid. by apply is_promise_not_object.
Qed.

End Requests_on_the_wire.

(* ===================================================================== *)
(** * What the client never does *)
(* ===================================================================== *)

Section Client_frame.
Import JS Protocol Runtime Bridge Client Loop.

Local Opaque State.setState.

(** Rewriting the fields read after the client's updates. *)
Ltac read_through :=
  repeat first
    [ rewrite read_startCasting_begin
    | rewrite read_handleError
    | rewrite read_setState
    | rewrite read_log ];
  repeat (simpl (obj_get _ _)); repeat (case_decide; try congruence); cbn iota.

Lemma send_read k message failed c w :
  (∀ error c', read k (failed error c') = read k c') →
  read k (send message failed c w).1.2 = read k c.
Proof.
  intros Hfailed.
  destruct (send_client message failed c w) as [[b ->]|(b & error & ->)];
    [|rewrite Hfailed]; by apply read_state.
Qed.

(** No method body writes [isCasting]. *)
Lemma call_isCasting now a x x' :
  match a with
  | CallSignalReady _ _ | CallScanForDevices _ | CallStartCasting _ _ _
  | CallStopCasting _ | CallSendStateUpdate _ _ => True
  | _ => False
  end →
  step now a x = Some x' → field "isCasting" x' = field "isCasting" x.
Proof.
  intros Hcall. unfold field.
  destruct a; try done; cbn [step]; intros [= <-]; unfold call.
  - match goal with |- context [signalReady_call ?n ?g ?p ?c ?w] =>
      assert (read "isCasting" (signalReady_call n g p c w).1.2 = read "isCasting" c) as H end.
    { unfold signalReady_call. cbn [object]. rewrite send_read; [by apply read_state|].
      intros. unfold signalReady_catch. by read_through. }
    by destruct (signalReady_call _ _ _ _ _) as [[[] ?] ?].
  - match goal with |- context [scanForDevices_call ?n ?g ?c ?w] =>
      assert (read "isCasting" (scanForDevices_call n g c w).1.2 = read "isCasting" c) as H end.
    { unfold scanForDevices_call, scanForDevices_begin. cbn [object].
      rewrite send_read.
      - rewrite (read_state _ _ (setState [("isScanning", VBool true)] (client x))) by done.
        by read_through.
      - intros. unfold scanForDevices_catch. by read_through. }
    by destruct (scanForDevices_call _ _ _ _) as [[[] ?] ?].
  - match goal with |- context [startCasting_call ?n ?g ?d ?o ?c ?w] =>
      assert (read "isCasting" (startCasting_call n g d o c w).1.2 = read "isCasting" c) as H end.
    { unfold startCasting_call, or_object.
      destruct (truthy (initialState opts)); cbn [object]; (rewrite send_read;
        [ rewrite (read_state _ _ (startCasting_begin now deviceId opts (client x))) by done;
          by read_through
        | intros; unfold startCasting_catch; by read_through ]). }
    by destruct (startCasting_call _ _ _ _ _ _) as [[[] ?] ?].
  - match goal with |- context [stopCasting_call ?n ?g ?c ?w] =>
      assert (read "isCasting" (stopCasting_call n g c w).1.2 = read "isCasting" c) as H end.
    { unfold stopCasting_call, getState. cbn [State.getState].
      destruct (negb _); [by apply read_state|].
      cbn [object]. rewrite send_read; [by apply read_state|].
      intros. unfold stopCasting_catch. by read_through. }
    by destruct (stopCasting_call _ _ _ _) as [[[] ?] ?].
  - match goal with |- context [sendStateUpdate_call ?n ?g ?s ?c ?w] =>
      assert (read "isCasting" (sendStateUpdate_call n g s c w).1.2 = read "isCasting" c) as H end.
    { unfold sendStateUpdate_call, getState. cbn [State.getState].
      destruct (negb _); [by apply read_state|].
      cbn [object]. rewrite send_read; [by apply read_state|].
      intros. unfold sendStateUpdate_catch. by read_through. }
    by destruct (sendStateUpdate_call _ _ _ _ _) as [[[] ?] ?].
Qed.

(** A continued call leaves [isCasting] or sets it to false. *)
Lemma resume_method_isCasting now m s c :
  read "isCasting" (resume_method now m s c).2 = read "isCasting" c ∨
  read "isCasting" (resume_method now m s c).2 = VBool false.
Proof.
  destruct m, s as [v|error];
    cbn [resume_method signalReady_resume scanForDevices_resume
         startCasting_resume stopCasting_resume sendStateUpdate_resume snd];
    unfold signalReady_catch, scanForDevices_catch, startCasting_catch,
      stopCasting_catch, sendStateUpdate_catch;
    try (left; by read_through); try (by left).
  - unfold or_array.
    destruct (get v "payload") as [p|]; [destruct (truthy _)|];
      cbn [new_Error object empty_array snd]; left; by read_through.
  - right. by read_through.
Qed.

(** The flag was false and is not made true. *)
Ltac refute Hc :=
  let H := fresh in
  intros H;
  first
    [ discriminate H
    | rewrite Hc in H; discriminate H
    | match type of Hc with
      | truthy (read _ ?c) = false =>
          rewrite (read_state _ _ c) in H by done; rewrite Hc in H; discriminate H
      end ].

Lemma get_truthy data k :
  truthy data = true → get data k = Some (default VUndefined (get data k)).
Proof. by destruct data. Qed.

(** The client's listener sets [isCasting] to true on a [connected]
    event only. *)
Lemma onMessage_isCasting now data c :
  truthy (read "isCasting" c) = false →
  truthy (read "isCasting" (onMessage now data c)) = true →
  ∃ payload,
    get data "type" = Some (VStr "CAST_SESSION_UPDATED") ∧
    get data "payload" = Some payload ∧
    get payload "status" = Some (VStr "connected").
Proof.
  intros Hc. unfold onMessage.
  destruct (truthy data) eqn:Hdata; cbn [negb]; [|refute Hc].
  rewrite (get_truthy data "type" Hdata), (get_truthy data "payload" Hdata).
  assert (∀ v : Value, default VUndefined (Some v) = v) as Hd by done.
  rewrite !Hd. clear Hd.
  set (type := default VUndefined (get data "type")).
  set (payload := default VUndefined (get data "payload")).
  destruct (truthy type); cbn [negb]; [|refute Hc].
  destruct (strict_eq type (VStr "CAST_DEVICES_UPDATED")).
  { unfold or_array. destruct (get payload "devices") as [d|]; [destruct (truthy d)|];
      cbn [empty_array]; read_through; refute Hc. }
  destruct (strict_eq type (VStr "CAST_SESSION_UPDATED")) eqn:Htype.
  2:{ destruct (strict_eq type (VStr "CAST_ERROR")); [|refute Hc].
      destruct (get payload "code"); cbn [object]; read_through; refute Hc. }
  apply strict_eq_VStr in Htype.
  destruct (get payload "status") as [status|] eqn:Hstatus; [|read_through; refute Hc].
  destruct (strict_eq status (VStr "connected")) eqn:Hconnected.
  { apply strict_eq_VStr in Hconnected as ->. intros _. exists payload.
    by rewrite Htype. }
  destruct (strict_eq status (VStr "terminated")); [read_through; refute Hc|].
  destruct (strict_eq status (VStr "error")); cbn [object]; read_through;
    refute Hc.
Qed.

(** X28.  [isCasting] becomes true in one way: by a [CAST_SESSION_UPDATED]
    event with status [connected].  No call of a method, no answer to a
    request, no timer and no other event makes the client cast. *)
Theorem only_connected_event_starts_casting (now : Z) (a : Action) (x x' : World) :
  step now a x = Some x' →
  truthy (field "isCasting" x) = false →
  truthy (field "isCasting" x') = true →
  ∃ data payload,
    a = Message data ∧
    get data "type" = Some (VStr "CAST_SESSION_UPDATED") ∧
    get data "payload" = Some payload ∧
    get payload "status" = Some (VStr "connected").
Proof.
  intros Hstep Hx Hx'.
  destruct a as [g params|g|g deviceId opts|g|g st| |l|type o|msg|t|p];
    try (pose proof (λ H, call_isCasting now _ x x' H Hstep) as Heq; cbn beta iota in Heq;
         rewrite (Heq I), Hx in Hx'; discriminate Hx');
    cbn [step] in Hstep.
  - injection Hstep as <-. unfold field, resetError in *. cbn [client] in Hx'.
    revert Hx'. read_through. refute Hx.
  - injection Hstep as <-. unfold field in *. revert Hx'. refute Hx.
  - injection Hstep as <-. unfold field in *. cbn [client] in Hx'.
    revert Hx'. refute Hx.
  - injection Hstep as <-. exists msg. unfold dispatch in Hx'.
    revert x Hx Hx'. intros x. generalize (listeners_for "message" (window x)) as ls.
    intros ls. revert x.
    induction ls as [|l ls IH]; intros x Hx Hx'; cbn [foldl] in Hx'.
    { rewrite Hx in Hx'. discriminate Hx'. }
    destruct (truthy (field "isCasting" (deliver now msg x l))) eqn:Hl.
    2:{ by apply (IH (deliver now msg x l)). }
    clear IH Hx'. unfold field in *. destruct l as [| |o]; cbn [deliver] in Hl.
    + destruct (handleMessage _ _ _). revert Hl. refute Hx.
    + destruct (onMessage_isCasting now msg (client x) Hx Hl) as (payload & ? & ? & ?).
      by exists payload.
    + cbn [client] in Hl. revert Hl. refute Hx.
  - unfold fire in Hstep. destruct (timers (window x) !! t) as [cb|]; [|done].
    cbn [mbind option_bind] in Hstep. destruct (timer_callback _ _ _).
    injection Hstep as <-. unfold field in *. revert Hx'. refute Hx.
  - unfold resume in Hstep. destruct (list_find _ _) as [[i task]|]; [|done].
    cbn [mbind option_bind] in Hstep.
    destruct (promises (window x) !! p ≫= settlement) as [s|]; [|done].
    cbn [mbind option_bind] in Hstep.
    pose proof (resume_method_isCasting now (method task) s (client x)) as H.
    destruct (resume_method _ _ _ _) as [r c1]. injection Hstep as <-.
    unfold field in *. cbn [client snd] in *.
    destruct H as [H|H]; rewrite H in Hx'; [|done].
    rewrite Hx in Hx'. discriminate Hx'.
Qed.

End Client_frame.

Section Client_log.
Import JS Protocol Runtime Bridge Client Loop.

Local Opaque State.setState.

Lemma logs_setState fields c : logs (setState fields c) = logs c.
Proof. done. Qed.

Lemma logs_handleError now msg error c :
  logs c `prefix_of` logs (handleError now msg error c).
Proof. unfold handleError. cbn. by apply prefix_app_r. Qed.

Lemma send_logs message failed c w :
  (∀ error c', logs c' `prefix_of` logs (failed error c')) →
  logs c `prefix_of` logs (send message failed c w).1.2.
Proof.
  intros Hfailed.
  destruct (send_client message failed c w) as [[b ->]|(b & error & ->)]; [done|].
  etrans; [|apply Hfailed]. done.
Qed.

Lemma call_logs now a x x' :
  match a with
  | CallSignalReady _ _ | CallScanForDevices _ | CallStartCasting _ _ _
  | CallStopCasting _ | CallSendStateUpdate _ _ => True
  | _ => False
  end →
  step now a x = Some x' → logs (client x) `prefix_of` logs (client x').
Proof.
  intros Hcall.
  destruct a; try done; cbn [step]; intros [= <-]; unfold call.
  - match goal with |- context [signalReady_call ?n ?g ?p ?c ?w] =>
      assert (logs c `prefix_of` logs (signalReady_call n g p c w).1.2) as H end.
    { unfold signalReady_call. cbn [object]. etrans; [|apply send_logs].
      - cbn. by apply prefix_app_r.
      - intros. apply logs_handleError. }
    by destruct (signalReady_call _ _ _ _ _) as [[[] ?] ?].
  - match goal with |- context [scanForDevices_call ?n ?g ?c ?w] =>
      assert (logs c `prefix_of` logs (scanForDevices_call n g c w).1.2) as H end.
    { unfold scanForDevices_call, scanForDevices_begin. cbn [object].
      etrans; [|apply send_logs].
      - cbn. by apply prefix_app_r.
      - intros. unfold scanForDevices_catch. etrans; [|apply logs_handleError]. done. }
    by destruct (scanForDevices_call _ _ _ _) as [[[] ?] ?].
  - match goal with |- context [startCasting_call ?n ?g ?d ?o ?c ?w] =>
      assert (logs c `prefix_of` logs (startCasting_call n g d o c w).1.2) as H end.
    { unfold startCasting_call, or_object, startCasting_begin.
      destruct (truthy (initialState opts)); cbn [object];
        (etrans; [|apply send_logs];
         [ cbn; by apply prefix_app_r
         | intros; unfold startCasting_catch; etrans; [|apply logs_handleError]; done ]). }
    by destruct (startCasting_call _ _ _ _ _ _) as [[[] ?] ?].
  - match goal with |- context [stopCasting_call ?n ?g ?c ?w] =>
      assert (logs c `prefix_of` logs (stopCasting_call n g c w).1.2) as H end.
    { unfold stopCasting_call, getState. cbn [State.getState].
      destruct (negb _); [cbn; by apply prefix_app_r|].
      cbn [object]. etrans; [|apply send_logs].
      - cbn. by apply prefix_app_r.
      - intros. apply logs_handleError. }
    by destruct (stopCasting_call _ _ _ _) as [[[] ?] ?].
  - match goal with |- context [sendStateUpdate_call ?n ?g ?s ?c ?w] =>
      assert (logs c `prefix_of` logs (sendStateUpdate_call n g s c w).1.2) as H end.
    { unfold sendStateUpdate_call, getState. cbn [State.getState].
      destruct (negb _); [cbn; by apply prefix_app_r|].
      cbn [object]. etrans; [|apply send_logs].
      - cbn. by apply prefix_app_r.
      - intros. apply logs_handleError. }
    by destruct (sendStateUpdate_call _ _ _ _ _) as [[[] ?] ?].
Qed.

Lemma resume_method_logs now m s c :
  logs c `prefix_of` logs (resume_method now m s c).2.
Proof.
  destruct m, s as [v|error];
    cbn [resume_method signalReady_resume scanForDevices_resume
         startCasting_resume stopCasting_resume sendStateUpdate_resume snd];
    unfold signalReady_catch, scanForDevices_catch, startCasting_catch,
      stopCasting_catch, sendStateUpdate_catch;
    try done; try apply logs_handleError;
    try (etrans; [|apply logs_handleError]; done).
  unfold or_array.
  destruct (get v "payload") as [p|]; [destruct (truthy _)|];
    cbn [new_Error object empty_array snd].
  - cbn. by apply prefix_app_r.
  - cbn. by apply prefix_app_r.
  - etrans; [|apply logs_handleError]. done.
Qed.

Lemma onMessage_logs now msg c : logs c `prefix_of` logs (onMessage now msg c).
Proof.
  unfold onMessage, or_array.
  repeat (match goal with
          | |- context [if ?b then _ else _] => destruct b
          | |- context [match ?o with Some _ => _ | None => _ end] => destruct o
          end; try done);
    cbn [object empty_array]; rewrite ?logs_setState; cbn [logs log];
    by eexists.
Qed.

(** X29.  The log only grows, whatever the [debug] option: no turn of the page
    removes or rewrites an entry, and along every run [getLogs()] before
    is a prefix of [getLogs()] after. *)
Theorem log_only_grows (turns : list (Z * Action)) (x x' : World) :
  run turns x = Some x' → getLogs (client x) `prefix_of` getLogs (client x').
Proof.
  unfold getLogs.
  assert (Hstep : ∀ now a y y', step now a y = Some y' →
                    logs (client y) `prefix_of` logs (client y')).
  { intros now a y y' Hstep.
    destruct a as [g params|g|g deviceId opts|g|g st| |l|type o|msg|t|p];
      try (apply (λ H, call_logs now _ y y' H Hstep); exact I); cbn [step] in Hstep.
    - by injection Hstep as <-.
    - by injection Hstep as <-.
    - by injection Hstep as <-.
    - injection Hstep as <-. unfold dispatch.
      generalize (listeners_for "message" (window y)) as ls. intros ls. revert y.
      induction ls as [|l ls IH]; intros y; cbn [foldl]; [done|].
      etrans; [|apply IH]. destruct l as [| |o]; cbn [deliver].
      + by destruct (handleMessage _ _ _).
      + apply onMessage_logs.
      + done.
    - unfold fire in Hstep. destruct (timers (window y) !! t) as [cb|]; [|done].
      cbn [mbind option_bind] in Hstep. destruct (timer_callback _ _ _).
      by injection Hstep as <-.
    - unfold resume in Hstep. destruct (list_find _ _) as [[i task]|]; [|done].
      cbn [mbind option_bind] in Hstep.
      destruct (promises (window y) !! p ≫= settlement) as [s|]; [|done].
      cbn [mbind option_bind] in Hstep.
      pose proof (resume_method_logs now (method task) s (client y)) as H.
      destruct (resume_method _ _ _ _) as [r c1]. by injection Hstep as <-. }
  revert x. induction turns as [|[now a] turns IH]; intros x; cbn [run].
  - by intros [= <-].
  - destruct (step now a x) as [x1|] eqn:Hs; [|done]. cbn [mbind option_bind].
    intros Hrun. etrans; [by eapply Hstep | by apply IH].
Qed.

End Client_log.

Section Environment.
Import JS Client.

Lemma prefix_iff (sub s : string) :
  String.prefix sub s = true ↔ ∃ post, s = sub +:+ post.
Proof.
  revert s. induction sub as [|a sub IH]; intros s.
  - split; [intros _; by exists s | by destruct s].
  - destruct s as [|b s]; cbn [String.prefix].
    + split; [done | by intros [? ?]].
    + destruct (Ascii.ascii_dec a b) as [->|Hne].
      * rewrite IH. split.
        -- intros [post ->]. by exists post.
        -- intros [post [= ->]]. by exists post.
      * split; [done|]. intros [post [= ? _]]. done.
Qed.

Lemma includes_iff (sub s : string) :
  includes sub s = true ↔ ∃ pre post, s = pre +:+ sub +:+ post.
Proof.
  induction s as [|c s IH]; cbn [includes]; rewrite orb_true_iff, prefix_iff.
  - split.
    + intros [[post ->]|?]; [|done]. by exists "", post.
    + intros (pre & post & H). left. exists post.
      destruct pre; [done|discriminate H].
  - rewrite IH. split.
    + intros [[post ->]|(pre & post & ->)]; [by exists "", post|].
      by exists (String c pre), post.
    + intros (pre & post & H). destruct pre as [|c' pre].
      * left. by exists post.
      * right. injection H as _ ->. by exists pre, post.
Qed.

(** X30.  [isInOpenGameApp()] holds exactly where [navigator] is defined and
    its [userAgent] has ["OpenGame/"] somewhere in it. *)
Theorem isInOpenGameApp_iff (userAgent : option string) :
  isInOpenGameApp userAgent = true ↔
  ∃ pre post, userAgent = Some (pre +:+ "OpenGame/" +:+ post).
Proof.
  unfold isInOpenGameApp. destruct userAgent as [ua|].
  - rewrite includes_iff. split.
    + intros (pre & post & ->). by exists pre, post.
    + intros (pre & post & [= ->]). by exists pre, post.
  - split; [done | by intros (? & ? & ?)].
Qed.

End Environment.

(* ===================================================================== *)
(** * Calls from start to finish *)
(* ===================================================================== *)

Section Calls_complete.
Import JS Protocol Runtime Bridge Client Loop.

Local Opaque State.setState.

(** ** The promises the calls returned *)

Lemma deliver_tasks now data x l :
  suspended (deliver now data x l) = suspended x ∧
  returned (deliver now data x l) = returned x.
Proof. destruct l; cbn [deliver]; [by destruct (handleMessage _ _ _)|done..]. Qed.

Lemma dispatch_tasks now data x :
  suspended (dispatch now data x) = suspended x ∧
  returned (dispatch now data x) = returned x.
Proof.
  unfold dispatch. generalize (listeners_for "message" (window x)) as ls.
  intros ls. revert x. induction ls as [|l ls IH]; intros x; cbn [foldl]; [done|].
  destruct (IH (deliver now data x l)) as [-> ->]. apply deliver_tasks.
Qed.

Lemma accounted_same x x' :
  suspended x' = suspended x → returned x' = returned x →
  accounted x → accounted x'.
Proof. unfold accounted. by intros -> ->. Qed.

(** A call adds its promise at the end; a call that is suspended awaits
    a promise no other call awaits. *)
Lemma call_accounted m body x :
  (∀ c w, bridge_inv (bridge c) w → registers w (body c w).2 (body c w).1.1) →
  world_inv x → guarded x → accounted x → accounted (call m body x).
Proof.
  intros Hbody [Hinv _] [_ Htasks] (Hpending & Hfuture & Hawaited). unfold call.
  specialize (Hbody (client x) (window x) Hinv).
  destruct (body (client x) (window x)) as [[r c1] w1]. cbn [fst snd] in Hbody.
  destruct Hbody as (_ & _ & _ & Hawait).
  assert (Hold : Forall (λ task, ∀ s, (returned x ++ [s]) !! future task = Some Pending)
                   (suspended x)).
  { eapply Forall_impl; [exact Hpending|]. intros task Ht s.
    rewrite lookup_app_l; [done|]. by apply lookup_lt_Some in Ht. }
  destruct r as [r|p]; split_and!; cbn [suspended returned]; try done.
  - eapply Forall_impl; [exact Hold|]. intros task Ht. apply Ht.
  - apply Forall_app. split.
    + eapply Forall_impl; [exact Hold|]. intros task Ht. apply Ht.
    + apply Forall_singleton. cbn [future]. by apply list_lookup_middle.
  - rewrite fmap_app. apply NoDup_app. split_and!; [done| |apply NoDup_singleton].
    intros i (task & -> & Hin)%list_elem_of_fmap Hi. csimpl in Hi.
    apply list_elem_of_singleton in Hi.
    pose proof (proj1 (Forall_forall _ _) Hpending task Hin) as Ht.
    apply lookup_lt_Some in Ht. lia.
  - rewrite fmap_app. apply NoDup_app. split_and!; [done| |apply NoDup_singleton].
    intros q (task & -> & Hin)%list_elem_of_fmap Hq. csimpl in Hq.
    apply list_elem_of_singleton in Hq. destruct (Hawait p eq_refl) as [Hnone _].
    destruct (Htasks task Hin) as [s Hs]. congruence.
Qed.

(** The suspended call that awaits a promise. *)
Lemma accounted_find x task :
  accounted x → task ∈ suspended x →
  ∃ i, list_find (λ t, awaited t = awaited task) (suspended x) = Some (i, task).
Proof.
  intros (_ & _ & Hawaited) Hin.
  destruct (list_find_elem_of (λ t, awaited t = awaited task) (suspended x) task Hin eq_refl)
    as [[i task'] Hfind].
  exists i. rewrite Hfind. do 2 f_equal.
  apply list_find_Some in Hfind as (Hi & Heq & _).
  apply list_elem_of_lookup in Hin as [j Hj].
  assert (i = j) as ->; [|congruence].
  apply (NoDup_lookup (awaited <$> suspended x) i j (awaited task) Hawaited).
  - by rewrite list_lookup_fmap, Hi; cbn; rewrite Heq.
  - by rewrite list_lookup_fmap, Hj.
Qed.

(** Continuing a call settles the promise it returned and no other. *)
Lemma resume_accounted now p x x' :
  accounted x → resume now p x = Some x' → accounted x'.
Proof.
  intros (Hpending & Hfuture & Hawaited). unfold resume.
  destruct (list_find _ _) as [[i task]|] eqn:Hfind; [|done]. cbn [mbind option_bind].
  destruct (promises (window x) !! p ≫= settlement) as [s|]; [|done].
  cbn [mbind option_bind]. destruct (resume_method _ _ _ _) as [r c1].
  intros [= <-]. apply list_find_Some in Hfind as (Hi & _ & _).
  split_and!; cbn [suspended returned].
  - apply Forall_forall. intros task' Hin.
    apply list_elem_of_lookup in Hin as [j Hj].
    assert (task' ∈ suspended x) as Hin'.
    { exact (elem_of_sublist _ _ _ (list_elem_of_lookup_2 _ _ _ Hj) (sublist_delete _ _)). }
    rewrite list_lookup_insert_ne; [by apply (proj1 (Forall_forall _ _) Hpending)|].
    intros Heq.
    assert (Hj' : suspended x !! (if decide (j < i) then j else S j) = Some task').
    { rewrite list_lookup_delete in Hj. by destruct (decide (j < i)). }
    assert (i = if decide (j < i) then j else S j) as Hij.
    { apply (NoDup_lookup (future <$> suspended x) _ _ (future task) Hfuture).
      - by rewrite list_lookup_fmap, Hi.
      - by rewrite list_lookup_fmap, Hj'; cbn; rewrite Heq. }
    destruct (decide (j < i)); lia.
  - rewrite list_fmap_delete. exact (sublist_NoDup _ _ Hfuture (sublist_delete _ _)).
  - rewrite list_fmap_delete. exact (sublist_NoDup _ _ Hawaited (sublist_delete _ _)).
Qed.

Lemma step_accounted now a x x' :
  world_inv x → guarded x → accounted x → step now a x = Some x' → accounted x'.
Proof.
  intros Hx Hg Ha. pose proof (bodies_register now a) as Hbody.
  destruct a as [g params|g|g deviceId opts|g|g st| |l|type o|msg|t|p]; cbn [step];
    try (intros [= <-]; by apply call_accounted).
  - by intros [= <-].
  - by intros [= <-].
  - by intros [= <-].
  - intros [= <-]. destruct (dispatch_tasks now msg x) as [Hs Hr].
    by apply (accounted_same x).
  - unfold fire. destruct (timers (window x) !! t) as [cb|]; [|done].
    cbn [mbind option_bind]. destruct (timer_callback _ _ _). by intros [= <-].
  - by apply resume_accounted.
Qed.

Lemma run_accounted turns x x' :
  world_inv x → guarded x → accounted x → run turns x = Some x' →
  world_inv x' ∧ guarded x' ∧ accounted x'.
Proof.
  revert x. induction turns as [|[now a] turns IH]; intros x Hx Hg Ha; cbn [run].
  - by intros [= <-].
  - destruct (step now a x) as [x1|] eqn:Hstep; [|done]. cbn [mbind option_bind].
    apply IH.
    + by destruct (step_inv _ _ _ _ Hx Hstep).
    + by apply (step_guarded now a x).
    + by apply (step_accounted now a x).
Qed.

Lemma reachable_accounted x : reachable x → accounted x.
Proof.
  intros Hreach. pose proof Hreach as (now & ua & opts & turns & Hrun).
  refine (proj2 (proj2 (run_accounted turns _ x (boot_inv now ua opts) _ _ Hrun))).
  - split; cbn; [|by intros ? ?%elem_of_nil]. intros p.
    unfold setupEventListeners, setupMessageListener, Bridge.addEventListener.
    by rewrite !addEventListener_promises.
  - split_and!; cbn; constructor.
Qed.

(** Continuing a suspended call of an accounted page: the promise the
    call returned is settled, the other promises are as they were, and
    the call is no longer suspended. *)
Lemma resume_settles now x task s :
  accounted x → task ∈ suspended x →
  promises (window x) !! awaited task ≫= settlement = Some s →
  ∃ x' i, step now (Resume (awaited task)) x = Some x' ∧
    client x' = (resume_method now (method task) s (client x)).2 ∧
    window x' = window x ∧
    suspended x !! i = Some task ∧
    suspended x' = delete i (suspended x) ∧
    returned x' =
      <[future task := completed (resume_method now (method task) s (client x)).1]>
        (returned x) ∧
    returned x !! future task = Some Pending ∧
    returned x' !! future task =
      Some (completed (resume_method now (method task) s (client x)).1) ∧
    (∀ j, j ≠ future task → returned x' !! j = returned x !! j) ∧
    (task ∉ suspended x').
Proof.
  intros Ha Hin Hs. destruct (accounted_find x task Ha Hin) as [i Hfind].
  eexists _, i. split; [by apply (step_Resume now x _ i task s)|].
  destruct Ha as (Hpending & Hfuture & Hawaited).
  pose proof (proj1 (Forall_forall _ _) Hpending task Hin) as Hp.
  apply list_find_Some in Hfind as (Hi & _ & _).
  cbn [client window returned suspended]. split_and!; try done.
  - apply list_lookup_insert_eq. by apply lookup_lt_Some in Hp.
  - intros j Hj. by apply list_lookup_insert_ne.
  - intros [j Hj]%list_elem_of_lookup.
    assert (Hj' : suspended x !! (if decide (j < i) then j else S j) = Some task).
    { rewrite list_lookup_delete in Hj. by destruct (decide (j < i)). }
    assert (i = if decide (j < i) then j else S j) as Hij.
    { apply (NoDup_lookup (awaited <$> suspended x) _ _ (awaited task) Hawaited).
      - by rewrite list_lookup_fmap, Hi.
      - by rewrite list_lookup_fmap, Hj'. }
    destruct (decide (j < i)); lia.
Qed.

Lemma run_app turns1 turns2 x :
  run (turns1 ++ turns2) x = run turns1 x ≫= run turns2.
Proof.
  revert x. induction turns1 as [|[now a] turns1 IH]; intros x; cbn [run app]; [done|].
  destruct (step now a x) as [x1|]; cbn [mbind option_bind]; [apply IH | done].
Qed.

Lemma reachable_run turns x x' : reachable x → run turns x = Some x' → reachable x'.
Proof.
  intros (now & ua & opts & turns0 & Hrun0) Hrun.
  exists now, ua, opts, (turns0 ++ turns). rewrite run_app, Hrun0. exact Hrun.
Qed.

Lemma reachable_step now a x x' : reachable x → step now a x = Some x' → reachable x'.
Proof.
  intros Hx Hstep. apply (reachable_run [(now, a)] x x' Hx). cbn [run].
  by rewrite Hstep.
Qed.

(** ** Casting begins with an event *)

(** A turn that is no [connected] event leaves a client that is not
    casting not casting. *)
Lemma step_keeps_not_casting now a x x' :
  step now a x = Some x' → ¬ connects a →
  truthy (field "isCasting" x) = false → truthy (field "isCasting" x') = false.
Proof.
  intros Hstep Hno Hx.
  destruct a as [g params|g|g deviceId opts|g|g st| |l|type o|msg|t|p];
    try (pose proof (λ H, call_isCasting now _ x x' H Hstep) as Heq; cbn beta iota in Heq;
         by rewrite (Heq I));
    cbn [step] in Hstep.
  - injection Hstep as <-. unfold field, resetError in *. cbn [client].
    rewrite read_setState. by simpl (obj_get _ _).
  - by injection Hstep as <-.
  - by injection Hstep as <-.
  - injection Hstep as <-. unfold dispatch.
    revert Hx. generalize (listeners_for "message" (window x)) as ls.
    intros ls. revert x.
    induction ls as [|l ls IH]; intros x Hx; cbn [foldl]; [done|].
    apply IH. unfold field in *. destruct l as [| |o]; cbn [deliver].
    + by destruct (handleMessage _ _ _).
    + cbn [client].
      destruct (truthy (read "isCasting" (onMessage now msg (client x)))) eqn:Hl; [|done].
      destruct (onMessage_isCasting now msg (client x) Hx Hl) as (payload & ? & ? & ?).
      destruct Hno. by exists msg, payload.
    + done.
  - unfold fire in Hstep. destruct (timers (window x) !! t) as [cb|]; [|done].
    cbn [mbind option_bind] in Hstep. destruct (timer_callback _ _ _).
    by injection Hstep as <-.
  - unfold resume in Hstep. destruct (list_find _ _) as [[i task]|]; [|done].
    cbn [mbind option_bind] in Hstep.
    destruct (promises (window x) !! p ≫= settlement) as [s|]; [|done].
    cbn [mbind option_bind] in Hstep.
    pose proof (resume_method_isCasting now (method task) s (client x)) as H.
    destruct (resume_method _ _ _ _) as [r c1]. injection Hstep as <-.
    unfold field in *. cbn [client snd] in *.
    destruct H as [H|H]; rewrite H; done.
Qed.

Lemma run_keeps_not_casting turns x x' :
  run turns x = Some x' → Forall (λ turn, ¬ connects turn.2) turns →
  truthy (field "isCasting" x) = false → truthy (field "isCasting" x') = false.
Proof.
  revert x. induction turns as [|[now a] turns IH]; intros x; cbn [run].
  - by intros [= <-].
  - destruct (step now a x) as [x1|] eqn:Hstep; [|done]. cbn [mbind option_bind].
    intros Hrun [Ha Hrest]%Forall_cons Hx. apply (IH x1 Hrun Hrest).
    by apply (step_keeps_not_casting now a x).
Qed.

(** ** startCasting *)

(** Claim C1, as amended.  [startCasting] called in a page a client can
    get to, with a generated identifier that is not empty, is suspended
    on its request and has returned a pending promise.  Whatever turns
    the page takes then, if the promise of the request is rejected and
    the call continues, the promise the call returned is rejected with
    the same failure, [isConnecting] is false, [deviceId] is [null],
    [error] is an error object that carries the failure, and [isCasting]
    is what it was before the continuation: the [catch] block does not
    write it.  So [isCasting] remains false if it was false at the call
    and no [connected] event arrived in between. *)
Theorem startCasting_failure_rolls_back (now : Z) (x : World)
    (g deviceId : string) (opts : CastOptions) :
  reachable x → g ≠ "" →
  ∃ x1 task,
    step now (CallStartCasting g deviceId opts) x = Some x1 ∧
    suspended x1 = suspended x ++ [task] ∧
    method task = StartCasting ∧
    future task = length (returned x) ∧
    returned x1 = returned x ++ [Pending] ∧
    promises (window x1) !! awaited task = Some Pending ∧
    field "isConnecting" x1 = VBool true ∧
    field "deviceId" x1 = VStr deviceId ∧
    ∀ turns x2 now' error,
      run turns x1 = Some x2 →
      task ∈ suspended x2 →
      promises (window x2) !! awaited task = Some (Rejected error) →
      ∃ x3,
        step now' (Resume (awaited task)) x2 = Some x3 ∧
        (task ∉ suspended x3) ∧
        returned x3 !! future task = Some (Rejected error) ∧
        field "isConnecting" x3 = VBool false ∧
        field "deviceId" x3 = VNull ∧
        field "error" x3 ≠ VNull ∧
        get_opt (get_opt (field "error" x3) "details") "originalError" = error ∧
        field "isCasting" x3 = field "isCasting" x2 ∧
        (truthy (field "isCasting" x) = false →
         Forall (λ turn, ¬ connects turn.2) turns →
         truthy (field "isCasting" x3) = false).
Proof.
  intros Hreach Hg.
  destruct (step now (CallStartCasting g deviceId opts) x) as [x1|] eqn:Hstep; [|done].
  pose proof (reachable_step _ _ _ _ Hreach Hstep) as Hreach1.
  pose proof (λ H, call_isCasting now _ x x1 H Hstep) as Hcasting.
  cbn beta iota in Hcasting. specialize (Hcasting I).
  cbn [step] in Hstep. unfold call, startCasting_call in Hstep.
  destruct (or_object (initialState opts) _) as [initial c2] eqn:Hinit.
  cbn [object createMessage no_requestId requestId type payload] in Hstep.
  match type of Hstep with context [send ?m ?f ?c ?w] =>
    destruct (send_posts m f c w g eq_refl Hg) as (b & Hsend & _) end.
  rewrite Hsend in Hstep. clear Hsend. injection Hstep as <-.
  assert (Hc2 : State.state (stateManager c2) =
                State.state (stateManager (startCasting_begin now deviceId opts (client x)))).
  { unfold or_object in Hinit.
    destruct (truthy (initialState opts)); by injection Hinit as _ <-. }
  eexists _, {| awaited := next_promise (window x); method := StartCasting;
                future := length (returned x) |}.
  split; [reflexivity|]. cbn [suspended returned window promises awaited method future].
  split_and!; try done.
  - apply lookup_insert_eq.
  - unfold field. cbn [client].
    rewrite (read_state _ _ (startCasting_begin now deviceId opts (client x))) by done.
    by rewrite read_startCasting_begin.
  - unfold field. cbn [client].
    rewrite (read_state _ _ (startCasting_begin now deviceId opts (client x))) by done.
    by rewrite read_startCasting_begin.
  - intros turns x2 now' error Hrun Hin Hrejected.
    pose proof (reachable_accounted _ (reachable_run _ _ _ Hreach1 Hrun)) as Ha.
    destruct (resume_settles now' x2 _ (Failed error) Ha Hin)
      as (x3 & i & Hstep & Hclient & _ & _ & _ & _ & _ & Hret & _ & Hgone).
    { cbn [awaited]. by rewrite Hrejected. }
    cbn [awaited method future resume_method startCasting_resume fst snd completed]
      in Hstep, Hclient, Hret, Hgone.
    exists x3. split; [exact Hstep|]. split; [exact Hgone|]. split; [exact Hret|].
    pose proof (startCasting_catch_fields now' error (client x2)) as H. cbn zeta in H.
    destruct H as (H1 & H2 & H3 & H4 & H5).
    unfold field in *. rewrite Hclient. split_and!; try done.
    intros Hx Hturns. rewrite H3.
    apply (run_keeps_not_casting turns _ x2 Hrun Hturns).
    unfold field. by rewrite Hcasting.
Qed.

(** C1: the host confirms the session and leaves the request
    unanswered.  The request times out, the call fails, and the failure
    leaves the client casting, with a session and without a device. *)
Lemma startCasting_failure_leaves_casting :
  let x0 := Scenario.after (take 3 Scenario.start_connected_timed_out) in
  let x := Scenario.after Scenario.start_connected_timed_out in
  let error :=
    VError (RBridge 0) "Request timed out after 5000ms: CAST_START_SESSION" in
  field "isCasting" Scenario.page = VBool false ∧
  field "isConnecting" Scenario.page = VBool false ∧
  field "deviceId" Scenario.page = VNull ∧
  run Scenario.start_connected_timed_out Scenario.page = Some x ∧
  promises (window x0) !! 0%nat = Some (Rejected error) ∧
  returned x = [Rejected error] ∧
  field "isCasting" x = VBool true ∧
  field "isConnecting" x = VBool false ∧
  field "deviceId" x = VNull ∧
  field "sessionId" x = VStr "s-1".
Proof. cbn zeta. split_and!; vm_compute; reflexivity. Qed.

(** ** The end of a request *)

(** X17.  A request that fails at the bridge, whatever the method.  In a page
    a client can get to, the promise the suspended call returned is
    pending; continuing the call rejects it with the failure and leaves
    the promises of the other calls alone.  [error] is a [BRIDGE_ERROR]
    object with the message of the method and the failure as its
    [originalError], and of the other fields only those the method rolls
    back change: [isScanning] for [scanForDevices], [isConnecting] and
    [deviceId] for [startCasting]. *)
Theorem failed_request_is_recorded (now : Z) (x : World) (task : Task)
    (error : Value) :
  reachable x → task ∈ suspended x →
  promises (window x) !! awaited task = Some (Rejected error) →
  ∃ x', step now (Resume (awaited task)) x = Some x' ∧
    returned x !! future task = Some Pending ∧
    returned x' !! future task = Some (Rejected error) ∧
    (∀ j, j ≠ future task → returned x' !! j = returned x !! j) ∧
    (task ∉ suspended x') ∧
    get_opt (field "error" x') "code" = VStr "BRIDGE_ERROR" ∧
    get_opt (field "error" x') "message" =
      VStr match method task with
           | SignalReady => "Failed to signal readiness"
           | ScanForDevices => "Failed to scan for devices"
           | StartCasting => "Failed to start casting"
           | StopCasting => "Failed to stop casting"
           | SendStateUpdate => "Failed to send state update"
           end ∧
    get_opt (get_opt (field "error" x') "details") "originalError" = error ∧
    ∀ k, k ≠ "error" →
      field k x' =
        match method task with
        | ScanForDevices =>
            if decide (k = "isScanning") then VBool false else field k x
        | StartCasting =>
            if decide (k = "isConnecting") then VBool false
            else if decide (k = "deviceId") then VNull else field k x
        | _ => field k x
        end.
Proof.
  intros Ha%reachable_accounted Hin Hp.
  destruct (resume_settles now x task (Failed error) Ha Hin)
    as (x' & i & Hstep & Hclient & _ & _ & _ & _ & Hpending & Hret & Hothers & Hgone).
  { by rewrite Hp. }
  exists x'. split; [exact Hstep|]. split; [exact Hpending|].
  assert (completed (resume_method now (method task) (Failed error) (client x)).1 =
          Rejected error) as Hr by (by destruct (method task)).
  rewrite Hr in Hret. split; [exact Hret|]. split; [exact Hothers|].
  split; [exact Hgone|].
  unfold field. rewrite Hclient.
  destruct (method task);
    cbn [resume_method signalReady_resume scanForDevices_resume startCasting_resume
         stopCasting_resume sendStateUpdate_resume fst snd completed];
    unfold signalReady_catch, scanForDevices_catch, startCasting_catch,
      stopCasting_catch, sendStateUpdate_catch;
    (split_and!; [by rewrite read_handleError .. |]);
    intros k Hk; rewrite read_handleError, decide_False by done;
    rewrite ?read_setState; try done.
  - simpl (obj_get _ _). by repeat case_decide.
  - simpl (obj_get _ _). by repeat case_decide.
Qed.

(** The client's listener leaves the client alone on a message of
    another type than the three it acts on. *)
Lemma onMessage_other now data c :
  (∀ t, get data "type" = Some (VStr t) →
        t ∉ ["CAST_DEVICES_UPDATED"; "CAST_SESSION_UPDATED"; "CAST_ERROR"]) →
  onMessage now data c = c.
Proof.
  intros Hother. unfold onMessage. destruct (truthy data); [|done]. cbn [negb].
  destruct (get data "type") as [t|]; [|done].
  change (default VUndefined (Some t)) with t.
  destruct (truthy t); [|done]. cbn [negb].
  destruct (strict_eq t (VStr "CAST_DEVICES_UPDATED")) eqn:H1.
  { apply strict_eq_VStr in H1 as ->. destruct (Hother _ eq_refl). compute_done. }
  destruct (strict_eq t (VStr "CAST_SESSION_UPDATED")) eqn:H2.
  { apply strict_eq_VStr in H2 as ->. destruct (Hother _ eq_refl). compute_done. }
  destruct (strict_eq t (VStr "CAST_ERROR")) eqn:H3.
  { apply strict_eq_VStr in H3 as ->. destruct (Hother _ eq_refl). compute_done. }
  done.
Qed.

(** A valid answer to a pending request, dispatched in a page whose
    tables are consistent, fulfils the promise of the request. *)
Lemma dispatch_answer now data x rid e :
  world_inv x → validateMessage data = true → inbound_requestId data = Some rid →
  pendingRequests (bridge (client x)) !! rid = Some e →
  promises (window (dispatch now data x)) !! pr_resolve e =
    Some (Fulfilled (response_payload data (bridge (client x)))).
Proof.
  intros [Hinv [os Hos]] Hv Hrid He. unfold dispatch. rewrite Hos. cbn [foldl].
  destruct (handleMessage_consumes data _ (window x) rid e Hv Hrid He) as (b' & Hh & _).
  destruct (deliver_observers now data os
              (deliver now data (deliver now data x HandleMessage) ClientListener))
    as (_ & -> & _).
  cbn [deliver window]. rewrite Hh. cbn [window].
  destruct (inv_pending _ _ Hinv _ _ He) as (cb & Hcb & Hrej & _).
  destruct (inv_timers _ _ Hinv _ _ Hcb) as (_ & Hp & _).
  unfold resolve. rewrite settle_lookup, decide_True by done. cbn.
  by rewrite <- Hrej, Hp.
Qed.

(** [startCasting] with a generated identifier that is not empty: the
    call is suspended on a new promise, under the identifier. *)
Lemma startCasting_requests now g deviceId opts x :
  g ≠ "" →
  ∃ x1,
    step now (CallStartCasting g deviceId opts) x = Some x1 ∧
    suspended x1 =
      suspended x ++ [{| awaited := next_promise (window x); method := StartCasting;
                         future := length (returned x) |}] ∧
    returned x1 = returned x ++ [Pending] ∧
    promises (window x1) !! next_promise (window x) = Some Pending ∧
    pendingRequests (bridge (client x1)) !! g =
      Some {| pr_resolve := next_promise (window x);
              pr_reject := next_promise (window x);
              pr_timer := next_timer (window x) |} ∧
    State.state (stateManager (client x1)) =
      State.state (stateManager (startCasting_begin now deviceId opts (client x))).
Proof.
  intros Hg. cbn [step]. unfold call, startCasting_call.
  destruct (or_object (initialState opts) _) as [initial c2] eqn:Hinit.
  cbn [object createMessage no_requestId requestId type payload].
  match goal with |- context [send ?m ?f ?c ?w] =>
    destruct (send_posts m f c w g eq_refl Hg) as (b & -> & Hb) end.
  eexists. split; [reflexivity|].
  cbn [suspended returned window promises client bridge with_bridge stateManager].
  split_and!; try done.
  - apply lookup_insert_eq.
  - unfold or_object in Hinit.
    destruct (truthy (initialState opts)); by injection Hinit as _ <-.
Qed.

(** X20.  The acknowledgement of [startCasting] and of [sendStateUpdate] ends
    the call and changes nothing.  In a page a client can get to, the
    promise the suspended call returned is pending; when the request is
    fulfilled and the call continues, that promise is fulfilled, the
    promises of the other calls, the client and [window] are as they
    were.  So a [startCasting] that the host answers with a message of
    the request's type leaves, once the call has continued, the state
    the call made: [isConnecting] is still true and [deviceId] is the
    device asked for, and no other field has changed. *)
Theorem acknowledgement_changes_nothing :
  (∀ now x task response,
     reachable x → task ∈ suspended x →
     method task = StartCasting ∨ method task = SendStateUpdate →
     promises (window x) !! awaited task = Some (Fulfilled response) →
     ∃ x', step now (Resume (awaited task)) x = Some x' ∧
       client x' = client x ∧
       window x' = window x ∧
       returned x !! future task = Some Pending ∧
       returned x' !! future task = Some (Fulfilled VUndefined) ∧
       (∀ j, j ≠ future task → returned x' !! j = returned x !! j) ∧
       (task ∉ suspended x')) ∧
  (∀ now1 now2 now3 x g deviceId opts data,
     reachable x → g ≠ "" →
     validateMessage data = true → inbound_requestId data = Some g →
     get data "type" = Some (VStr "CAST_START_SESSION") →
     ∃ x',
       run [ (now1, CallStartCasting g deviceId opts); (now2, Message data);
             (now3, Resume (next_promise (window x))) ] x = Some x' ∧
       returned x' = returned x ++ [Fulfilled VUndefined] ∧
       suspended x' = suspended x ∧
       field "isConnecting" x' = VBool true ∧
       field "deviceId" x' = VStr deviceId ∧
       ∀ k, k ≠ "isConnecting" → k ≠ "deviceId" → field k x' = field k x).
Proof.
  split.
  - intros now x task response Ha%reachable_accounted Hin Hm Hp.
    destruct (resume_settles now x task (Resolved response) Ha Hin)
      as (x' & i & Hstep & Hclient & Hwindow & _ & _ & _ & Hpending & Hret & Hothers & Hgone).
    { by rewrite Hp. }
    exists x'. split; [exact Hstep|].
    assert ((resume_method now (method task) (Resolved response) (client x)).2 = client x ∧
            completed (resume_method now (method task) (Resolved response) (client x)).1 =
              Fulfilled VUndefined) as [Hc Hr] by (by destruct Hm as [-> | ->]).
    rewrite Hc in Hclient. rewrite Hr in Hret. done.
  - intros now1 now2 now3 x g deviceId opts data Hreach Hg Hv Hrid Htype.
    destruct (startCasting_requests now1 g deviceId opts x Hg)
      as (x1 & Hstep1 & Hsusp1 & Hret1 & Hp1 & He1 & Hstate1).
    set (task := {| awaited := next_promise (window x); method := StartCasting;
                    future := length (returned x) |}) in *.
    pose proof (reachable_step _ _ _ _ Hreach Hstep1) as Hreach1.
    pose proof (reachable_inv _ Hreach1) as Hinv1.
    set (x2 := dispatch now2 data x1).
    assert (Hstep2 : step now2 (Message data) x1 = Some x2) by done.
    pose proof (reachable_step _ _ _ _ Hreach1 Hstep2) as Hreach2.
    destruct (dispatch_tasks now2 data x1) as [Hsusp2 Hret2]. fold x2 in Hsusp2, Hret2.
    pose proof (dispatch_answer now2 data x1 g _ Hinv1 Hv Hrid He1) as Hp2.
    fold x2 in Hp2. cbn [pr_resolve] in Hp2.
    destruct (dispatch_client now2 data x1 Hinv1) as [b2 Hc2]. fold x2 in Hc2.
    rewrite onMessage_other in Hc2.
    2:{ intros t. rewrite Htype. intros [= <-]. compute_done. }
    pose proof (reachable_accounted _ Hreach2) as Ha2.
    assert (Hin2 : task ∈ suspended x2).
    { rewrite Hsusp2, Hsusp1. apply elem_of_app. right. left. }
    destruct (resume_settles now3 x2 task
                (Resolved (response_payload data (bridge (client x1)))) Ha2 Hin2)
      as (x3 & i & Hstep3 & Hc3 & _ & Hi & Hsusp3 & Hret3 & _).
    { cbn [awaited task]. by rewrite Hp2. }
    cbn [task awaited method future resume_method startCasting_resume fst snd completed]
      in Hstep3, Hc3, Hret3.
    assert (i = length (suspended x)) as ->.
    { destruct Ha2 as (_ & _ & Hnd).
      apply (NoDup_lookup (awaited <$> suspended x2) _ _ (awaited task) Hnd).
      - by rewrite list_lookup_fmap, Hi.
      - rewrite list_lookup_fmap, Hsusp2, Hsusp1.
        by rewrite list_lookup_middle. }
    exists x3. split_and!.
    + cbn [run]. rewrite Hstep1. cbn [mbind option_bind]. rewrite Hstep2.
      cbn [mbind option_bind]. by rewrite Hstep3.
    + rewrite Hret3, Hret2, Hret1.
      rewrite insert_app_r_alt by done. by rewrite Nat.sub_diag.
    + rewrite Hsusp3, Hsusp2, Hsusp1, (delete_middle (suspended x) []).
      apply app_nil_r.
    + unfold field. rewrite Hc3, Hc2.
      rewrite (read_state _ _ (startCasting_begin now1 deviceId opts (client x))) by done.
      by rewrite read_startCasting_begin.
    + unfold field. rewrite Hc3, Hc2.
      rewrite (read_state _ _ (startCasting_begin now1 deviceId opts (client x))) by done.
      by rewrite read_startCasting_begin.
    + intros k H1 H2. unfold field. rewrite Hc3, Hc2.
      rewrite (read_state _ _ (startCasting_begin now1 deviceId opts (client x))) by done.
      rewrite read_startCasting_begin. by rewrite !decide_False.
Qed.

(** ** What the subscribers are told *)




(** ** scanForDevices *)




End Calls_complete.

(* ===================================================================== *)
(** * The further theorems at work *)
(* ===================================================================== *)

Section At_work.
Import JS State Context Protocol Runtime Bridge Client Loop Scenario.

Lemma page_reachable : reachable page.
Proof. apply (after_reachable []). by eexists. Qed.

Lemma startCasting_failure_rolls_back_witness :
  let error :=
    VError (RBridge 0) "Request timed out after 5000ms: CAST_START_SESSION" in
  (reachable page ∧ "r1" ≠ "") ∧
  ∃ x3,
    run (start_timed_out ++ [(3%Z, Resume 0)]) page = Some x3 ∧
    returned x3 !! 0%nat = Some (Rejected error) ∧
    field "isConnecting" x3 = VBool false ∧
    field "deviceId" x3 = VNull ∧
    truthy (field "isCasting" x3) = false ∧
    get_opt (get_opt (field "error" x3) "details") "originalError" = error.
Proof.
  cbn zeta. split; [split; [exact page_reachable | done]|].
  destruct (startCasting_failure_rolls_back 1 page "r1" "tv-1" no_options
              page_reachable ltac:(done))
    as (x1 & task & Hstep & Hsusp & _ & Hfuture & _ & _ & _ & _ & Hfails).
  assert (Hx1 : step 1 (CallStartCasting "r1" "tv-1" no_options) page =
                Some (after start_requested)) by (vm_compute; reflexivity).
  rewrite Hx1 in Hstep. injection Hstep as <-.
  assert (task = {| awaited := 0; method := StartCasting; future := 0 |}) as ->.
  { vm_compute in Hsusp. by injection Hsusp as <-. }
  destruct (Hfails [(2%Z, Timer 0)] (after start_timed_out) 3%Z
              (VError (RBridge 0) "Request timed out after 5000ms: CAST_START_SESSION"))
    as (x3 & Hresume & _ & Hret & H1 & H2 & _ & H4 & _ & H6).
  { vm_compute. reflexivity. }
  { vm_compute. left. }
  { vm_compute. reflexivity. }
  exists x3. split_and!; [|exact Hret|exact H1|exact H2| |exact H4].
  - rewrite run_app.
    assert (run start_timed_out page = Some (after start_timed_out)) as ->
      by (vm_compute; reflexivity).
    cbn [mbind option_bind run]. cbn [awaited] in Hresume. by rewrite Hresume.
  - apply H6; [reflexivity|]. constructor; [|constructor].
    by intros (data & payload & ? & _).
Defined.


Lemma isEqual_same_properties_witness :
  isEqual (VError (RBridge 0) "Request timed out after 5000ms: CAST_READY")
          (VError (RBridge 1) "Bridge disposed") = true.
Proof.
  apply isEqual_same_properties; try done. cbn. apply not_elem_of_nil.
Defined.

Lemma setState_calls_every_subscriber_witness :
  NoDup (State.listeners subscribed) ∧
  ∃ cs, State.calls (State.setState casting_update subscribed) =
          State.calls subscribed ++ cs ∧
    (∀ l, global_calls l cs =
            if bool_decide (l ∈ State.listeners subscribed) then 1 else 0) ∧
    (∀ l v, CallListener l v ∈ cs →
       ∀ k, own v k = own (State.state (State.setState casting_update subscribed)) k).
Proof.
  assert (H : NoDup (State.listeners subscribed)) by compute_done.
  split; [exact H|]. exact (setState_calls_every_subscriber casting_update subscribed H).
Defined.

Lemma subscribe_unsubscribe_round_trip_witness :
  (3 ∉ State.listeners watched) ∧
  State.unsubscribe 3 (State.subscribe 3 watched) = watched.
Proof.
  assert (H : 3 ∉ State.listeners watched) by compute_done.
  split; [exact H|]. exact (subscribe_unsubscribe_round_trip 3 watched H).
Defined.

Lemma select_unselect_round_trip_witness :
  populated watched ∧
  State.unselect isCasting_selector 6 (State.select isCasting_selector 6 watched) =
    watched.
Proof.
  assert (Hpop : populated watched).
  { unfold populated. vm_compute. by repeat constructor. }
  split; [exact Hpop|].
  apply (select_unselect_round_trip isCasting_selector 6 watched Hpop).
  intros e Hin _. vm_compute in Hin. apply list_elem_of_singleton in Hin as ->.
  compute_done.
Defined.

Lemma setState_merges_successive_updates_witness :
  let p := VObj (RExt 0) [("isScanning", VBool true)] in
  let q := VObj (RExt 1) [("isScanning", VBool false); ("deviceName", VStr "TV")] in
  let m := State.new_StateManager 2 State.initialState in
  (NoDup (keys p) ∧ NoDup (keys q)) ∧
  own (State.state (State.setState (State.Partial q) (State.setState (State.Partial p) m)))
      "isScanning" =
    own (State.state (State.setState (State.Partial (State.spread2 9 p q)) m)) "isScanning".
Proof.
  cbn zeta.
  assert (Hp : NoDup (keys (VObj (RExt 0) [("isScanning", VBool true)]))) by compute_done.
  assert (Hq : NoDup (keys (VObj (RExt 1) [("isScanning", VBool false);
                                           ("deviceName", VStr "TV")]))) by compute_done.
  split; [done|].
  exact (setState_merges_successive_updates _ _ 9 _ "isScanning" Hp Hq).
Defined.

Lemma same_requestId_requests_interfere_witness :
  ∃ p1 p2 b1 w1 b2 w2 b3 w3 cb1 e,
    sendMessageWithResponse first_request 5000 fresh_bridge empty_window =
      (inr p1, b1, w1) ∧
    sendMessageWithResponse second_request 5000 b1 w1 = (inr p2, b2, w2) ∧
    p1 ≠ p2 ∧
    pendingRequests b2 !! "r1" = Some e ∧ pr_resolve e = p2 ∧
    timers w2 !! next_timer empty_window = Some cb1 ∧ cb_reject cb1 = p1 ∧
    timer_callback cb1 b2 (clearTimeout (next_timer empty_window) w2) = (b3, w3) ∧
    promises w3 !! p1 = Some (Rejected (timeout_error cb1 b2)) ∧
    promises w3 !! p2 = Some Pending ∧
    pendingRequests b3 !! "r1" = None ∧
    ∀ msg, inbound_requestId msg = Some "r1" → handleMessage msg b3 w3 = (b3, w3).
Proof.
  apply (same_requestId_requests_interfere first_request second_request 5000 5000
           fresh_bridge empty_window "r1"); done.
Defined.

Lemma dispose_rejects_every_pending_request_witness :
  let x := after scan_requested in
  let b := bridge (client x) in
  let w := window x in
  is_Some (pendingRequests b !! "r1") ∧
  pendingRequests (dispose b w).1 = ∅ ∧
  (∀ rid e, pendingRequests b !! rid = Some e →
     (∃ n, promises (dispose b w).2 !! pr_reject e =
             Some (Rejected (VError (RBridge n) "Bridge disposed"))) ∧
     timers (dispose b w).2 !! pr_timer e = None) ∧
  keeps_settled w (dispose b w).2 ∧
  event_listeners (dispose b w).2 =
    filter (λ l, l ≠ ("message", HandleMessage)) (event_listeners w) ∧
  posted (dispose b w).2 = posted w.
Proof.
  cbn zeta. split; [vm_compute; by eexists|].
  apply dispose_rejects_every_pending_request.
  apply (reachable_inv (after scan_requested)).
  apply after_reachable. vm_compute. by eexists.
Defined.

Lemma failed_request_is_recorded_witness :
  let x := after scan_timed_out in
  let task := {| awaited := 0; method := ScanForDevices; future := 0 |} in
  let error :=
    VError (RBridge 0) "Request timed out after 5000ms: CAST_SCAN_DEVICES" in
  (reachable x ∧ task ∈ suspended x ∧
   promises (window x) !! 0%nat = Some (Rejected error) ∧
   field "isScanning" x = VBool true) ∧
  ∃ x', step 3 (Resume 0) x = Some x' ∧
    returned x !! 0%nat = Some Pending ∧
    returned x' !! 0%nat = Some (Rejected error) ∧
    get_opt (field "error" x') "message" = VStr "Failed to scan for devices" ∧
    field "isScanning" x' = VBool false.
Proof.
  cbn zeta.
  assert (Hreach : reachable (after scan_timed_out)).
  { apply after_reachable. vm_compute. by eexists. }
  assert (Hin : {| awaited := 0; method := ScanForDevices; future := 0 |}
                ∈ suspended (after scan_timed_out)) by (vm_compute; left).
  split; [split_and!; try done; vm_compute; reflexivity|].
  destruct (failed_request_is_recorded 3 (after scan_timed_out) _
              (VError (RBridge 0) "Request timed out after 5000ms: CAST_SCAN_DEVICES")
              Hreach Hin)
    as (x' & Hstep & Hpending & Hret & _ & _ & _ & Hmsg & _ & Hframe);
    [vm_compute; reflexivity|].
  exists x'. split_and!; [exact Hstep|exact Hpending|exact Hret|exact Hmsg|].
  rewrite Hframe by done. reflexivity.
Defined.

Lemma sendStateUpdate_without_session_witness :
  truthy (field "sessionId" page) = false ∧
  ∃ x' r,
    step 1 (CallSendStateUpdate "r1" (VObj (RExt 0) [("score", VNum 3)])) page = Some x' ∧
    returned x' = returned page ++ [Rejected (VError r "No active cast session")] ∧
    suspended x' = suspended page ∧
    window x' = window page ∧
    bridge (client x') = bridge (client page) ∧
    State.state (stateManager (client x')) = State.state (stateManager (client page)) ∧
    State.calls (stateManager (client x')) = State.calls (stateManager (client page)) ∧
    ∀ k, field k x' = field k page.
Proof.
  split; [reflexivity|].
  apply (sendStateUpdate_without_session 1 "r1" _ page). reflexivity.
Defined.

Lemma signalReady_reads_payload_of_response_witness :
  let x := after signal_answered in
  let task := {| awaited := 0; method := SignalReady; future := 0 |} in
  let response := default VUndefined (get (initialized 0 (Some "r1")) "payload") in
  (validateMessage (initialized 0 (Some "r1")) = true ∧
   get response "available" = Some (VBool true) ∧
   list_find (λ t, awaited t = 0%nat) (suspended x) = Some (0%nat, task) ∧
   promises (window x) !! 0%nat = Some (Fulfilled response)) ∧
  ∃ x', step 3 (Resume 0) x = Some x' ∧
    returned x' = [Fulfilled VUndefined] ∧
    field "isAvailable" x' = VBool false ∧
    ∃ r, field "devices" x' = VArr r [].
Proof.
  cbn zeta. split; [split_and!; vm_compute; reflexivity|].
  destruct (signalReady_reads_payload_of_response 3 (after signal_answered) 0 0
              {| awaited := 0; method := SignalReady; future := 0 |}
              (default VUndefined (get (initialized 0 (Some "r1")) "payload")))
    as (x' & Hstep & _ & Hflat); [vm_compute; reflexivity..|].
  destruct Hflat as (Hret & Havailable & Hdevices); [reflexivity..|].
  exists x'. split_and!; [done| |done|done].
  rewrite Hret. vm_compute. reflexivity.
Defined.

Lemma connected_event_starts_session_witness :
  validateMessage bare_connected = false ∧
  ∃ x', step 1 (Message bare_connected) page = Some x' ∧
    field "isCasting" x' = VBool true ∧
    field "isConnecting" x' = VBool false ∧
    field "deviceId" x' = VUndefined ∧
    field "deviceName" x' = VUndefined ∧
    field "sessionId" x' = VStr "s-1".
Proof.
  split; [vm_compute; reflexivity|].
  destruct (connected_event_starts_session 1 page bare_connected
              (VObj (RExt 1) [("status", VStr "connected"); ("sessionId", VStr "s-1")])
              page_reachable)
    as (x' & Hstep & H1 & H2 & H3 & H4 & H5 & _); [reflexivity..|].
  exists x'. split_and!; done.
Defined.

Lemma session_end_event_clears_session_witness :
  let x := after casting in
  let ended := session_event 6 "error" "tv-1" "TV" "s-1" in
  field "sessionId" x = VStr "s-1" ∧
  ∃ x', step 3 (Message ended) x = Some x' ∧
    field "isCasting" x' = VBool false ∧
    field "sessionId" x' = VNull ∧
    get_opt (field "error" x') "message" = VStr "Session error" ∧
    field "devices" x' = field "devices" x.
Proof.
  cbn zeta. split; [vm_compute; reflexivity|].
  destruct (session_end_event_clears_session 3 (after casting)
              (session_event 6 "error" "tv-1" "TV" "s-1")
              (VObj (RExt 7)
                 [ ("status", VStr "error"); ("deviceId", VStr "tv-1");
                   ("deviceName", VStr "TV"); ("sessionId", VStr "s-1");
                   ("error", VNull) ]) "error")
    as (x' & Hstep & H1 & _ & _ & _ & H5 & _ & Herror & Hframe);
    [apply after_reachable; vm_compute; by eexists|reflexivity..|by right|].
  exists x'. split_and!; [done..| |].
  - by destruct (Herror eq_refl) as [_ ->].
  - apply Hframe. compute_done.
Defined.

Lemma cast_error_event_sets_error_only_witness :
  let x := after casting in
  let failure := error_event 6 "E_NETWORK" "Connection lost" in
  field "isCasting" x = VBool true ∧
  ∃ x', step 3 (Message failure) x = Some x' ∧
    get_opt (field "error" x') "code" = VStr "E_NETWORK" ∧
    field "isCasting" x' = VBool true ∧
    field "sessionId" x' = VStr "s-1".
Proof.
  cbn zeta. split; [vm_compute; reflexivity|].
  destruct (cast_error_event_sets_error_only 3 (after casting)
              (error_event 6 "E_NETWORK" "Connection lost")
              (VObj (RExt 7) [("code", VStr "E_NETWORK"); ("message", VStr "Connection lost")])
              (VStr "E_NETWORK"))
    as (x' & Hstep & Hcode & _ & _ & Hframe);
    [apply after_reachable; vm_compute; by eexists|reflexivity..|].
  exists x'. split_and!; [done|done| |].
  - rewrite Hframe by done. vm_compute. reflexivity.
  - rewrite Hframe by done. vm_compute. reflexivity.
Defined.

Lemma devices_event_replaces_devices_witness :
  let x := after scan_acknowledged in
  let found := devices_event 2 "tv-1" "TV" false in
  field "isScanning" x = VBool true ∧
  ∃ x', step 4 (Message found) x = Some x' ∧
    field "isScanning" x' = VBool false ∧
    is_Some (find_device "tv-1" (field "devices" x')).
Proof.
  cbn zeta. split; [vm_compute; reflexivity|].
  destruct (devices_event_replaces_devices 4 (after scan_acknowledged)
              (devices_event 2 "tv-1" "TV" false)
              (default VUndefined (get (devices_event 2 "tv-1" "TV" false) "payload"))
              (VArr (RExt 4)
                 [ VObj (RExt 5)
                     [ ("id", VStr "tv-1"); ("name", VStr "TV");
                       ("type", VStr "chromecast"); ("isConnected", VBool false) ] ]))
    as (x' & Hstep & Hscanning & Hdevices & _);
    [apply after_reachable; vm_compute; by eexists|reflexivity..|].
  exists x'. split_and!; [done|done|].
  rewrite Hdevices by done. vm_compute. by eexists.
Defined.

Lemma other_messages_leave_state_witness :
  ∃ x', step 1 (Message (initialized 0 None)) page = Some x' ∧
    stateManager (client x') = stateManager (client page) ∧
    getLogs (client x') = getLogs (client page).
Proof.
  apply (other_messages_leave_state 1 page (initialized 0 None) page_reachable).
  intros t [= <-]. compute_done.
Defined.

Lemma suspended_call_can_complete_witness :
  let x := after start_requested in
  let task := {| awaited := 0; method := StartCasting; future := 0 |} in
  (task ∈ suspended x) ∧
  ∃ turns x',
    Forall (λ turn, internal turn.2) turns ∧ (length turns ≤ 2)%nat ∧
    run turns x = Some x' ∧
    S (length (suspended x')) = length (suspended x).
Proof.
  cbn zeta.
  assert (Hin : {| awaited := 0; method := StartCasting; future := 0 |}
                ∈ suspended (after start_requested)) by (vm_compute; left).
  split; [exact Hin|].
  assert (Hreach : reachable (after start_requested)).
  { apply after_reachable. vm_compute. by eexists. }
  exact (suspended_call_can_complete _ _ Hreach Hin).
Defined.

Lemma requests_are_valid_messages_witness :
  let x := after casting in
  let score := VObj (RExt 8) [("score", VNum 3)] in
  let thenable := VObj (RExt 8) [("then", VFun (RExt 9)); ("catch", VFun (RExt 10))] in
  ("r1" ≠ "" ∧ truthy (field "sessionId" x) = true ∧
   is_object score = true ∧ is_promise thenable = true) ∧
  (∃ x' m o,
     step 3 (CallScanForDevices "r1") x = Some x' ∧
     posted (window x') = posted (window x) ++ [(m, o)] ∧
     type m = "CAST_SCAN_DEVICES" ∧
     validateMessage (message_object (RExt 0) m) = true) ∧
  (∃ x' m o,
     step 3 (CallSendStateUpdate "r1" score) x = Some x' ∧
     posted (window x') = posted (window x) ++ [(m, o)] ∧
     type m = "CAST_STATE_UPDATE" ∧
     validateMessage (message_object (RExt 0) m) = true) ∧
  (∃ x' m o,
     step 3 (CallSendStateUpdate "r1" thenable) x = Some x' ∧
     posted (window x') = posted (window x) ++ [(m, o)] ∧
     type m = "CAST_STATE_UPDATE" ∧
     validateMessage (message_object (RExt 0) m) = false).
Proof.
  cbn zeta.
  assert (Hg : "r1" ≠ "") by done.
  assert (Hsession : truthy (field "sessionId" (after casting)) = true)
    by (vm_compute; reflexivity).
  destruct (requests_are_valid_messages 3 "r1" (after casting) (RExt 0) Hg)
    as (Hscan & _ & _ & Hupdate & Hpromise).
  split; [split_and!; try done|]. split; [exact Hscan|]. split.
  - by apply Hupdate.
  - by apply Hpromise.
Defined.

Lemma only_connected_event_starts_casting_witness :
  let connected := session_event 0 "connected" "tv-1" "TV" "s-1" in
  (truthy (field "isCasting" page) = false ∧
   truthy (field "isCasting" (after [(1%Z, Message connected)])) = true) ∧
  ∃ msg payload,
    Message connected = Message msg ∧
    get msg "type" = Some (VStr "CAST_SESSION_UPDATED") ∧
    get msg "payload" = Some payload ∧
    get payload "status" = Some (VStr "connected").
Proof.
  cbn zeta. split; [split; vm_compute; reflexivity|].
  apply (only_connected_event_starts_casting 1 _ page
           (after [(1%Z, Message (session_event 0 "connected" "tv-1" "TV" "s-1"))]));
    vm_compute; reflexivity.
Defined.

Lemma log_only_grows_witness :
  run second_start page = Some (after second_start) ∧
  getLogs (client page) `prefix_of` getLogs (client (after second_start)).
Proof.
  assert (H : run second_start page = Some (after second_start))
    by (vm_compute; reflexivity).
  split; [exact H|]. exact (log_only_grows second_start page _ H).
Defined.

Lemma response_resolves_with_message_payload_witness :
  let x := after scan_requested in
  let e := {| pr_resolve := 0; pr_reject := 0; pr_timer := 0 |} in
  ∃ pl, get (scan_answer 0 "r1") "payload" = Some pl ∧ is_object pl = true ∧
    handleMessage (scan_answer 0 "r1") (bridge (client x)) (window x) =
      (with_pending (delete "r1" (pendingRequests (bridge (client x)))) (bridge (client x)),
       resolve (pr_resolve e) pl (clearTimeout (pr_timer e) (window x))).
Proof.
  cbn zeta.
  apply (response_resolves_with_message_payload (scan_answer 0 "r1") _ _ "r1");
    vm_compute; reflexivity.
Defined.

Lemma acknowledgement_changes_nothing_witness :
  let data := start_answer 2 "tv-1" "r1" in
  (validateMessage data = true ∧ inbound_requestId data = Some "r1") ∧
  ∃ x',
    run [ (1%Z, CallStartCasting "r1" "tv-1" no_options); (2%Z, Message data);
          (3%Z, Resume 0) ] page = Some x' ∧
    returned x' = [Fulfilled VUndefined] ∧
    suspended x' = [] ∧
    field "isConnecting" x' = VBool true ∧
    field "deviceId" x' = VStr "tv-1" ∧
    field "isCasting" x' = VBool false.
Proof.
  cbn zeta. split; [split; vm_compute; reflexivity|].
  destruct (proj2 acknowledgement_changes_nothing 1%Z 2%Z 3%Z page "r1" "tv-1"
              no_options (start_answer 2 "tv-1" "r1") page_reachable)
    as (x' & Hrun & Hret & Hsusp & H1 & H2 & Hframe);
    [done|vm_compute; reflexivity..|].
  exists x'. split_and!; [exact Hrun|exact Hret|exact Hsusp|exact H1|exact H2|].
  by rewrite Hframe.
Defined.


End At_work.
